(** * Market-making platform: wager lifecycle, risk checks, order books,
      notification fan-out

    A shallow embedding of the Python sources

      - [src/core/wager_manager.py], [src/risk/risk_manager.py] and the
        guarded placement of [src/strategies/simple_market_maker.py]
        (module [WagerMgr]; the [Wager] record and the configuration records
        come from [src/exchanges/prophet_sports_api.py] and
        [src/config/settings.py]);
      - the order-book part of [src/data/market_data_manager.py]
        (module [MarketData]);
      - [MarketDataManager._notify_subscribers] and
        [ProphetSportsAPI._trigger_callbacks], with the registry of
        subscribers (module [Hub]);
      - the wager calls of [src/exchanges/prophet_sports_api.py] and the
        manual calls of [src/core/platform.py], composed with the wager
        manager (module [Exchange]);

    followed by the properties proved of them (modules [WagerFacts],
    [MarketFacts], [HubFacts], then [WagerExtras], [MarketExtras],
    [ExchangeExtras], [HubExtras]).

    Modelling conventions.

      - Python [int] is [Z]; Python [float] amounts (stakes, sizes, limits,
        clock readings) are exact rationals [Q]: rounding is not modelled.
      - A Python [dict] is an insertion-ordered association list ([pydict])
        wherever the code enumerates it; the two pending sets, which are only
        looked up, inserted into and popped from, are [gmap]s.
      - A method of a manager object is a state-passing function over the
        objects it can reach; [logger] calls append to a log sink.
      - An [async] method is cut at its single [await] on the exchange
        transport: a [_begin] part that runs up to the call and a [_resume]
        part that runs once the transport has answered.  A scheduler
        interleaves these parts the way the event loop can.
      - [time.time()] readings are arguments; the readings taken within one
        update of a book are identified. *)

From Stdlib Require Import ZArith QArith Qabs Lqa String Ascii List Bool Lia.
From Stdlib Require Import Sorting.Sorted.
From stdpp Require Import base option list gmap strings pretty.

Local Close Scope Q_scope.
Local Open Scope Z_scope.

(** ** Numbers *)

(** [a < b] on amounts, as a boolean. *)
Definition Qltb (a b : Q) : bool := negb (Qle_bool b a).

(** Python's [sum(xs)]: start from [0], add from the left. *)
Definition py_sum (xs : list Q) : Q := fold_left Qplus xs (0%Q).

(** ** Python dictionaries *)

Section pydict.
Context {K V : Type} `{EqDecision K}.

Fixpoint dict_get (k : K) (d : list (K * V)) : option V :=
  match d with
  | [] => None
  | (k', v) :: d' => if decide (k = k') then Some v else dict_get k d'
  end.

(** [d[k] = v]: an existing key keeps its position, a new key goes last. *)
Fixpoint dict_set (k : K) (v : V) (d : list (K * V)) : list (K * V) :=
  match d with
  | [] => [(k, v)]
  | (k', v') :: d' =>
      if decide (k = k') then (k', v) :: d' else (k', v') :: dict_set k v d'
  end.

(** [d.pop(k, None)], keeping the dictionary only. *)
Fixpoint dict_pop (k : K) (d : list (K * V)) : list (K * V) :=
  match d with
  | [] => []
  | (k', v') :: d' =>
      if decide (k = k') then d' else (k', v') :: dict_pop k d'
  end.

Definition dict_keys (d : list (K * V)) : list K := map fst d.

Definition dict_values (d : list (K * V)) : list V := map snd d.

Definition dict_mem (k : K) (d : list (K * V)) : bool :=
  match dict_get k d with Some _ => true | None => false end.

End pydict.

Abbreviation pydict K V := (list (K * V)) (only parsing).

(** ** Values of untyped dictionary entries (market contexts) *)

Inductive PyVal : Type :=
| VNone
| VInt (z : Z)
| VStr (s : string).

Global Instance PyVal_eq_dec : EqDecision PyVal.
Proof. solve_decision. Defined.

(** Truthiness of a value in an [if]. *)
Definition truthy (v : PyVal) : bool :=
  match v with
  | VNone => false
  | VInt z => negb (z =? 0)
  | VStr s => negb (String.eqb s "")
  end.

(** [str(v)]. *)
Definition py_str (v : PyVal) : string :=
  match v with
  | VNone => "None"
  | VInt z => pretty z
  | VStr s => s
  end.

(** [d.get(key)]: [None] when the key is absent. *)
Definition ctx_get (key : string) (d : pydict string PyVal) : PyVal :=
  default VNone (dict_get key d).

(** ** Logging *)

Inductive LogLevel : Type := DEBUG | INFO | WARNING | ERROR.

(** A log record: its level and the fixed part of its message. *)
Definition LogEntry : Type := LogLevel * string.

(** * The wager manager and the risk manager *)

Module WagerMgr.

(** ** Data ([exchanges/prophet_sports_api.py], [core/wager_manager.py],
       [config/settings.py]) *)

Inductive WagerStatus : Type := PENDING | OPEN | MATCHED | CANCELLED | SETTLED.

Record Wager : Type := mkWager {
  external_id : string;
  line_id : Z;
  odds : Z;
  stake : Q;
  selection_id : Z;
  selection_name : string;
  status : WagerStatus;
  wager_id : option Z;
  filled_stake : Q;
  timestamp : option Q
}.

Definition set_status (st : WagerStatus) (w : Wager) : Wager :=
  mkWager (external_id w) (line_id w) (odds w) (stake w) (selection_id w)
          (selection_name w) st (wager_id w) (filled_stake w) (timestamp w).

Record WagerRecord : Type := mkWagerRecord {
  wager : Wager;
  created_at : Q;
  updated_at : Q;
  strategy_name : string;
  market_context : pydict string PyVal
}.

Record TradingConfig : Type := mkTradingConfig {
  dry_run : bool;
  max_stake_per_wager : Q;
  max_total_exposure : Q;
  min_odds : Z;
  max_odds : Z;
  default_stake : Q;
  wager_frequency_seconds : Z;
  max_concurrent_wagers : Z
}.

Record RiskConfig : Type := mkRiskConfig {
  max_daily_loss : Q;
  max_position_size : Q;
  stop_loss_percentage : Q;
  max_drawdown : Q;
  position_limits : gmap string Q
}.

(** The defaults of [config/settings.py]. *)
Definition default_trading_config : TradingConfig :=
  mkTradingConfig true 10 1000 (-200) 200 5 30 50.

Definition default_risk_config : RiskConfig :=
  mkRiskConfig 500 100 (5 # 100) (10 # 100) ∅.

(** The fields of a [WagerManager] object.  The [Wager] held by a record is
    stored by value: the manager only ever writes its [status], and no
    property below reads a status through another reference. *)
Record WagerManager : Type := mkWagerManager {
  trading_config : TradingConfig;
  active_wagers : pydict string WagerRecord;
  wager_history : list WagerRecord;
  pending_placements : gmap string Wager;
  pending_cancellations : gmap string string;
  total_placed : Z;
  total_cancelled : Z;
  total_matched : Z;
  total_settled : Z
}.

(** The fields of a [RiskManager] object; its [wager_manager] reference is the
    platform's one manager (see [Platform]).  A breach entry keeps the value
    and the limit it was recorded with. *)
Record RiskManager : Type := mkRiskManager {
  config : RiskConfig;
  daily_pnl : Q;
  session_start_time : Q;
  risk_breaches : list (Q * Q)
}.

(** Everything the methods below can reach. *)
Record Platform : Type := mkPlatform {
  wager_manager : WagerManager;
  risk_manager : RiskManager;
  log_sink : list LogEntry
}.

(** [WagerManager.__init__] and [RiskManager.__init__]. *)
Definition new_wager_manager (cfg : TradingConfig) : WagerManager :=
  mkWagerManager cfg [] [] ∅ ∅ 0 0 0 0.

Definition new_risk_manager (rcfg : RiskConfig) (now : Q) : RiskManager :=
  mkRiskManager rcfg 0%Q now [].

Definition new_platform (cfg : TradingConfig) (rcfg : RiskConfig) (now : Q)
  : Platform :=
  mkPlatform (new_wager_manager cfg) (new_risk_manager rcfg now)
             [(INFO, "Wager Manager initialized");
              (INFO, "Risk Manager initialized")].

(** Field updates. *)
Definition with_active (a : pydict string WagerRecord) (m : WagerManager) :=
  mkWagerManager (trading_config m) a (wager_history m) (pending_placements m)
    (pending_cancellations m) (total_placed m) (total_cancelled m)
    (total_matched m) (total_settled m).
Definition with_history (h : list WagerRecord) (m : WagerManager) :=
  mkWagerManager (trading_config m) (active_wagers m) h (pending_placements m)
    (pending_cancellations m) (total_placed m) (total_cancelled m)
    (total_matched m) (total_settled m).
Definition with_pending_placements (p : gmap string Wager) (m : WagerManager) :=
  mkWagerManager (trading_config m) (active_wagers m) (wager_history m) p
    (pending_cancellations m) (total_placed m) (total_cancelled m)
    (total_matched m) (total_settled m).
Definition with_pending_cancellations (p : gmap string string)
  (m : WagerManager) :=
  mkWagerManager (trading_config m) (active_wagers m) (wager_history m)
    (pending_placements m) p (total_placed m) (total_cancelled m)
    (total_matched m) (total_settled m).
Definition with_total_placed (n : Z) (m : WagerManager) :=
  mkWagerManager (trading_config m) (active_wagers m) (wager_history m)
    (pending_placements m) (pending_cancellations m) n (total_cancelled m)
    (total_matched m) (total_settled m).
Definition with_total_cancelled (n : Z) (m : WagerManager) :=
  mkWagerManager (trading_config m) (active_wagers m) (wager_history m)
    (pending_placements m) (pending_cancellations m) (total_placed m) n
    (total_matched m) (total_settled m).

(** ** The method monad: state passing over [Platform] *)

Definition M (A : Type) : Type := Platform -> A * Platform.

Definition ret {A} (a : A) : M A := fun p => (a, p).
Definition bind {A B} (m : M A) (f : A -> M B) : M B :=
  fun p => let (a, p') := m p in f a p'.
Definition gets {A} (f : Platform -> A) : M A := fun p => (f p, p).
Definition update_manager (f : WagerManager -> WagerManager) : M unit :=
  fun p => (tt, mkPlatform (f (wager_manager p)) (risk_manager p) (log_sink p)).
Definition log (lvl : LogLevel) (msg : string) : M unit :=
  fun p => (tt, mkPlatform (wager_manager p) (risk_manager p)
                           (log_sink p ++ [(lvl, msg)])).

Notation "x <- m ;; k" := (bind m (fun x => k))
  (at level 100, m at next level, right associativity).
Notation "m ;;; k" := (bind m (fun _ => k))
  (at level 100, right associativity).

(** Running a method for its result, or for its final state. *)
Definition result_of {A} (m : M A) (p : Platform) : A := fst (m p).
Definition state_after {A} (m : M A) (p : Platform) : Platform := snd (m p).

(** ** Read-only queries *)

Definition get_active_wagers (m : WagerManager) : list WagerRecord :=
  dict_values (active_wagers m).

Definition get_total_exposure (m : WagerManager) : Q :=
  py_sum (map (fun record => stake (wager record))
              (dict_values (active_wagers m))).

Definition get_exposure_by_event (m : WagerManager) (event_id : PyVal) : Q :=
  py_sum (map (fun record => stake (wager record))
              (List.filter
                 (fun record =>
                    bool_decide (ctx_get "event_id" (market_context record)
                                 = event_id))
                 (dict_values (active_wagers m)))).

(** ** Local validation and position limits *)

Definition _validate_wager (w : Wager) : M bool :=
  cfg <- gets (fun p => trading_config (wager_manager p)) ;;
  if Qle_bool (stake w) 0 then
    log ERROR "Invalid stake" ;;; ret false
  else if Qltb (max_stake_per_wager cfg) (stake w) then
    log ERROR "Stake exceeds maximum" ;;; ret false
  else if negb ((min_odds cfg <=? odds w) && (odds w <=? max_odds cfg)) then
    log ERROR "Odds outside allowed range" ;;; ret false
  else ret true.

Definition _check_position_limits (w : Wager) : M bool :=
  cfg <- gets (fun p => trading_config (wager_manager p)) ;;
  current_exposure <- gets (fun p => get_total_exposure (wager_manager p)) ;;
  if Qltb (max_total_exposure cfg) (current_exposure + stake w)%Q then
    log WARNING "Total exposure limit exceeded" ;;; ret false
  else
    n <- gets (fun p => Z.of_nat (length (active_wagers (wager_manager p)))) ;;
    if max_concurrent_wagers cfg <=? n then
      log WARNING "Maximum concurrent wagers reached" ;;; ret false
    else ret true.

(** ** The exchange transport, seen from the manager *)

(** The calls the manager makes on [self.api]. *)
Inductive ApiCall : Type :=
| ApiPlaceWager (w : Wager)
| ApiCancelWager (external_id : string)
| ApiCancelAllWagers.

(** What an [await] on the transport yields: a value, or an [Exception]
    raised into the awaiting method (task cancellation is not modelled). *)
Inductive ApiReply (A : Type) : Type :=
| Reply (a : A)
| Raises.
Arguments Reply {A} a.
Arguments Raises {A}.

(** A method that has run up to its [await]: it has either returned already,
    or is suspended on a transport call. *)
Inductive Suspended (A : Type) : Type :=
| Returned (a : A)
| Awaiting (call : ApiCall).
Arguments Returned {A} a.
Arguments Awaiting {A} call.

(** [if wager_id:] on an [Optional[int]]. *)
Definition id_truthy (wager_id : option Z) : bool :=
  match wager_id with
  | Some z => negb (z =? 0)
  | None => false
  end.

(** ** [place_wager] *)

Definition place_wager_begin (w : Wager) : M (Suspended (option Z)) :=
  valid <- _validate_wager w ;;
  if negb valid then
    log ERROR "Wager validation failed" ;;; ret (Returned None)
  else
    within <- _check_position_limits w ;;
    if negb within then
      log WARNING "Position limits exceeded for wager" ;;; ret (Returned None)
    else
      update_manager (fun m =>
        with_pending_placements
          (<[external_id w := w]> (pending_placements m)) m) ;;;
      ret (Awaiting (ApiPlaceWager w)).

(** [t_created], [t_updated]: the two [time.time()] readings. *)
Definition place_wager_resume (w : Wager) (strategy : string)
    (context : option (pydict string PyVal)) (t_created t_updated : Q)
    (reply : ApiReply (option Z)) : M (option Z) :=
  match reply with
  | Reply wager_id =>
      (if id_truthy wager_id then
         let wager_record :=
           mkWagerRecord w t_created t_updated strategy (default [] context) in
         update_manager (fun m =>
           with_active (dict_set (external_id w) wager_record (active_wagers m)) m) ;;;
         update_manager (fun m => with_total_placed (total_placed m + 1) m) ;;;
         log INFO "Placed wager"
       else ret tt) ;;;
      update_manager (fun m =>
        with_pending_placements
          (delete (external_id w) (pending_placements m)) m) ;;;
      ret wager_id
  | Raises =>
      log ERROR "Error placing wager" ;;;
      update_manager (fun m =>
        with_pending_placements
          (delete (external_id w) (pending_placements m)) m) ;;;
      ret None
  end.

(** A call that runs to completion with nothing interleaved: its result and
    the transport calls it made. *)
Definition place_wager (w : Wager) (strategy : string)
    (context : option (pydict string PyVal)) (t_created t_updated : Q)
    (reply : ApiReply (option Z)) : M (option Z * list ApiCall) :=
  s <- place_wager_begin w ;;
  match s with
  | Returned r => ret (r, [])
  | Awaiting call =>
      r <- place_wager_resume w strategy context t_created t_updated reply ;;
      ret (r, [call])
  end.

(** ** [cancel_wager] *)

Definition cancel_wager_begin (id reason : string) : M (Suspended bool) :=
  active <- gets (fun p => active_wagers (wager_manager p)) ;;
  if negb (dict_mem id active) then
    log WARNING "Cannot cancel wager - not found in active wagers" ;;;
    ret (Returned false)
  else
    update_manager (fun m =>
      with_pending_cancellations
        (<[id := reason]> (pending_cancellations m)) m) ;;;
    ret (Awaiting (ApiCancelWager id)).

Definition cancelled_at (now : Q) (r : WagerRecord) : WagerRecord :=
  mkWagerRecord (set_status CANCELLED (wager r)) (created_at r) now
                (strategy_name r) (market_context r).

Definition cancel_wager_resume (id reason : string) (now : Q)
    (reply : ApiReply bool) : M bool :=
  let on_exception :=
    log ERROR "Error cancelling wager" ;;;
    update_manager (fun m =>
      with_pending_cancellations (delete id (pending_cancellations m)) m) ;;;
    ret false in
  match reply with
  | Reply success =>
      active <- gets (fun p => active_wagers (wager_manager p)) ;;
      if success then
        match dict_get id active with
        | None => on_exception    (* [pop] raises [KeyError] *)
        | Some wager_record =>
            update_manager (fun m =>
              with_active (dict_pop id (active_wagers m)) m) ;;;
            update_manager (fun m =>
              with_history (wager_history m ++ [cancelled_at now wager_record]) m) ;;;
            update_manager (fun m =>
              with_total_cancelled (total_cancelled m + 1) m) ;;;
            log INFO "Cancelled wager" ;;;
            update_manager (fun m =>
              with_pending_cancellations
                (delete id (pending_cancellations m)) m) ;;;
            ret true
        end
      else
        update_manager (fun m =>
          with_pending_cancellations
            (delete id (pending_cancellations m)) m) ;;;
        ret false
  | Raises => on_exception
  end.

Definition cancel_wager (id reason : string) (now : Q) (reply : ApiReply bool)
  : M (bool * list ApiCall) :=
  s <- cancel_wager_begin id reason ;;
  match s with
  | Returned r => ret (r, [])
  | Awaiting call =>
      r <- cancel_wager_resume id reason now reply ;; ret (r, [call])
  end.

(** ** [cancel_all_wagers] *)

Definition cancel_all_wagers_begin (reason : string) : M (Suspended bool) :=
  log INFO "Cancelling all active wagers" ;;;
  ret (Awaiting ApiCancelAllWagers).

Definition cancel_all_wagers_resume (reason : string) (now : Q)
    (reply : ApiReply bool) : M bool :=
  match reply with
  | Reply success =>
      (if success then
         update_manager (fun m =>
           with_history
             (wager_history m ++
                map (cancelled_at now) (dict_values (active_wagers m))) m) ;;;
         update_manager (fun m =>
           with_total_cancelled
             (total_cancelled m + Z.of_nat (length (active_wagers m))) m) ;;;
         update_manager (with_active []) ;;;
         log INFO "Successfully cancelled all wagers"
       else ret tt) ;;;
      ret success
  | Raises => log ERROR "Error cancelling all wagers" ;;; ret false
  end.

Definition cancel_all_wagers (reason : string) (now : Q)
    (reply : ApiReply bool) : M (bool * list ApiCall) :=
  s <- cancel_all_wagers_begin reason ;;
  match s with
  | Returned r => ret (r, [])
  | Awaiting call =>
      r <- cancel_all_wagers_resume reason now reply ;; ret (r, [call])
  end.

(** ** [RiskManager.check_wager_risk] ([risk/risk_manager.py]) *)

(** [if market_context:] on an optional dictionary. *)
Definition context_truthy (context : option (pydict string PyVal)) : bool :=
  match context with
  | Some (_ :: _) => true
  | _ => false
  end.

Definition check_wager_risk (w : Wager)
    (context : option (pydict string PyVal)) : M bool :=
  cfg <- gets (fun p => config (risk_manager p)) ;;
  if Qltb (max_position_size cfg) (stake w) then
    log WARNING "Wager stake exceeds max position size" ;;; ret false
  else
    current_exposure <- gets (fun p => get_total_exposure (wager_manager p)) ;;
    if Qltb (max_position_size cfg * 10)%Q (current_exposure + stake w)%Q then
      log WARNING "Total exposure would exceed limits" ;;; ret false
    else
      pnl <- gets (fun p => daily_pnl (risk_manager p)) ;;
      if Qltb pnl (- max_daily_loss cfg)%Q then
        log WARNING "Daily loss limit exceeded" ;;; ret false
      else if context_truthy context then
        let event_id := ctx_get "event_id" (default [] context) in
        if truthy event_id then
          event_exposure <-
            gets (fun p => get_exposure_by_event (wager_manager p) event_id) ;;
          let event_limit :=
            default (max_position_size cfg)
                    (position_limits cfg !! py_str event_id) in
          if Qltb event_limit (event_exposure + stake w)%Q then
            log WARNING "Event exposure limit exceeded" ;;; ret false
          else ret true
        else ret true
      else ret true.

(** The placement step of [SimpleMarketMaker._place_random_wagers]
    ([strategies/simple_market_maker.py]), up to the [await] on the
    transport: [if self.risk_manager.check_wager_risk(wager, market_context):
    await self.wager_manager.place_wager(...)]. *)
Definition risk_checked_place_begin (w : Wager)
    (context : option (pydict string PyVal)) : M (Suspended (option Z)) :=
  passed <- check_wager_risk w context ;;
  if passed then place_wager_begin w else ret (Returned None).

(** The two methods that do write to the risk manager. *)
Definition update_risk (f : RiskManager -> RiskManager) : M unit :=
  fun p => (tt, mkPlatform (wager_manager p) (f (risk_manager p)) (log_sink p)).

Definition update_pnl (pnl_change now : Q) : M unit :=
  update_risk (fun r =>
    mkRiskManager (config r) (daily_pnl r + pnl_change)%Q
                  (session_start_time r) (risk_breaches r)) ;;;
  r <- gets risk_manager ;;
  if Qltb (max_daily_loss (config r)) (Qabs (daily_pnl r)) then
    update_risk (fun r =>
      mkRiskManager (config r) (daily_pnl r) (session_start_time r)
        (risk_breaches r ++ [(daily_pnl r, max_daily_loss (config r))])) ;;;
    log ERROR "Daily loss limit breached"
  else ret tt.

Definition reset_daily_stats : M unit :=
  update_risk (fun r =>
    mkRiskManager (config r) 0%Q (session_start_time r) []) ;;;
  log INFO "Daily risk statistics reset".

(** Calling a check [n] times in a row. *)
Fixpoint repeat_check (n : nat) (check : M bool) : M unit :=
  match n with
  | O => ret tt
  | S n' => check ;;; repeat_check n' check
  end.

(** ** The event loop: interleaving of calls *)

(** A call on the manager, with its arguments. *)
Inductive Task : Type :=
| TPlace (w : Wager) (strategy : string)
         (context : option (pydict string PyVal))
| TCancel (id reason : string)
| TCancelAll (reason : string).

(** One scheduling step: a caller starts a method, which runs up to its
    [await]; or the transport answers the [i]-th suspended call, which then
    runs to its end.  Clock readings come with the answer. *)
Inductive Action : Type :=
| Start (t : Task)
| AnswerPlace (i : nat) (reply : ApiReply (option Z)) (t_created t_updated : Q)
| AnswerCancel (i : nat) (reply : ApiReply bool) (now : Q).

Record World : Type := mkWorld {
  platform : Platform;
  in_flight : list Task;
  transport_log : list ApiCall
}.

Definition new_world (cfg : TradingConfig) (rcfg : RiskConfig) (now : Q)
  : World :=
  mkWorld (new_platform cfg rcfg now) [] [].

(** The transport call a started task is suspended on, if it did not return. *)
Definition awaited {A} (s : Suspended A) : option ApiCall :=
  match s with
  | Returned _ => None
  | Awaiting call => Some call
  end.

Definition begin_task (t : Task) : M (option ApiCall) :=
  match t with
  | TPlace w _ _ => s <- place_wager_begin w ;; ret (awaited s)
  | TCancel id reason => s <- cancel_wager_begin id reason ;; ret (awaited s)
  | TCancelAll reason => s <- cancel_all_wagers_begin reason ;; ret (awaited s)
  end.

Definition step (W : World) (a : Action) : World :=
  match a with
  | Start t =>
      let (suspended, p') := begin_task t (platform W) in
      match suspended with
      | Some call =>
          mkWorld p' (in_flight W ++ [t]) (transport_log W ++ [call])
      | None => mkWorld p' (in_flight W) (transport_log W)
      end
  | AnswerPlace i reply t_created t_updated =>
      match in_flight W !! i with
      | Some (TPlace w strategy context) =>
          mkWorld
            (state_after
               (place_wager_resume w strategy context t_created t_updated reply)
               (platform W))
            (delete i (in_flight W)) (transport_log W)
      | _ => W
      end
  | AnswerCancel i reply now =>
      match in_flight W !! i with
      | Some (TCancel id reason) =>
          mkWorld (state_after (cancel_wager_resume id reason now reply)
                               (platform W))
                  (delete i (in_flight W)) (transport_log W)
      | Some (TCancelAll reason) =>
          mkWorld (state_after (cancel_all_wagers_resume reason now reply)
                               (platform W))
                  (delete i (in_flight W)) (transport_log W)
      | _ => W
      end
  end.

Definition run (actions : list Action) (W : World) : World :=
  fold_left step actions W.

(** ** Predicates used to state the properties *)

(** The active set of the platform's manager. *)
Definition active_of (p : Platform) : pydict string WagerRecord :=
  active_wagers (wager_manager p).

(** The active set holds no id twice. *)
Definition well_keyed (W : World) : Prop :=
  NoDup (dict_keys (active_of (platform W))).

(** The outcome of the two local checks, in a given state. *)
Definition valid_ok (w : Wager) (p : Platform) : bool :=
  result_of (_validate_wager w) p.
Definition within_limits (w : Wager) (p : Platform) : bool :=
  result_of (_check_position_limits w) p.

(** Why a placement fails: local validation, the position limits, or a
    transport call that returns no id or raises. *)
Definition placement_fails (w : Wager) (reply : ApiReply (option Z))
    (p : Platform) : Prop :=
  valid_ok w p = false \/ within_limits w p = false \/
  reply = Reply None \/ reply = Raises.

(** An id is pending only while a placement of that id waits for the
    transport. *)
Definition pending_in_flight (W : World) : Prop :=
  forall id,
    is_Some (pending_placements (wager_manager (platform W)) !! id) ->
    exists w strategy context,
      TPlace w strategy context ∈ in_flight W /\ external_id w = id.

(** A check left both managers as they were. *)
Definition managers_kept (p q : Platform) : Prop :=
  wager_manager q = wager_manager p /\ risk_manager q = risk_manager p.

(** The exposure recomputed from scratch: enumerate the ids of the active
    set, look each record up, and add the stakes. *)
Definition exposure_by_enumeration (m : WagerManager) : Q :=
  py_sum (omap (fun id => (fun record => stake (wager record))
                            <$> dict_get id (active_wagers m))
               (dict_keys (active_wagers m))).

(** Number of placement calls the transport has received for one id. *)
Definition placements_for (id : string) (calls : list ApiCall) : nat :=
  length (List.filter
            (fun c => match c with
                      | ApiPlaceWager w => bool_decide (external_id w = id)
                      | _ => false
                      end) calls).

(** ** Further queries and maintenance of the wager manager *)

Definition get_wagers_by_strategy (m : WagerManager) (name : string)
  : list WagerRecord :=
  List.filter (fun record => bool_decide (strategy_name record = name))
              (dict_values (active_wagers m)).

Definition get_wager_by_id (m : WagerManager) (id : string)
  : option WagerRecord :=
  dict_get id (active_wagers m).

(** The dictionary [get_statistics] returns. *)
Record Statistics : Type := mkStatistics {
  stat_active_wagers : Z;
  stat_total_placed : Z;
  stat_total_cancelled : Z;
  stat_total_matched : Z;
  stat_total_settled : Z;
  stat_total_exposure : Q;
  stat_pending_placements : Z;
  stat_pending_cancellations : Z;
  stat_history_count : Z
}.

Definition get_statistics (m : WagerManager) : Statistics :=
  mkStatistics
    (Z.of_nat (length (active_wagers m)))
    (total_placed m) (total_cancelled m) (total_matched m) (total_settled m)
    (get_total_exposure m)
    (Z.of_nat (size (pending_placements m)))
    (Z.of_nat (size (pending_cancellations m)))
    (Z.of_nat (length (wager_history m))).

(** [now]: the [time.time()] reading. *)
Definition cleanup_old_records (max_age_days : Z) (now : Q) : M unit :=
  let cutoff_time := (now - inject_Z (max_age_days * 24 * 3600))%Q in
  original_count <-
    gets (fun p => Z.of_nat (length (wager_history (wager_manager p)))) ;;
  update_manager (fun m =>
    with_history
      (List.filter (fun record => Qltb cutoff_time (updated_at record))
                   (wager_history m)) m) ;;;
  new_count <-
    gets (fun p => Z.of_nat (length (wager_history (wager_manager p)))) ;;
  if 0 <? original_count - new_count then
    log INFO "Cleaned up old wager records"
  else ret tt.

(** The result of [health_check]. *)
Inductive HealthStatus : Type := Healthy | HealthWarning | HealthError.

Inductive HealthIssue : Type :=
| StuckPendingPlacements (n : nat)
| HighExposure (total_exposure : Q)
| HighWagerCount (n : nat).

Record Health : Type := mkHealth {
  health_status : HealthStatus;
  health_issues : list HealthIssue;
  health_statistics : Statistics
}.

(** [wager.timestamp or 0]. *)
Definition timestamp_or_0 (w : Wager) : Q := default 0%Q (timestamp w).

Definition health_check (now : Q) : M Health :=
  m <- gets wager_manager ;;
  let statistics := get_statistics m in
  let old_placements :=
    List.filter (fun entry => Qltb 30 (now - timestamp_or_0 (snd entry))%Q)
                (map_to_list (pending_placements m)) in
  let h1 :=
    match old_placements with
    | [] => (Healthy, [])
    | _ :: _ => (HealthWarning, [StuckPendingPlacements (length old_placements)])
    end in
  let total_exposure := get_total_exposure m in
  let h2 :=
    if Qltb (max_total_exposure (trading_config m) * (9 # 10))%Q total_exposure
    then (HealthWarning, snd h1 ++ [HighExposure total_exposure])
    else h1 in
  let h3 :=
    if Qltb (inject_Z (max_concurrent_wagers (trading_config m)) * (9 # 10))%Q
            (inject_Z (Z.of_nat (length (active_wagers m))))
    then (HealthWarning, snd h2 ++ [HighWagerCount (length (active_wagers m))])
    else h2 in
  ret (mkHealth (fst h3) (snd h3) statistics).

(** ** Calls made one at a time *)

(** A call on the manager that is awaited before the next one starts, with
    the transport's answer and the clock readings it meets. *)
Inductive Call : Type :=
| CallPlace (w : Wager) (strategy : string)
            (context : option (pydict string PyVal)) (t_created t_updated : Q)
            (reply : ApiReply (option Z))
| CallCancel (id reason : string) (now : Q) (reply : ApiReply bool)
| CallCancelAll (reason : string) (now : Q) (reply : ApiReply bool).

(** The transport calls the call makes. *)
Definition do_call (c : Call) : M (list ApiCall) :=
  match c with
  | CallPlace w strategy context t_created t_updated reply =>
      r <- place_wager w strategy context t_created t_updated reply ;;
      ret (snd r)
  | CallCancel id reason now reply =>
      r <- cancel_wager id reason now reply ;; ret (snd r)
  | CallCancelAll reason now reply =>
      r <- cancel_all_wagers reason now reply ;; ret (snd r)
  end.

Definition run_calls (calls : list Call) (p : Platform) : Platform :=
  fold_left (fun p c => state_after (do_call c) p) calls p.

(** The stakes of the active records, in enumeration order. *)
Definition active_stakes (m : WagerManager) : list Q :=
  map (fun record => stake (wager record)) (dict_values (active_wagers m)).

(** The bookkeeping of cancellations and placements adds up: the history
    holds one record per counted cancellation, each marked [CANCELLED], and
    the active records plus the cancelled ones never outnumber the
    placements. *)
Definition counters_consistent (m : WagerManager) : Prop :=
  Z.of_nat (length (wager_history m)) = total_cancelled m /\
  Forall (fun record => status (wager record) = CANCELLED) (wager_history m) /\
  Z.of_nat (length (active_wagers m)) + total_cancelled m <= total_placed m.

(** What holds between two calls when calls are made one at a time: every
    active wager passed the local validation, the exposure and the number of
    active wagers are within the configured limits, and nothing is pending. *)
Definition validated_for (cfg : TradingConfig) (w : Wager) : Prop :=
  (0 < stake w)%Q /\ (stake w <= max_stake_per_wager cfg)%Q /\
  min_odds cfg <= odds w <= max_odds cfg.

Definition within_configured_limits (cfg : TradingConfig) (m : WagerManager)
  : Prop :=
  trading_config m = cfg /\
  Forall (fun record => validated_for cfg (wager record))
         (get_active_wagers m) /\
  (get_total_exposure m <= max_total_exposure cfg)%Q /\
  Z.of_nat (length (active_wagers m)) <= max_concurrent_wagers cfg /\
  pending_placements m = ∅ /\
  pending_cancellations m = ∅.

(** What holds in every state of the event loop: the configuration is the
    one the manager was built with, and every wager that is active or waits
    for the transport's answer passed the local validation. *)
Definition validated_task (cfg : TradingConfig) (t : Task) : Prop :=
  match t with
  | TPlace w _ _ => validated_for cfg w
  | _ => True
  end.

Definition validated_world (cfg : TradingConfig) (W : World) : Prop :=
  trading_config (wager_manager (platform W)) = cfg /\
  Forall (fun record => validated_for cfg (wager record))
         (get_active_wagers (wager_manager (platform W))) /\
  Forall (validated_task cfg) (in_flight W).

(** ** Profit-and-loss updates in sequence *)

(** [update_pnl] called once per change, in order; each change comes with
    the clock reading it meets. *)
Definition apply_pnl (changes : list (Q * Q)) (p : Platform) : Platform :=
  fold_left (fun p c => state_after (update_pnl (fst c) (snd c)) p) changes p.

(** The value of [daily_pnl] after each change. *)
Fixpoint running_totals (start : Q) (changes : list Q) : list Q :=
  match changes with
  | [] => []
  | c :: cs => (start + c)%Q :: running_totals (start + c)%Q cs
  end.

(** The running totals that [update_pnl] records as breaches. *)
Definition breaching (limit : Q) (totals : list Q) : list (Q * Q) :=
  map (fun total => (total, limit))
      (List.filter (fun total => Qltb limit (Qabs total)) totals).

(** ** The dry-run flag *)

(** The same platform with [settings.trading.dry_run] set to [b]. *)
Definition set_dry_run (b : bool) (p : Platform) : Platform :=
  let m := wager_manager p in
  let cfg := trading_config m in
  mkPlatform
    (mkWagerManager
       (mkTradingConfig b (max_stake_per_wager cfg) (max_total_exposure cfg)
          (min_odds cfg) (max_odds cfg) (default_stake cfg)
          (wager_frequency_seconds cfg) (max_concurrent_wagers cfg))
       (active_wagers m) (wager_history m) (pending_placements m)
       (pending_cancellations m) (total_placed m) (total_cancelled m)
       (total_matched m) (total_settled m))
    (risk_manager p) (log_sink p).

(** The transport calls made by calls that are awaited one after another. *)
Fixpoint transport_calls (calls : list Call) (p : Platform) : list ApiCall :=
  match calls with
  | [] => []
  | c :: cs =>
      let (made, p') := do_call c p in made ++ transport_calls cs p'
  end.

(** ** [SimpleMarketMaker.rebalance_positions]
       ([strategies/simple_market_maker.py])

    [pick population k] is what [random.sample(population, k)] returns;
    [answer i] is the transport's answer to the [i]-th cancellation, with
    the clock reading it meets.  Each cancellation is awaited before the
    next one starts. *)

Fixpoint cancel_each (to_cancel : list WagerRecord)
    (answer : nat -> ApiReply bool * Q) (i : nat) : M unit :=
  match to_cancel with
  | [] => ret tt
  | record :: rest =>
      cancel_wager (external_id (wager record)) "position_rebalance"
                   (snd (answer i)) (fst (answer i)) ;;;
      cancel_each rest answer (S i)
  end.

Definition rebalance_positions
    (pick : list WagerRecord -> nat -> list WagerRecord)
    (is_active : bool) (max_position : Z)
    (answer : nat -> ApiReply bool * Q) : M unit :=
  if negb is_active then ret tt
  else
    active <- gets (fun p =>
                get_wagers_by_strategy (wager_manager p)
                                       "simple_market_maker") ;;
    if max_position <? Z.of_nat (length active) then
      if max_position <? 0 then
        (* [random.sample] raises [ValueError]: more than the population *)
        log ERROR "Error in position rebalancing"
      else
        let wagers_to_cancel :=
          pick active (Z.to_nat (Z.of_nat (length active) - max_position)) in
        cancel_each wagers_to_cancel answer 0 ;;;
        log INFO "Cancelled wagers for position rebalancing"
    else ret tt.

(** Every active record is stored under the external id of its wager, and
    no id is stored twice. *)
Definition keyed_by_id (m : WagerManager) : Prop :=
  NoDup (dict_keys (active_wagers m)) /\
  Forall (fun entry => external_id (wager (snd entry)) = fst entry)
         (active_wagers m).

End WagerMgr.

(** * Sorting, as [list.sort] does it *)

(** [list.sort] is stable: the result is the one ordered permutation that
    keeps equal elements in their original order.  [le x y] says that [x] may
    stand before [y]. *)
Fixpoint insert_by {A : Type} (le : A -> A -> bool) (x : A) (l : list A)
  : list A :=
  match l with
  | [] => [x]
  | y :: l' => if le x y then x :: y :: l' else y :: insert_by le x l'
  end.

Definition py_sorted {A : Type} (le : A -> A -> bool) (l : list A) : list A :=
  foldr (insert_by le) [] l.

(** [l.sort(key=f)], where computing a key may raise: [None] stands for the
    exception, which leaves the list as it was. *)
Definition py_sort_by_key {A K : Type} (key : A -> option K)
    (le : K -> K -> bool) (l : list A) : option (list A) :=
  if forallb (fun x => bool_decide (is_Some (key x))) l then
    Some (py_sorted
            (fun x y =>
               match key x, key y with
               | Some kx, Some ky => le kx ky
               | _, _ => true
               end) l)
  else None.

(** [l.sort(key=f, reverse=True)]: descending, still stable. *)
Definition py_sort_by_key_reverse {A K : Type} (key : A -> K)
    (le : K -> K -> bool) (l : list A) : list A :=
  py_sorted (fun x y => le (key y) (key x)) l.

(** A [float] sort key: a finite number or [float('inf')]. *)
Inductive FloatKey : Type :=
| KNum (q : Q)
| KInf.

Definition key_le (a b : FloatKey) : bool :=
  match a, b with
  | KNum x, KNum y => Qle_bool x y
  | KNum _, KInf => true
  | KInf, KNum _ => false
  | KInf, KInf => true
  end.

(** ** Decimal literals

    The plain decimal literals among the strings [float()] accepts: an
    optional sign, digits, at most one point, at least one digit.  It stands
    for [float()] in the concrete examples. *)

Definition digit_of (c : ascii) : option Z :=
  let n := Z.of_nat (nat_of_ascii c) in
  if (48 <=? n) && (n <=? 57) then Some (n - 48) else None.

Fixpoint scan_decimal (s : string) (seen_point : bool) (num : Z)
    (scale : positive) (digits : nat) : option Q :=
  match s with
  | EmptyString =>
      match digits with
      | O => None
      | S _ => Some (num # scale)%Q
      end
  | String c s' =>
      if Ascii.eqb c "."%char then
        if seen_point then None else scan_decimal s' true num scale digits
      else
        match digit_of c with
        | Some d =>
            scan_decimal s' seen_point (10 * num + d)
              (if seen_point then (10 * scale)%positive else scale) (S digits)
        | None => None
        end
  end.

Definition decimal_float (s : string) : option Q :=
  match s with
  | String c s' =>
      if Ascii.eqb c "-"%char then Qopp <$> scan_decimal s' false 0 1 0
      else if Ascii.eqb c "+"%char then scan_decimal s' false 0 1 0
      else scan_decimal s false 0 1 0
  | EmptyString => None
  end.

(** * Order books ([data/market_data_manager.py]) *)

Module MarketData.

Record SelectionLevel : Type := mkSelectionLevel {
  selection_id : Z;
  selection_name : string;
  odds : option Z;
  size : Q;
  timestamp : Q
}.

Record OrderBook : Type := mkOrderBook {
  event_id : Z;
  market_id : string;
  market_type : string;
  event_name : string;
  selections : pydict Z SelectionLevel;
  line_groups : pydict string (pydict string (list SelectionLevel));
  available_lines : list string;
  last_update : Q;
  best_selection : option SelectionLevel;
  spread : Q;
  total_volume : Q
}.

Definition with_selections (s : pydict Z SelectionLevel) (ob : OrderBook) :=
  mkOrderBook (event_id ob) (market_id ob) (market_type ob) (event_name ob)
    s (line_groups ob) (available_lines ob) (last_update ob)
    (best_selection ob) (spread ob) (total_volume ob).
Definition with_line_groups
    (g : pydict string (pydict string (list SelectionLevel))) (ob : OrderBook) :=
  mkOrderBook (event_id ob) (market_id ob) (market_type ob) (event_name ob)
    (selections ob) g (available_lines ob) (last_update ob)
    (best_selection ob) (spread ob) (total_volume ob).
Definition with_available_lines (l : list string) (ob : OrderBook) :=
  mkOrderBook (event_id ob) (market_id ob) (market_type ob) (event_name ob)
    (selections ob) (line_groups ob) l (last_update ob)
    (best_selection ob) (spread ob) (total_volume ob).
Definition with_last_update (t : Q) (ob : OrderBook) :=
  mkOrderBook (event_id ob) (market_id ob) (market_type ob) (event_name ob)
    (selections ob) (line_groups ob) (available_lines ob) t
    (best_selection ob) (spread ob) (total_volume ob).

(** ** The payload of an update

    A selection entry, read the way the code reads it:
    [get('name', '')], [get('odds')], [get('value', 0)], [get('line_id', '')],
    [get('outcome_id', 0)]. *)
Record Selection : Type := mkSelection {
  name : string;
  sel_odds : option Z;
  value : Q;
  sel_line_id : string;
  outcome_id : Z
}.

(** An element of a [selections] list: a list of entries or one entry. *)
Inductive SelectionGroup : Type :=
| Several (entries : list Selection)
| Single (entry : Selection).

(** A market line: [str(line.get('line', 'N/A'))] and
    [line.get('selections', [])]. *)
Record MarketLine : Type := mkMarketLine {
  line_value : string;
  line_selections : list SelectionGroup
}.

(** A market: each key may be absent. *)
Record Market : Type := mkMarket {
  market_selections : option (list SelectionGroup);
  market_lines : option (list MarketLine)
}.

(** [all_selections.extend(group)] or [.append(group)], over the list. *)
Definition flatten_groups (groups : list SelectionGroup) : list Selection :=
  concat (map (fun g => match g with
                        | Several entries => entries
                        | Single entry => [entry]
                        end) groups).

(** ** The American-odds comparator *)

Definition _is_better_odds (new_odds current_odds : option Z) : bool :=
  match new_odds, current_odds with
  | None, None => false
  | None, Some _ => false
  | Some _, None => true
  | Some n, Some c =>
      if (0 <? n) && (0 <? c) then c <? n
      else if (n <? 0) && (c <? 0) then Z.abs n <? Z.abs c
      else if (0 <? n) && (c <? 0) then true
      else if (n <? 0) && (0 <? c) then false
      else false
  end.

(** [0.0 if odds is None else (value if value > 0 else 1.0)]. *)
Definition display_value (o : option Z) (v : Q) : Q :=
  match o with
  | None => 0%Q
  | Some _ => if Qltb 0 v then v else 1%Q
  end.

(** [max(a, b)]: the first of two equal arguments wins. *)
Definition py_max (a b : Q) : Q := if Qltb a b then b else a.

(** An entry of [best_selections]. *)
Record BestSelection : Type := mkBestSelection {
  best_name : string;
  best_odds : option Z;
  best_value : Q;
  best_original_value : Q;
  best_line_id : string;
  best_outcome_id : Z
}.

(** An entry of a [selections_by_name] list. *)
Record LevelData : Type := mkLevelData {
  level_name : string;
  level_odds : option Z;
  level_value : Q;
  level_original_value : Q;
  level_line_id : string;
  level_outcome_id : Z;
  level_unique_id : Z;
  level_line_value : string
}.

Section algorithms.

(** Python's built-in [hash] on strings (salted per process), the formatting
    of a [value] inside an f-string, and [float()] on a line value: [None]
    when it raises [ValueError], a finite number otherwise (line values that
    [float()] turns into an infinity or a NaN are not covered). *)
Variable py_hash : string -> Z.
Variable str_of_value : Q -> string.
Variable float_of_str : string -> option Q.

(** ** The flat-selection algorithm *)

(** One round of the loop over [all_selections]. *)
Definition best_step (best_selections : pydict string BestSelection)
    (selection : Selection) : pydict string BestSelection :=
  if negb (String.eqb (name selection) "") then
    let display := display_value (sel_odds selection) (value selection) in
    match dict_get (name selection) best_selections with
    | None =>
        dict_set (name selection)
          (mkBestSelection (name selection) (sel_odds selection) display
             (value selection) (sel_line_id selection)
             (if outcome_id selection =? 0
              then py_hash (name selection) mod 10000
              else outcome_id selection))
          best_selections
    | Some current =>
        if _is_better_odds (sel_odds selection) (best_odds current) then
          let new_display :=
            display_value (sel_odds selection) (value selection) in
          dict_set (name selection)
            (mkBestSelection (best_name current) (sel_odds selection)
               (py_max new_display (best_value current))
               (best_original_value current) (sel_line_id selection)
               (if outcome_id selection =? 0
                then best_outcome_id current
                else outcome_id selection))
            best_selections
        else best_selections
    end
  else best_selections.

Definition level_of_best (now : Q) (entry : string * BestSelection)
  : SelectionLevel :=
  mkSelectionLevel (best_outcome_id (snd entry)) (fst entry)
                   (best_odds (snd entry)) (best_value (snd entry)) now.

(** [now]: the clock reading stamped on the levels of this update. *)
Definition _process_direct_selections (order_book : OrderBook)
    (selections_in : list SelectionGroup) (now : Q) : OrderBook :=
  let all_selections := flatten_groups selections_in in
  let best_selections := fold_left best_step all_selections [] in
  fold_left
    (fun ob entry =>
       let selection_level := level_of_best now entry in
       with_selections
         (dict_set (selection_id selection_level) selection_level
                   (selections ob)) ob)
    best_selections order_book.

(** ** The line-grouped algorithm *)

Definition odds_str (o : option Z) : string :=
  match o with
  | None => "None"
  | Some z => pretty z
  end.

(** [hash(f"{outcome_id}_{line_value}_{odds}_{value}"[:20]) % 100000]. *)
Definition unique_selection_id (selection : Selection) (line : string) : Z :=
  py_hash
    (substring 0 20
       (pretty (outcome_id selection) +:+ "_" +:+ line +:+ "_" +:+
        odds_str (sel_odds selection) +:+ "_" +:+
        str_of_value (value selection)))
  mod 100000.

Definition level_data_of (line : string) (selection : Selection) : LevelData :=
  mkLevelData (name selection) (sel_odds selection)
    (display_value (sel_odds selection) (value selection))
    (value selection) (sel_line_id selection) (outcome_id selection)
    (unique_selection_id selection line) line.

(** One round of the loop that fills [selections_by_name]. *)
Definition group_step (line : string)
    (selections_by_name : pydict string (list LevelData))
    (selection : Selection) : pydict string (list LevelData) :=
  if negb (String.eqb (name selection) "") then
    dict_set (name selection)
      (default [] (dict_get (name selection) selections_by_name)
         ++ [level_data_of line selection])
      selections_by_name
  else selections_by_name.

(** The sort key [x['odds'] if x['odds'] is not None else float('inf')]. *)
Definition odds_key (ld : LevelData) : FloatKey :=
  match level_odds ld with
  | Some z => KNum (inject_Z z)
  | None => KInf
  end.

(** The levels of one name are sorted only when the first of them is priced. *)
Definition sort_levels (selection_levels : list LevelData) : list LevelData :=
  match selection_levels with
  | first :: _ =>
      match level_odds first with
      | Some _ => py_sort_by_key_reverse odds_key key_le selection_levels
      | None => selection_levels
      end
  | [] => selection_levels
  end.

Definition level_of_data (now : Q) (name : string) (ld : LevelData)
  : SelectionLevel :=
  mkSelectionLevel (level_unique_id ld) name (level_odds ld) (level_value ld)
                   now.

(** [line_groups[line][name].append(level)] and
    [selections[level.selection_id] = level]. *)
Definition append_level (line name : string) (level : SelectionLevel)
    (ob : OrderBook) : OrderBook :=
  let group := default [] (dict_get line (line_groups ob)) in
  let levels := default [] (dict_get name group) in
  with_selections
    (dict_set (selection_id level) level (selections ob))
    (with_line_groups
       (dict_set line (dict_set name (levels ++ [level]) group)
                 (line_groups ob)) ob).

(** One round of the loop over [selections_by_name.items()]. *)
Definition store_name (line : string) (now : Q) (ob : OrderBook)
    (entry : string * list LevelData) : OrderBook :=
  let name := fst entry in
  let selection_levels := sort_levels (snd entry) in
  let group := default [] (dict_get line (line_groups ob)) in
  let ob1 :=
    if dict_mem name group then ob
    else with_line_groups
           (dict_set line (dict_set name [] group) (line_groups ob)) ob in
  fold_left
    (fun ob' ld => append_level line name (level_of_data now name ld) ob')
    selection_levels ob1.

(** One round of the loop over [market_lines]. *)
Definition process_line (now : Q) (ob : OrderBook) (line : MarketLine)
  : OrderBook :=
  let lv := line_value line in
  let ob1 :=
    if dict_mem lv (line_groups ob) then ob
    else with_available_lines (available_lines ob ++ [lv])
           (with_line_groups (dict_set lv [] (line_groups ob)) ob) in
  let line_selections_flat := flatten_groups (line_selections line) in
  let selections_by_name := fold_left (group_step lv) line_selections_flat [] in
  fold_left (store_name lv now) selections_by_name ob1.

(** The key [float(x) if x != 'N/A' else float('inf')]. *)
Definition line_key (x : string) : option FloatKey :=
  if String.eqb x "N/A" then Some KInf else KNum <$> float_of_str x.

(** The numeric sort, and the alphabetical one when a key raises. *)
Definition sort_available_lines (lines : list string) : list string :=
  match py_sort_by_key line_key key_le lines with
  | Some sorted => sorted
  | None => py_sorted String.leb lines
  end.

Definition _process_market_lines (order_book : OrderBook)
    (lines : list MarketLine) (now : Q) : OrderBook :=
  match lines with
  | [] => order_book
  | _ :: _ =>
      let ob0 := with_available_lines [] (with_line_groups [] order_book) in
      let ob1 := fold_left (process_line now) lines ob0 in
      with_available_lines (sort_available_lines (available_lines ob1)) ob1
  end.

(** ** Applying a market to a book *)

Definition _process_market_selections (order_book : OrderBook)
    (market : Market) (now : Q) : OrderBook :=
  let ob0 := with_selections [] order_book in
  let ob1 :=
    match market_selections market with
    | Some (g :: gs) => _process_direct_selections ob0 (g :: gs) now
    | _ =>
        match market_lines market with
        | Some (l :: ls) => _process_market_lines ob0 (l :: ls) now
        | _ => ob0
        end
    end in
  with_last_update now ob1.

End algorithms.

(** [OrderBook(event_id=..., market_id=..., market_type=..., event_name=...)]. *)
Definition new_order_book (event : Z) (market type name : string) (now : Q)
  : OrderBook :=
  mkOrderBook event market type name [] [] [] now None 0 0.

(** ** Predicates used to state the properties *)

(** The levels stored under [line_groups[line][name]]. *)
Definition levels_at (ob : OrderBook) (line name : string)
  : list SelectionLevel :=
  default [] (dict_get name (default [] (dict_get line (line_groups ob)))).

(** [selections] has an entry under the level's id; the entry carries that
    id and is itself a level of some line group of the book. *)
Definition has_entry (ob : OrderBook) (level : SelectionLevel) : Prop :=
  exists stored,
    dict_get (selection_id level) (selections ob) = Some stored /\
    selection_id stored = selection_id level /\
    exists line name, stored ∈ levels_at ob line name.

(** Every level of every line group has such an entry. *)
Definition indexed (ob : OrderBook) : Prop :=
  forall line name level,
    level ∈ levels_at ob line name -> has_entry ob level.

(** [available_lines.append(x)] unless [x] is there already. *)
Definition add_line (acc : list string) (x : string) : list string :=
  if bool_decide (x ∈ acc) then acc else acc ++ [x].

(** The line values in order of first appearance. *)
Definition first_occurrences (xs : list string) : list string :=
  fold_left add_line xs [].

(** The keys of [line_groups] and [available_lines] move together. *)
Definition lines_in_step (ob : OrderBook) : Prop :=
  dict_keys (line_groups ob) = available_lines ob.

(** A line value whose sort key can be computed. *)
Definition numeric_or_na (float_of_str : string -> option Q) (x : string)
  : Prop :=
  x = "N/A" \/ is_Some (float_of_str x).

(** The comparison the numeric sort of the line values makes. *)
Definition by_line_key (float_of_str : string -> option Q) (x y : string)
  : bool :=
  match line_key float_of_str x, line_key float_of_str y with
  | Some kx, Some ky => key_le kx ky
  | _, _ => true
  end.

(** The order the claim on [available_lines] describes: numeric values
    ascending, every non-numeric value after them, non-numeric values in
    alphabetical order. *)
Definition numeric_then_alphabetical (float_of_str : string -> option Q)
    (a b : string) : bool :=
  match float_of_str a, float_of_str b with
  | Some x, Some y => Qle_bool x y
  | Some _, None => true
  | None, Some _ => false
  | None, None => String.leb a b
  end.

(** ** Metrics of a book ([_calculate_order_book_metrics]) *)

Definition with_metrics (best : option SelectionLevel) (s v : Q)
    (ob : OrderBook) :=
  mkOrderBook (event_id ob) (market_id ob) (market_type ob) (event_name ob)
    (selections ob) (line_groups ob) (available_lines ob) (last_update ob)
    best s v.

(** [max(xs)] and [min(xs)] of a list with first element [x]. *)
Definition py_max_list (x : Z) (xs : list Z) : Z := fold_left Z.max xs x.
Definition py_min_list (x : Z) (xs : list Z) : Z := fold_left Z.min xs x.

Definition _calculate_order_book_metrics (ob : OrderBook) : OrderBook :=
  match dict_values (selections ob) with
  | [] => with_metrics None 0 0 ob
  | first :: _ =>
      let sels := dict_values (selections ob) in
      let odds_values := omap odds sels in
      let new_spread :=
        match odds_values with
        | o1 :: o2 :: rest =>
            inject_Z (py_max_list o1 (o2 :: rest) - py_min_list o1 (o2 :: rest))
        | _ => 0%Q
        end in
      with_metrics (Some first) new_spread (py_sum (map size sels)) ob
  end.

(** ** What [best_selections] holds *)

(** The entry kept for name [n] once the entries [seen] have been
    processed: its odds are those of an entry of that name, no entry of that
    name has better odds, and its size tells priced from unpriced. *)
Definition best_of (seen : list Selection) (n : string) (b : BestSelection)
  : Prop :=
  n <> "" /\
  (exists e, e ∈ seen /\ name e = n /\ sel_odds e = best_odds b) /\
  (forall e, e ∈ seen -> name e = n ->
     _is_better_odds (sel_odds e) (best_odds b) = false) /\
  (best_odds b = None -> best_value b = 0%Q) /\
  (forall o, best_odds b = Some o -> (0 < best_value b)%Q).

Definition best_kept (seen : list Selection)
    (best_selections : pydict string BestSelection) : Prop :=
  NoDup (dict_keys best_selections) /\
  (forall n b, dict_get n best_selections = Some b -> best_of seen n b) /\
  (forall e, e ∈ seen -> name e <> "" ->
     dict_mem (name e) best_selections = true).

(** ** Depth of the line groups *)

(** The entries that carry name [n], in payload order. *)
Definition named (n : string) (entries : list Selection) : list Selection :=
  List.filter (fun e => bool_decide (name e = n)) entries.

(** The entries named [n] of all the lines whose value is [lv]. *)
Definition line_entries (lines : list MarketLine) (lv n : string)
  : list Selection :=
  flat_map
    (fun line =>
       if bool_decide (line_value line = lv)
       then named n (flatten_groups (line_selections line))
       else [])
    lines.

(** Odds [a] may stand before odds [b] in a descending list where unpriced
    levels come first. *)
Definition not_below (a b : option Z) : Prop :=
  match a, b with
  | None, _ => True
  | Some _, None => False
  | Some x, Some y => y <= x
  end.

(** ** Trades ([_process_trade_update])

    The ['trades'] lists of [current_data], by event.  [Info] is the
    ['info'] object of an update, from which the line, the odds and the
    stake of the trade are read; the ids are [None] or integers. *)

Section trades.
Variable Info : Type.

Record Trade : Type := mkTrade {
  trade_timestamp : Q;
  trade_market_id : Z;
  trade_info : Info
}.

(** An update as [process_update] hands it over, with the clock reading. *)
Record TradeUpdate : Type := mkTradeUpdate {
  update_info : Info;
  update_event_id : option Z;
  update_market_id : option Z;
  update_time : Q
}.

(** [l[-50:]]. *)
Definition last_50 (l : list Trade) : list Trade := drop (length l - 50) l.

Definition _process_trade_update (trades : pydict Z (list Trade))
    (u : TradeUpdate) : pydict Z (list Trade) :=
  match update_event_id u, update_market_id u with
  | Some event, Some market =>
      if negb (event =? 0) && negb (market =? 0) then
        let l := default [] (dict_get event trades)
                   ++ [mkTrade (update_time u) market (update_info u)] in
        dict_set event (if (50 <? length l)%nat then last_50 l else l) trades
      else trades
  | _, _ => trades
  end.

(** The trades of one event among the updates, in arrival order. *)
Definition trades_for (event : Z) (updates : list TradeUpdate) : list Trade :=
  omap (fun u =>
          match update_event_id u, update_market_id u with
          | Some e, Some market =>
              if negb (e =? 0) && negb (market =? 0) && (e =? event)
              then Some (mkTrade (update_time u) market (update_info u))
              else None
          | _, _ => None
          end) updates.

End trades.

Arguments mkTrade {Info} _ _ _.
Arguments mkTradeUpdate {Info} _ _ _ _.
Arguments trade_timestamp {Info} _.
Arguments trade_market_id {Info} _.
Arguments trade_info {Info} _.
Arguments update_info {Info} _.
Arguments update_event_id {Info} _.
Arguments update_market_id {Info} _.
Arguments update_time {Info} _.
Arguments last_50 {Info} _.
Arguments _process_trade_update {Info} _ _.
Arguments trades_for {Info} _ _.

End MarketData.

(** * Notification fan-out
      ([MarketDataManager._notify_subscribers],
       [ProphetSportsAPI._trigger_callbacks]) *)

Module Hub.

(** How a statement ends: normally, or with an [Exception] on its way up.
    Signals that are not instances of [Exception] (interrupts, exits, task
    cancellation) are not modelled. *)
Inductive Signal : Type :=
| Normal
| Raised (message : string).

Section fanout.

(** [Id] names a callback object; [Env] is everything a callback may change
    besides the registry; [Args] is what a callback is called with. *)
Variables (Id Env Args : Type).

Record HubState : Type := mkHubState {
  subscribers : list Id;
  env : Env;
  log_sink : list LogEntry
}.

(** The behaviour of each callback: how the call ends and what it leaves
    behind.  Awaited coroutine callbacks and plain ones are both called once. *)
Variable call : Id -> Args -> HubState -> Signal * HubState.

(** No callback subscribes or unsubscribes anyone while it runs. *)
Definition keeps_registry : Prop :=
  forall callback args s,
    subscribers (snd (call callback args s)) = subscribers s.

(** The body of the loop: [try: callback(...) except Exception as e:
    logger.error(...)]. *)
Definition guarded_call (message : string) (callback : Id) (args : Args)
    (s : HubState) : Signal * HubState :=
  let (signal, s') := call callback args s in
  match signal with
  | Normal => (Normal, s')
  | Raised _ =>
      (Normal,
       mkHubState (subscribers s') (env s')
                  (log_sink s' ++ [(ERROR, message)]))
  end.

(** [for callback in registry: body]: the list iterator reads position [i]
    of the list as it is at that moment; an exception leaving the body ends
    the loop.  The result carries the callbacks invoked, in order.  [None]:
    out of fuel. *)
Fixpoint for_each_callback (fuel : nat) (message : string) (i : nat)
    (args : Args) (s : HubState) (invoked : list Id)
  : option (Signal * HubState * list Id) :=
  match fuel with
  | O => None
  | S fuel' =>
      match subscribers s !! i with
      | None => Some (Normal, s, invoked)
      | Some callback =>
          let (signal, s') := guarded_call message callback args s in
          match signal with
          | Normal =>
              for_each_callback fuel' message (S i) args s' (invoked ++ [callback])
          | Raised e => Some (Raised e, s', invoked ++ [callback])
          end
      end
  end.

Definition _notify_subscribers (fuel : nat) (args : Args) (s : HubState)
  : option (Signal * HubState * list Id) :=
  for_each_callback fuel "Error notifying subscriber" 0 args s [].

(** [_trigger_callbacks] runs the same loop over
    [self.callbacks.get(event_type, [])]; [subscribers] is that list. *)
Definition _trigger_callbacks (fuel : nat) (args : Args) (s : HubState)
  : option (Signal * HubState * list Id) :=
  for_each_callback fuel "Error in callback" 0 args s [].

End fanout.

Arguments mkHubState {Id Env} _ _ _.
Arguments subscribers {Id Env} _.
Arguments env {Id Env} _.
Arguments log_sink {Id Env} _.
Arguments guarded_call {Id Env Args} _ _ _ _ _.
Arguments for_each_callback {Id Env Args} _ _ _ _ _ _ _.
Arguments _notify_subscribers {Id Env Args} _ _ _ _.
Arguments _trigger_callbacks {Id Env Args} _ _ _ _.
Arguments keeps_registry {Id Env Args} _.

(** ** Sample subscribers *)

(** Three subscribers; the second one raises. *)
Definition sample_call (callback : nat) (_ : string) (s : HubState nat nat)
  : Signal * HubState nat nat :=
  (if (callback =? 1)%nat then Raised "boom" else Normal,
   mkHubState (subscribers s) (S (env s)) (log_sink s)).

(** A subscriber that unsubscribes itself while it runs. *)
Definition leaving_call (callback : nat) (_ : string) (s : HubState nat nat)
  : Signal * HubState nat nat :=
  (Normal,
   mkHubState
     (if (callback =? 0)%nat
      then List.filter (fun c => negb (c =? 0)%nat) (subscribers s)
      else subscribers s)
     (env s) (log_sink s)).

(** ** The registry of subscribers *)

Section registry.
Context {Id Env : Type} `{EqDecision Id}.

(** [self.subscribers.append(callback)]. *)
Definition subscribe_to_updates (callback : Id) (s : HubState Id Env)
  : HubState Id Env :=
  mkHubState (subscribers s ++ [callback]) (env s) (log_sink s).

(** [l.remove(x)] on a list that holds [x]: the first occurrence goes. *)
Fixpoint list_remove (x : Id) (l : list Id) : list Id :=
  match l with
  | [] => []
  | y :: l' => if decide (x = y) then l' else y :: list_remove x l'
  end.

Definition unsubscribe_from_updates (callback : Id) (s : HubState Id Env)
  : HubState Id Env :=
  if bool_decide (callback ∈ subscribers s) then
    mkHubState (list_remove callback (subscribers s)) (env s) (log_sink s)
  else s.

End registry.

End Hub.

(** * The exchange transport and the calls that reach it
      ([exchanges/prophet_sports_api.py], [core/platform.py]) *)

Module Exchange.
Import WagerMgr.
Local Open Scope Z_scope.

(** What an HTTP exchange yields: [_async_request] raises, or returns a
    response.  [body_wager_id] is what
    [response.json()['data']['wager']['id']] evaluates to: [None] when
    evaluating it raises, [Some None] for a null id. *)
Inductive Http : Type :=
| HttpRaises
| HttpResponse (status_code : Z) (body_wager_id : option (option Z)).

(** The requests handed to [_async_request]. *)
Inductive Request : Type :=
| PostPlace (external_id : string) (line_id odds : Z) (stake : Q)
| PostCancel (external_id : string) (wager_id : option Z)
| PostCancelAll.

(** The part of a [ProphetSportsAPI] object the wager calls use:
    [self.wagers], and the requests made so far.  Log lines of the transport
    are left out. *)
Record Api : Type := mkApi {
  wagers : pydict string (option Z);
  requests : list Request
}.

Definition new_api : Api := mkApi [] [].

Definition requested (r : Request) (api : Api) : Api :=
  mkApi (wagers api) (requests api ++ [r]).

Definition api_place_wager (w : Wager) (http : Http) (api : Api)
  : option Z * Api :=
  let api1 :=
    requested (PostPlace (external_id w) (line_id w) (odds w) (stake w)) api in
  match http with
  | HttpRaises => (None, api1)
  | HttpResponse status_code body =>
      if status_code =? 200 then
        match body with
        | None => (None, api1)
        | Some wager_id =>
            (wager_id,
             mkApi (dict_set (external_id w) wager_id (wagers api1))
                   (requests api1))
        end
      else (None, api1)
  end.

Definition api_cancel_wager (external_id : string) (http : Http) (api : Api)
  : bool * Api :=
  match dict_get external_id (wagers api) with
  | None => (false, api)
  | Some wager_id =>
      let api1 := requested (PostCancel external_id wager_id) api in
      match http with
      | HttpRaises => (false, api1)
      | HttpResponse status_code _ =>
          if status_code =? 200 then
            (true, mkApi (dict_pop external_id (wagers api1)) (requests api1))
          else if status_code =? 404 then
            (true, mkApi (dict_pop external_id (wagers api1)) (requests api1))
          else (false, api1)
      end
  end.

Definition api_cancel_all_wagers (http : Http) (api : Api) : bool * Api :=
  let api1 := requested PostCancelAll api in
  match http with
  | HttpRaises => (false, api1)
  | HttpResponse status_code _ =>
      if status_code =? 200 then (true, mkApi [] (requests api1))
      else if status_code =? 404 then (true, api1)
      else (false, api1)
  end.

(** [create_wager]: [uuid] and [now] are the values [uuid.uuid4()] and
    [time.time()] give. *)
Definition create_wager (uuid : string) (now : Q) (line_id odds : Z)
    (stake : Q) : Wager :=
  mkWager uuid line_id odds stake 0 "" PENDING None 0 (Some now).

(** ** The platform: managers, transport, counters *)

Record System : Type := mkSystem {
  managers : Platform;
  api : Api;
  total_wagers_placed : Z;
  total_wagers_cancelled : Z
}.

Definition new_system (cfg : TradingConfig) (rcfg : RiskConfig) (now : Q)
  : System :=
  mkSystem (new_platform cfg rcfg now) new_api 0 0.

(** [WagerManager.place_wager] with the transport behind it; each call runs
    to its end before the next one starts. *)
Definition managed_place (w : Wager) (strategy : string)
    (context : option (pydict string PyVal)) (t_created t_updated : Q)
    (http : Http) (sys : System) : option Z * System :=
  let (suspended, p1) := place_wager_begin w (managers sys) in
  match suspended with
  | Returned r =>
      (r, mkSystem p1 (api sys) (total_wagers_placed sys)
                   (total_wagers_cancelled sys))
  | Awaiting _ =>
      let (wager_id, api') := api_place_wager w http (api sys) in
      let (r, p2) :=
        place_wager_resume w strategy context t_created t_updated
                           (Reply wager_id) p1 in
      (r, mkSystem p2 api' (total_wagers_placed sys)
                   (total_wagers_cancelled sys))
  end.

Definition managed_cancel (id reason : string) (now : Q) (http : Http)
    (sys : System) : bool * System :=
  let (suspended, p1) := cancel_wager_begin id reason (managers sys) in
  match suspended with
  | Returned r =>
      (r, mkSystem p1 (api sys) (total_wagers_placed sys)
                   (total_wagers_cancelled sys))
  | Awaiting _ =>
      let (success, api') := api_cancel_wager id http (api sys) in
      let (r, p2) := cancel_wager_resume id reason now (Reply success) p1 in
      (r, mkSystem p2 api' (total_wagers_placed sys)
                   (total_wagers_cancelled sys))
  end.

Definition managed_cancel_all (reason : string) (now : Q) (http : Http)
    (sys : System) : bool * System :=
  let (suspended, p1) := cancel_all_wagers_begin reason (managers sys) in
  match suspended with
  | Returned r =>
      (r, mkSystem p1 (api sys) (total_wagers_placed sys)
                   (total_wagers_cancelled sys))
  | Awaiting _ =>
      let (success, api') := api_cancel_all_wagers http (api sys) in
      let (r, p2) := cancel_all_wagers_resume reason now (Reply success) p1 in
      (r, mkSystem p2 api' (total_wagers_placed sys)
                   (total_wagers_cancelled sys))
  end.

(** [MarketMakingPlatform.place_manual_wager] and [cancel_manual_wager]:
    they consult [dry_run] and go to the transport directly. *)
Definition log_managers (level : LogLevel) (message : string) (sys : System)
  : System :=
  mkSystem (snd (log level message (managers sys))) (api sys)
           (total_wagers_placed sys) (total_wagers_cancelled sys).

Definition place_manual_wager (uuid : string) (now : Q) (line_id odds : Z)
    (stake : Q) (http : Http) (sys : System) : option Z * System :=
  if dry_run (trading_config (wager_manager (managers sys))) then
    (None, log_managers INFO "DRY RUN: Would place wager" sys)
  else
    let wager := create_wager uuid now line_id odds stake in
    let (wager_id, api') := api_place_wager wager http (api sys) in
    if id_truthy wager_id then
      (wager_id,
       log_managers INFO "Manual wager placed"
         (mkSystem (managers sys) api' (total_wagers_placed sys + 1)
                   (total_wagers_cancelled sys)))
    else
      (wager_id,
       mkSystem (managers sys) api' (total_wagers_placed sys)
                (total_wagers_cancelled sys)).

Definition cancel_manual_wager (external_id : string) (http : Http)
    (sys : System) : bool * System :=
  if dry_run (trading_config (wager_manager (managers sys))) then
    (true, log_managers INFO "DRY RUN: Would cancel wager" sys)
  else
    let (success, api') := api_cancel_wager external_id http (api sys) in
    if success then
      (true,
       log_managers INFO "Manual wager cancelled"
         (mkSystem (managers sys) api' (total_wagers_placed sys)
                   (total_wagers_cancelled sys + 1)))
    else
      (false,
       mkSystem (managers sys) api' (total_wagers_placed sys)
                (total_wagers_cancelled sys)).

(** ** Calls in sequence *)

Inductive SysCall : Type :=
| ManagedPlace (w : Wager) (strategy : string)
               (context : option (pydict string PyVal))
               (t_created t_updated : Q) (http : Http)
| ManagedCancel (id reason : string) (now : Q) (http : Http)
| ManagedCancelAll (reason : string) (now : Q) (http : Http)
| ManualPlace (uuid : string) (now : Q) (line_id odds : Z) (stake : Q)
              (http : Http)
| ManualCancel (external_id : string) (http : Http).

Definition sys_step (sys : System) (c : SysCall) : System :=
  match c with
  | ManagedPlace w strategy context t1 t2 http =>
      snd (managed_place w strategy context t1 t2 http sys)
  | ManagedCancel id reason now http =>
      snd (managed_cancel id reason now http sys)
  | ManagedCancelAll reason now http =>
      snd (managed_cancel_all reason now http sys)
  | ManualPlace uuid now line_id odds stake http =>
      snd (place_manual_wager uuid now line_id odds stake http sys)
  | ManualCancel external_id http =>
      snd (cancel_manual_wager external_id http sys)
  end.

Definition sys_run (calls : list SysCall) (sys : System) : System :=
  fold_left sys_step calls sys.

Definition is_manual_cancel (c : SysCall) : bool :=
  match c with
  | ManualCancel _ _ => true
  | _ => false
  end.

(** Every wager the manager holds as active is known to the transport. *)
Definition active_registered (sys : System) : Prop :=
  forall id,
    dict_mem id (active_wagers (wager_manager (managers sys))) = true ->
    dict_mem id (wagers (api sys)) = true.

(** The status codes the transport takes for a cancellation done. *)
Definition cancel_accepted (http : Http) : bool :=
  match http with
  | HttpRaises => false
  | HttpResponse status_code _ => (status_code =? 200) || (status_code =? 404)
  end.

(** What holds between calls as long as nothing cancels behind the
    manager's back. *)
Definition in_step (sys : System) : Prop :=
  NoDup (dict_keys (active_wagers (wager_manager (managers sys)))) /\
  active_registered sys.

End Exchange.
(** * Facts about the Python dictionary model *)

Lemma Qltb_lt (a b : Q) : Qltb a b = true <-> (a < b)%Q.
Proof.
  unfold Qltb. rewrite negb_true_iff. split.
  - intros H. apply Qnot_le_lt. intros Hle.
    apply Qle_bool_iff in Hle. congruence.
  - intros H. destruct (Qle_bool b a) eqn:E; [|reflexivity].
    apply Qle_bool_iff in E. exfalso. exact (Qlt_not_le _ _ H E).
Qed.

Section pydict_facts.
Context {K V : Type} `{EqDecision K}.
Implicit Types (d : list (K * V)) (k : K) (v : V).

Lemma dict_get_None_keys k d : dict_get k d = None <-> k ∉ dict_keys d.
Proof.
  induction d as [|[k' v] d IH]; simpl.
  - split; [intros _; apply not_elem_of_nil | done].
  - rewrite not_elem_of_cons. destruct (decide (k = k')); [|tauto].
    split; [done | tauto].
Qed.

Lemma dict_get_set_eq k v d : dict_get k (dict_set k v d) = Some v.
Proof.
  induction d as [|[k' v'] d IH]; simpl.
  - by rewrite decide_True.
  - destruct (decide (k = k')) as [->|Hne]; simpl.
    + by rewrite decide_True.
    + by rewrite decide_False.
Qed.

Lemma dict_get_set_ne k k' v d :
  k ≠ k' -> dict_get k' (dict_set k v d) = dict_get k' d.
Proof.
  intros Hne. induction d as [|[k0 v0] d IH]; simpl.
  - rewrite decide_False; [done | congruence].
  - destruct (decide (k = k0)) as [->|Hne0]; simpl.
    + by rewrite !decide_False by congruence.
    + by rewrite IH.
Qed.

Lemma dict_keys_set k v d :
  dict_keys (dict_set k v d) =
    if dict_mem k d then dict_keys d else dict_keys d ++ [k].
Proof.
  unfold dict_mem. induction d as [|[k' v'] d IH]; simpl; [done|].
  destruct (decide (k = k')); simpl; [done|].
  rewrite IH. by destruct (dict_get k d).
Qed.

Lemma dict_keys_set_NoDup k v d :
  NoDup (dict_keys d) -> NoDup (dict_keys (dict_set k v d)).
Proof.
  intros Hnd. rewrite dict_keys_set. unfold dict_mem.
  destruct (dict_get k d) eqn:E; [done|].
  apply dict_get_None_keys in E.
  apply NoDup_app. split; [done|]. split; [|apply NoDup_singleton].
  intros x Hx Hx'. apply list_elem_of_singleton in Hx'. by subst.
Qed.

Lemma dict_keys_pop_subseteq k d : dict_keys (dict_pop k d) ⊆ dict_keys d.
Proof.
  induction d as [|[k' v'] d IH]; simpl; [done|].
  destruct (decide (k = k')); simpl.
  - intros x Hx. apply elem_of_cons. by right.
  - intros x. rewrite !elem_of_cons. intros [->|Hx]; [by left|].
    right. by apply IH.
Qed.

Lemma dict_keys_pop_NoDup k d :
  NoDup (dict_keys d) -> NoDup (dict_keys (dict_pop k d)).
Proof.
  induction d as [|[k' v'] d IH]; simpl; [done|].
  rewrite NoDup_cons. intros [Hk Hnd].
  destruct (decide (k = k')); simpl; [done|].
  apply NoDup_cons. split; [|by apply IH].
  intros Hin. apply Hk. by apply (dict_keys_pop_subseteq k d).
Qed.

Lemma dict_get_pop_eq k d :
  NoDup (dict_keys d) -> dict_get k (dict_pop k d) = None.
Proof.
  induction d as [|[k' v'] d IH]; simpl; [done|].
  rewrite NoDup_cons. intros [Hk Hnd].
  destruct (decide (k = k')) as [->|Hne]; simpl.
  - by apply dict_get_None_keys.
  - rewrite decide_False by done. by apply IH.
Qed.

(** Looking every key up, in enumeration order, yields the values. *)
Lemma dict_lookup_all d :
  NoDup (dict_keys d) ->
  map (fun k => dict_get k d) (dict_keys d) = map Some (dict_values d).
Proof.
  induction d as [|[k v] d IH]; simpl; [done|].
  rewrite NoDup_cons. intros [Hk Hnd].
  rewrite decide_True by done. f_equal.
  rewrite <- IH by done. apply map_ext_in. intros k' Hin.
  apply list_elem_of_In in Hin.
  rewrite decide_False; [done|]. intros ->. done.
Qed.

Lemma dict_mem_keys k d : dict_mem k d = true <-> k ∈ dict_keys d.
Proof.
  unfold dict_mem. pose proof (dict_get_None_keys k d) as Hnone.
  destruct (dict_get k d).
  - split; [intros _|done]. destruct (decide (k ∈ dict_keys d)); [done|].
    apply Hnone in n. discriminate.
  - split; [done|]. intros Hin. by apply Hnone in Hin.
Qed.

Lemma dict_keys_set_mem k v d :
  k ∈ dict_keys d -> dict_keys (dict_set k v d) = dict_keys d.
Proof.
  intros Hin. rewrite dict_keys_set.
  apply dict_mem_keys in Hin. by rewrite Hin.
Qed.
End pydict_facts.

Lemma fold_left_preserves {A B : Type} (Inv : A -> Prop) (f : A -> B -> A)
    (l : list B) (a : A) :
  (forall a b, Inv a -> Inv (f a b)) -> Inv a -> Inv (fold_left f l a).
Proof.
  intros Hstep. revert a. induction l as [|b l IH]; intros a Ha; [done|].
  simpl. apply IH. by apply Hstep.
Qed.

(** * Facts about [py_sorted] *)

Section sorting_facts.
Context {A : Type} (le : A -> A -> bool) (P : A -> Prop).
Hypothesis le_total_on :
  forall x y, P x -> P y -> le x y = true \/ le y x = true.
Hypothesis le_trans_on :
  forall x y z, P x -> P y -> P z ->
    le x y = true -> le y z = true -> le x z = true.

Lemma insert_by_elem (x y : A) (l : list A) :
  y ∈ insert_by le x l <-> y = x \/ y ∈ l.
Proof.
  induction l as [|z l IH]; simpl.
  - rewrite list_elem_of_singleton, elem_of_nil. tauto.
  - destruct (le x z); rewrite !elem_of_cons; [tauto|].
    rewrite IH. tauto.
Qed.

Lemma py_sorted_elem (y : A) (l : list A) : y ∈ py_sorted le l <-> y ∈ l.
Proof.
  induction l as [|x l IH]; simpl; [done|].
  rewrite insert_by_elem, elem_of_cons, IH. tauto.
Qed.

Lemma insert_by_NoDup (x : A) (l : list A) :
  x ∉ l -> NoDup l -> NoDup (insert_by le x l).
Proof.
  induction l as [|z l IH]; simpl; intros Hx Hnd.
  - apply NoDup_singleton.
  - apply not_elem_of_cons in Hx as [Hxz Hxl].
    destruct (le x z).
    + apply NoDup_cons. split; [|done].
      rewrite elem_of_cons. tauto.
    + apply NoDup_cons in Hnd as [Hz Hnd].
      apply NoDup_cons. split; [|by apply IH].
      rewrite insert_by_elem. intros [->|Hin]; done.
Qed.

Lemma py_sorted_NoDup (l : list A) : NoDup l -> NoDup (py_sorted le l).
Proof.
  induction l as [|x l IH]; simpl; [done|].
  rewrite NoDup_cons. intros [Hx Hnd].
  apply insert_by_NoDup; [|by apply IH]. by rewrite py_sorted_elem.
Qed.

Lemma insert_by_sorted (x : A) (l : list A) :
  P x -> Forall P l ->
  StronglySorted (fun a b => le a b = true) l ->
  StronglySorted (fun a b => le a b = true) (insert_by le x l).
Proof.
  intros Px. induction l as [|z l IH]; simpl; intros HP Hs.
  - constructor; [constructor | constructor].
  - apply Forall_cons in HP as [Pz HP].
    apply StronglySorted_inv in Hs as [Hs Hz].
    destruct (le x z) eqn:Hxz.
    + constructor; [by constructor|].
      constructor; [done|].
      rewrite Forall_forall in Hz, HP. rewrite Forall_forall. intros y Hy.
      apply (le_trans_on x z y); auto.
    + constructor; [by apply IH|].
      rewrite Forall_forall. intros y Hy. rewrite insert_by_elem in Hy. destruct Hy as [->|Hy].
      * destruct (le_total_on x z Px Pz); [congruence | done].
      * rewrite Forall_forall in Hz. by apply Hz.
Qed.

Lemma py_sorted_sorted (l : list A) :
  Forall P l -> StronglySorted (fun a b => le a b = true) (py_sorted le l).
Proof.
  induction l as [|x l IH]; simpl; intros HP; [constructor|].
  apply Forall_cons in HP as [Px HP].
  apply insert_by_sorted; [done| |by apply IH].
  rewrite Forall_forall in HP. rewrite Forall_forall. intros y Hy.
  rewrite py_sorted_elem in Hy. by apply HP.
Qed.
End sorting_facts.

Lemma strongly_sorted_weaken {A : Type} (R R' : A -> A -> Prop) (l : list A) :
  (forall x y, x ∈ l -> y ∈ l -> R x y -> R' x y) ->
  StronglySorted R l -> StronglySorted R' l.
Proof.
  induction l as [|x l IH]; intros Himp Hs; [constructor|].
  apply StronglySorted_inv in Hs as [Hs Hx].
  constructor.
  - apply IH; [|done]. intros; apply Himp; auto using list_elem_of_further.
  - rewrite Forall_forall in Hx. rewrite Forall_forall. intros y Hy.
    apply Himp; [apply list_elem_of_here | by apply list_elem_of_further |].
    by apply Hx.
Qed.

Lemma key_le_total (a b : FloatKey) : key_le a b = true \/ key_le b a = true.
Proof.
  destruct a as [x|], b as [y|]; simpl; auto.
  destruct (Qle_bool x y) eqn:E; [by left|]. right.
  apply Qle_bool_iff. apply Qlt_le_weak. apply Qnot_le_lt.
  intros Hle. apply Qle_bool_iff in Hle. congruence.
Qed.

Lemma key_le_trans (a b c : FloatKey) :
  key_le a b = true -> key_le b c = true -> key_le a c = true.
Proof.
  destruct a as [x|], b as [y|], c as [z|]; simpl; try done.
  rewrite !Qle_bool_iff. apply Qle_trans.
Qed.

(** * The wager manager: exposure, failed placements, pending set, risk gate *)

Module WagerFacts.
Import WagerMgr.

(** Unfolds the method monad down to state-passing terms. *)
Ltac run_methods :=
  unfold state_after, result_of, bind, ret, gets, log, update_manager in *;
  simpl in *.

(** *** How each method part changes the active set *)

Lemma validate_state (w : Wager) (p : Platform) :
  wager_manager (snd (_validate_wager w p)) = wager_manager p /\
  risk_manager (snd (_validate_wager w p)) = risk_manager p.
Proof.
  unfold _validate_wager. run_methods.
  repeat (match goal with |- context [if ?c then _ else _] => destruct c end;
          simpl); auto.
Qed.

Lemma limits_state (w : Wager) (p : Platform) :
  wager_manager (snd (_check_position_limits w p)) = wager_manager p /\
  risk_manager (snd (_check_position_limits w p)) = risk_manager p.
Proof.
  unfold _check_position_limits. run_methods.
  repeat (match goal with |- context [if ?c then _ else _] => destruct c end;
          simpl); auto.
Qed.

Lemma place_begin_active (w : Wager) (p : Platform) :
  active_of (snd (place_wager_begin w p)) = active_of p.
Proof.
  unfold active_of, place_wager_begin, bind.
  destruct (_validate_wager w p) as [valid p1] eqn:E1.
  pose proof (validate_state w p) as [Hv _]. rewrite E1 in Hv. simpl in Hv.
  destruct valid; simpl; run_methods; [|by rewrite Hv].
  destruct (_check_position_limits w p1) as [within p2] eqn:E2.
  pose proof (limits_state w p1) as [Hl _]. rewrite E2 in Hl. simpl in Hl.
  destruct within; simpl; by rewrite Hl, Hv.
Qed.

Lemma place_resume_active w strategy context t1 t2 reply (p : Platform) :
  active_of (snd (place_wager_resume w strategy context t1 t2 reply p)) =
    match reply with
    | Reply wager_id =>
        if id_truthy wager_id then
          dict_set (external_id w)
                   (mkWagerRecord w t1 t2 strategy (default [] context))
                   (active_of p)
        else active_of p
    | Raises => active_of p
    end.
Proof.
  unfold active_of, place_wager_resume.
  destruct reply as [wager_id|]; run_methods; [|done].
  by destruct (id_truthy wager_id).
Qed.

Lemma cancel_begin_active id reason (p : Platform) :
  active_of (snd (cancel_wager_begin id reason p)) = active_of p.
Proof.
  unfold active_of, cancel_wager_begin. run_methods.
  by destruct (dict_mem id _).
Qed.

Lemma cancel_resume_active id reason now reply (p : Platform) :
  active_of (snd (cancel_wager_resume id reason now reply p)) =
    match reply with
    | Reply true => dict_pop id (active_of p)
    | _ => active_of p
    end.
Proof.
  unfold active_of, cancel_wager_resume.
  destruct reply as [[]|]; run_methods; try done.
  destruct (dict_get id _) eqn:E; simpl; [done|].
  clear -E. induction (active_wagers (wager_manager p)) as [|[k r] d IH];
    simpl in *; [done|].
  destruct (decide (id = k)); [done|]. by rewrite <- IH.
Qed.

Lemma cancel_all_begin_active reason (p : Platform) :
  active_of (snd (cancel_all_wagers_begin reason p)) = active_of p.
Proof. done. Qed.

Lemma cancel_all_resume_active reason now reply (p : Platform) :
  active_of (snd (cancel_all_wagers_resume reason now reply p)) =
    match reply with
    | Reply true => []
    | _ => active_of p
    end.
Proof.
  unfold active_of, cancel_all_wagers_resume.
  by destruct reply as [[]|].
Qed.

(** *** The active set never holds one id twice *)

Lemma step_well_keyed (W : World) (a : Action) :
  well_keyed W -> well_keyed (step W a).
Proof.
  unfold well_keyed. intros Hnd. destruct a as [t|i reply t1 t2|i reply now];
    simpl.
  - destruct (begin_task t (platform W)) as [suspended p'] eqn:E.
    assert (active_of p' = active_of (platform W)) as Hact.
    { destruct t; simpl in E; unfold bind in E.
      - destruct (place_wager_begin w (platform W)) as [s q] eqn:E'.
        inversion E; subst. rewrite <- (place_begin_active w (platform W)).
        by rewrite E'.
      - destruct (cancel_wager_begin id reason (platform W)) as [s q] eqn:E'.
        inversion E; subst.
        rewrite <- (cancel_begin_active id reason (platform W)).
        by rewrite E'.
      - inversion E; subst. done. }
    destruct suspended; simpl; by rewrite Hact.
  - destruct (in_flight W !! i) as [[w strategy context| |]|]; simpl; try done.
    unfold state_after. rewrite place_resume_active.
    destruct reply as [wager_id|]; [|done].
    destruct (id_truthy wager_id); [|done].
    by apply dict_keys_set_NoDup.
  - destruct (in_flight W !! i) as [[|id reason|reason]|]; simpl; try done.
    + unfold state_after. rewrite cancel_resume_active.
      destruct reply as [[]|]; try done. by apply dict_keys_pop_NoDup.
    + unfold state_after. rewrite cancel_all_resume_active.
      destruct reply as [[]|]; try done. apply NoDup_nil_2.
Qed.

Lemma run_well_keyed (actions : list Action) (W : World) :
  well_keyed W -> well_keyed (run actions W).
Proof.
  revert W. induction actions as [|a actions IH]; intros W HW; [done|].
  simpl. apply IH. by apply step_well_keyed.
Qed.

Lemma enumeration_values {V A : Type} (g : V -> A) (d0 d : pydict string V) :
  NoDup (dict_keys d) ->
  (forall k, k ∈ dict_keys d -> dict_get k d0 = dict_get k d) ->
  omap (fun k => g <$> dict_get k d0) (dict_keys d) = map g (dict_values d).
Proof.
  induction d as [|[k v] d IH]; simpl; [done|].
  rewrite NoDup_cons. intros [Hk Hnd] Hagree.
  rewrite (Hagree k) by apply list_elem_of_here. simpl.
  rewrite decide_True by done. simpl. f_equal.
  apply IH; [done|]. intros k' Hk'.
  rewrite (Hagree k') by (by apply list_elem_of_further).
  simpl. rewrite decide_False; [done|]. intros ->. done.
Qed.

Lemma exposure_of_well_keyed (m : WagerManager) :
  NoDup (dict_keys (active_wagers m)) ->
  get_total_exposure m = exposure_by_enumeration m.
Proof.
  intros Hnd. unfold get_total_exposure, exposure_by_enumeration.
  by rewrite (enumeration_values _ (active_wagers m)).
Qed.

(** C1. Whatever sequence of [place_wager], [cancel_wager] and
    [cancel_all_wagers] calls has run on a fresh manager, in whatever
    interleaving of their transport waits and with whatever answers of the
    transport, [get_total_exposure()] equals the sum of [wager.stake] over
    the records found by enumerating the active set from scratch. *)
Theorem exposure_consistency
    (cfg : TradingConfig) (rcfg : RiskConfig) (t0 : Q)
    (actions : list Action) :
  let m := wager_manager (platform (run actions (new_world cfg rcfg t0))) in
  get_total_exposure m = exposure_by_enumeration m /\
  get_total_exposure m =
    py_sum (map (fun record => stake (wager record)) (get_active_wagers m)).
Proof.
  simpl. split; [|reflexivity].
  apply exposure_of_well_keyed.
  apply (run_well_keyed actions (new_world cfg rcfg t0)).
  apply NoDup_nil_2.
Qed.

(** *** What [place_wager] does, phase by phase *)

Lemma limits_result_active (w : Wager) (p p' : Platform) :
  trading_config (wager_manager p) = trading_config (wager_manager p') ->
  active_wagers (wager_manager p) = active_wagers (wager_manager p') ->
  within_limits w p = within_limits w p'.
Proof.
  intros Hc Ha. unfold within_limits, _check_position_limits, get_total_exposure.
  run_methods. rewrite Hc, Ha.
  repeat (match goal with |- context [if ?c then _ else _] => destruct c end;
          simpl; rewrite ?Hc, ?Ha); auto.
Qed.

Lemma limits_result_manager (w : Wager) (p p' : Platform) :
  wager_manager p = wager_manager p' ->
  within_limits w p = within_limits w p'.
Proof. intros Hm. apply limits_result_active; by rewrite Hm. Qed.

Lemma validate_result_manager (w : Wager) (p p' : Platform) :
  trading_config (wager_manager p) = trading_config (wager_manager p') ->
  valid_ok w p = valid_ok w p'.
Proof.
  intros Hm. unfold valid_ok, _validate_wager. run_methods. rewrite Hm.
  repeat (match goal with |- context [if ?c then _ else _] => destruct c end;
          simpl; rewrite ?Hm); auto.
Qed.

Lemma place_begin_result (w : Wager) (p : Platform) :
  result_of (place_wager_begin w) p =
    if valid_ok w p && within_limits w p
    then Awaiting (ApiPlaceWager w) else Returned None.
Proof.
  unfold result_of, place_wager_begin, bind, valid_ok, result_of.
  destruct (_validate_wager w p) as [valid p1] eqn:E1.
  pose proof (validate_state w p) as [Hv _]. rewrite E1 in Hv. simpl in Hv.
  destruct valid; simpl; [|done].
  rewrite <- (limits_result_manager w p1 p Hv). unfold within_limits, result_of.
  destruct (_check_position_limits w p1) as [within p2].
  by destruct within.
Qed.

Lemma place_begin_manager (w : Wager) (p : Platform) :
  wager_manager (state_after (place_wager_begin w) p) =
    if valid_ok w p && within_limits w p
    then with_pending_placements
           (<[external_id w := w]> (pending_placements (wager_manager p)))
           (wager_manager p)
    else wager_manager p.
Proof.
  unfold state_after, place_wager_begin, bind, valid_ok, result_of.
  destruct (_validate_wager w p) as [valid p1] eqn:E1.
  pose proof (validate_state w p) as [Hv _]. rewrite E1 in Hv. simpl in Hv.
  destruct valid; simpl; [|done].
  rewrite <- (limits_result_manager w p1 p Hv). unfold within_limits, result_of.
  destruct (_check_position_limits w p1) as [within p2] eqn:E2.
  pose proof (limits_state w p1) as [Hl _]. rewrite E2 in Hl. simpl in Hl.
  destruct within; simpl; by rewrite Hl, Hv.
Qed.

(** *** Pending ids belong to placements in flight *)

Lemma place_resume_pending w strategy context t1 t2 reply (p : Platform) :
  pending_placements
    (wager_manager (snd (place_wager_resume w strategy context t1 t2 reply p)))
  = delete (external_id w) (pending_placements (wager_manager p)).
Proof.
  unfold place_wager_resume. destruct reply as [wager_id|]; run_methods;
    [|done].
  by destruct (id_truthy wager_id).
Qed.

Lemma cancel_begin_pending id reason (p : Platform) :
  pending_placements (wager_manager (snd (cancel_wager_begin id reason p)))
  = pending_placements (wager_manager p).
Proof.
  unfold cancel_wager_begin. run_methods. by destruct (dict_mem id _).
Qed.

Lemma cancel_resume_pending id reason now reply (p : Platform) :
  pending_placements
    (wager_manager (snd (cancel_wager_resume id reason now reply p)))
  = pending_placements (wager_manager p).
Proof.
  unfold cancel_wager_resume. destruct reply as [[]|]; run_methods; try done.
  by destruct (dict_get id _).
Qed.

Lemma cancel_all_resume_pending reason now reply (p : Platform) :
  pending_placements
    (wager_manager (snd (cancel_all_wagers_resume reason now reply p)))
  = pending_placements (wager_manager p).
Proof. unfold cancel_all_wagers_resume. by destruct reply as [[]|]. Qed.

Lemma elem_of_delete_other {A : Type} (l : list A) (i : nat) (x y : A) :
  x ∈ l -> l !! i = Some y -> x <> y -> x ∈ delete i l.
Proof.
  revert i. induction l as [|z l IH]; intros i Hx Hi Hne; [done|].
  destruct i as [|i]; simpl in *.
  - inversion Hi; subst. apply elem_of_cons in Hx as [?|?]; done.
  - apply elem_of_cons in Hx as [->|Hx]; [apply list_elem_of_here|].
    apply list_elem_of_further. by apply (IH i).
Qed.

Lemma step_pending_in_flight (W : World) (a : Action) :
  pending_in_flight W -> pending_in_flight (step W a).
Proof.
  intros HW. destruct a as [t|i reply t1 t2|i reply now]; simpl.
  - destruct t as [w strategy context|id reason|reason]; simpl; unfold bind.
    + pose proof (place_begin_result w (platform W)) as Hres.
      pose proof (place_begin_manager w (platform W)) as Hmgr.
      unfold result_of, state_after in Hres, Hmgr.
      destruct (place_wager_begin w (platform W)) as [s p'].
      simpl in Hres, Hmgr. subst s.
      destruct (valid_ok w (platform W) && within_limits w (platform W));
        simpl; intros id' Hid'; simpl in Hid'; rewrite Hmgr in Hid'.
      * simpl in Hid'. destruct (decide (external_id w = id')) as [<-|Hne].
        { exists w, strategy, context. split; [|done].
          apply elem_of_app. right. apply list_elem_of_here. }
        rewrite lookup_insert_ne in Hid' by done.
        destruct (HW id' Hid') as (w' & s' & c' & Hin & Heq).
        exists w', s', c'. split; [|done]. apply elem_of_app. by left.
      * by apply HW.
    + pose proof (cancel_begin_pending id reason (platform W)) as Hp.
      destruct (cancel_wager_begin id reason (platform W)) as [s p'].
      simpl in Hp.
      destruct s as [r|call]; simpl; intros id' Hid'; simpl in Hid';
        rewrite Hp in Hid'; destruct (HW id' Hid') as (w' & s' & c' & Hin & Heq);
        exists w', s', c'; (split; [|done]); [done|].
      apply elem_of_app. by left.
    + intros id' Hid'. simpl in Hid'.
      destruct (HW id' Hid') as (w' & s' & c' & Hin & Heq).
      exists w', s', c'. split; [|done]. simpl. apply elem_of_app. by left.
  - destruct (in_flight W !! i) as [[w strategy context| |]|] eqn:Hi;
      simpl; try done.
    intros id' Hid'. simpl in Hid'. unfold state_after in Hid'.
    rewrite place_resume_pending in Hid'.
    destruct (decide (external_id w = id')) as [<-|Hne].
    { rewrite lookup_delete_eq in Hid'. by destruct Hid'. }
    rewrite lookup_delete_ne in Hid' by done.
    destruct (HW id' Hid') as (w' & s' & c' & Hin & Heq).
    exists w', s', c'. split; [|done]. simpl.
    apply (elem_of_delete_other _ i _ _ Hin Hi). intros [= -> _ _]. done.
  - destruct (in_flight W !! i) as [[|id reason|reason]|] eqn:Hi;
      simpl; try done.
    + intros id' Hid'. simpl in Hid'. unfold state_after in Hid'.
      rewrite cancel_resume_pending in Hid'.
      destruct (HW id' Hid') as (w' & s' & c' & Hin & Heq).
      exists w', s', c'. split; [|done]. simpl.
      by apply (elem_of_delete_other _ i _ _ Hin Hi).
    + intros id' Hid'. simpl in Hid'. unfold state_after in Hid'.
      rewrite cancel_all_resume_pending in Hid'.
      destruct (HW id' Hid') as (w' & s' & c' & Hin & Heq).
      exists w', s', c'. split; [|done]. simpl.
      by apply (elem_of_delete_other _ i _ _ Hin Hi).
Qed.

(** In every state the event loop can reach from a fresh platform, an id
    is pending only while a placement of that id is in flight: a call that
    starts when no other placement of its id is in flight finds its id
    absent from the pending set. *)
Lemma pending_only_in_flight (cfg : TradingConfig) (rcfg : RiskConfig)
    (t0 : Q) (actions : list Action) :
  pending_in_flight (run actions (new_world cfg rcfg t0)).
Proof.
  unfold run. apply fold_left_preserves; [apply step_pending_in_flight|].
  intros id Hid. simpl in Hid. rewrite lookup_empty in Hid. by destruct Hid.
Qed.

Lemma place_resume_failed (w : Wager) strategy context t1 t2 reply
    (p : Platform) :
  reply = Reply None \/ reply = Raises ->
  let out := place_wager_resume w strategy context t1 t2 reply p in
  fst out = None /\
  wager_manager (snd out) =
    with_pending_placements
      (delete (external_id w) (pending_placements (wager_manager p)))
      (wager_manager p).
Proof. intros [-> | ->]; done. Qed.

Lemma stake_above_maximum_invalid (w : Wager) (p : Platform) :
  (max_stake_per_wager (trading_config (wager_manager p)) < stake w)%Q ->
  valid_ok w p = false.
Proof.
  intros Hlt. apply Qltb_lt in Hlt.
  unfold valid_ok, _validate_wager. run_methods. rewrite Hlt.
  by destruct (Qle_bool (stake w) 0).
Qed.



(** C3, as stated, fails: with id ["w-1"] registered in the pending set by a
    first attempt that is still waiting for the transport, a second attempt
    for the same id is not refused; the transport's placement call is
    invoked a second time and both calls are in flight together. *)
Lemma duplicate_placement_reaches_transport :
  let w := mkWager "w-1" 7 (-110) 5 0 "" PENDING None 0 None in
  let W1 := step (new_world default_trading_config default_risk_config 0)
                 (Start (TPlace w "simple_market_maker" None)) in
  let W2 := step W1 (Start (TPlace w "simple_market_maker" None)) in
  pending_placements (wager_manager (platform W1)) !! "w-1" = Some w /\
  result_of (place_wager_begin w) (platform W1) = Awaiting (ApiPlaceWager w) /\
  transport_log W2 = [ApiPlaceWager w; ApiPlaceWager w] /\
  length (in_flight W2) = 2%nat /\
  placements_for "w-1" (transport_log W2) = 2%nat.
Proof. vm_compute. repeat split; reflexivity. Qed.

(** C3, amended. Whether a placement attempt reaches the transport is
    decided by validation and the position limits alone: the pending set is
    not consulted.  An attempt that passes both is suspended on the
    transport's placement call and overwrites the pending entry of its id,
    also when that id is already pending. *)
Theorem placement_ignores_pending_set (w : Wager) (p : Platform) :
  (forall pending : gmap string Wager,
     let p' := mkPlatform (with_pending_placements pending (wager_manager p))
                          (risk_manager p) (log_sink p) in
     result_of (place_wager_begin w) p' = result_of (place_wager_begin w) p) /\
  result_of (place_wager_begin w) p =
    (if valid_ok w p && within_limits w p
     then Awaiting (ApiPlaceWager w) else Returned None) /\
  (valid_ok w p && within_limits w p = true ->
   pending_placements (wager_manager (state_after (place_wager_begin w) p))
     = <[external_id w := w]> (pending_placements (wager_manager p))).
Proof.
  split; [|split].
  - intros pending p'. rewrite !place_begin_result.
    rewrite (validate_result_manager w p' p) by done.
    by rewrite (limits_result_active w p' p).
  - apply place_begin_result.
  - intros Hgate. rewrite place_begin_manager, Hgate. done.
Qed.

Lemma placement_ignores_pending_witness :
  let w := mkWager "w-1" 7 (-110) 5 0 "" PENDING None 0 None in
  let p := state_after (place_wager_begin w)
             (new_platform default_trading_config default_risk_config 0) in
  pending_placements (wager_manager (state_after (place_wager_begin w) p))
  = <[ "w-1" := w ]> (pending_placements (wager_manager p)).
Proof.
  intros w p.
  destruct (placement_ignores_pending_set w p) as (_ & _ & Hpending).
  apply Hpending. vm_compute. reflexivity.
Defined.

(** *** The checks do not write to the managers *)

Lemma risk_state (w : Wager) (context : option (pydict string PyVal))
    (p : Platform) :
  wager_manager (snd (check_wager_risk w context p)) = wager_manager p /\
  risk_manager (snd (check_wager_risk w context p)) = risk_manager p.
Proof.
  unfold check_wager_risk. run_methods.
  repeat (match goal with |- context [if ?c then _ else _] => destruct c end;
          simpl); auto.
Qed.

Lemma repeat_check_kept (check : M bool) (n : nat) :
  (forall p, managers_kept p (snd (check p))) ->
  forall p, managers_kept p (state_after (repeat_check n check) p).
Proof.
  intros Hcheck. induction n as [|n IH]; intros p; [done|].
  unfold state_after in *. simpl. unfold bind.
  destruct (check p) as [b p1] eqn:E.
  destruct (Hcheck p) as [Hw Hr]. rewrite E in Hw, Hr. simpl in Hw, Hr.
  destruct (IH p1) as [Hw' Hr']. split; congruence.
Qed.

Lemma exposure_above_limit_rejected (w : Wager) (p : Platform) :
  (max_total_exposure (trading_config (wager_manager p))
     < get_total_exposure (wager_manager p) + stake w)%Q ->
  within_limits w p = false.
Proof.
  intros Hlt. apply Qltb_lt in Hlt.
  unfold within_limits, _check_position_limits. run_methods. by rewrite Hlt.
Qed.

(** [RiskManager.check_wager_risk] has its own exposure bound, ten times
    [max_position_size]: with a total-exposure limit of [5], a stake of [8]
    passes it, and is then refused by the position limits of
    [place_wager]. *)
Lemma risk_manager_exposure_bound :
  let w := mkWager "w-9" 7 (-110) 8 0 "" PENDING None 0 None in
  let p := new_platform
             (mkTradingConfig true 10 5 (-200) 200 5 30 50)
             default_risk_config 0 in
  result_of (check_wager_risk w None) p = true /\
  result_of (risk_checked_place_begin w None) p = Returned None.
Proof. vm_compute. split; reflexivity. Qed.



End WagerFacts.

(** * Order books: comparator, sizes, line groups, line order *)

Module MarketFacts.
Import MarketData.

(** C5. The comparator on nullable American odds: an unpriced value is
    never better, and a priced value is better than an unpriced one; of two
    positive values the larger is better; of two negative values the one of
    smaller absolute value; a positive value is better than a negative one
    and not the other way round; no value is better than itself; and the five
    listed instances evaluate as listed. *)
Theorem american_odds_comparator :
  (forall current, _is_better_odds None current = false) /\
  (forall n, _is_better_odds (Some n) None = true) /\
  (forall n c, 0 < n -> 0 < c ->
     _is_better_odds (Some n) (Some c) = true <-> c < n) /\
  (forall n c, n < 0 -> c < 0 ->
     _is_better_odds (Some n) (Some c) = true <-> Z.abs n < Z.abs c) /\
  (forall n c, 0 < n -> c < 0 ->
     _is_better_odds (Some n) (Some c) = true /\
     _is_better_odds (Some c) (Some n) = false) /\
  (forall x, _is_better_odds x x = false) /\
  _is_better_odds (Some 200) (Some 150) = true /\
  _is_better_odds (Some (-110)) (Some (-150)) = true /\
  _is_better_odds (Some 100) (Some (-100)) = true /\
  _is_better_odds None (Some 150) = false /\
  _is_better_odds (Some 150) None = true.
Proof.
  repeat match goal with |- _ /\ _ => split end; try reflexivity.
  - by intros [c|].
  - intros n c Hn Hc. unfold _is_better_odds.
    destruct (Z.ltb_spec 0 n), (Z.ltb_spec 0 c); try lia. simpl.
    apply Z.ltb_lt.
  - intros n c Hn Hc. unfold _is_better_odds.
    destruct (Z.ltb_spec 0 n), (Z.ltb_spec 0 c); try lia. simpl.
    destruct (Z.ltb_spec n 0), (Z.ltb_spec c 0); try lia. simpl.
    apply Z.ltb_lt.
  - intros n c Hn Hc. unfold _is_better_odds.
    destruct (Z.ltb_spec 0 n), (Z.ltb_spec 0 c), (Z.ltb_spec n 0),
      (Z.ltb_spec c 0); try lia; done.
  - intros [x|]; [|done]. unfold _is_better_odds.
    destruct (Z.ltb_spec 0 x), (Z.ltb_spec x 0); simpl; try lia;
      try reflexivity; apply Z.ltb_irrefl.
Qed.

Lemma american_odds_comparator_witness :
  (_is_better_odds (Some 200) (Some 150) = true <-> 150 < 200) /\
  (_is_better_odds (Some (-110)) (Some (-150)) = true <-> Z.abs (-110) < Z.abs (-150)) /\
  (_is_better_odds (Some 100) (Some (-100)) = true /\
   _is_better_odds (Some (-100)) (Some 100) = false).
Proof.
  destruct american_odds_comparator as (_ & _ & Hpos & Hneg & Hmix & _).
  split; [apply Hpos; lia|]. split; [apply Hneg; lia|]. apply Hmix; lia.
Defined.

(** *** Sizes in the flat-selection algorithm *)





(** *** Line groups and the flat map *)

Lemma levels_at_put (ob : OrderBook) (line name : string)
    (xs : list SelectionLevel) (line' name' : string) :
  levels_at
    (with_line_groups
       (dict_set line
          (dict_set name xs (default [] (dict_get line (line_groups ob))))
          (line_groups ob)) ob) line' name'
  = if decide (line = line' /\ name = name') then xs
    else levels_at ob line' name'.
Proof.
  unfold levels_at. simpl.
  destruct (decide (line = line')) as [<-|Hline].
  - rewrite dict_get_set_eq. simpl.
    destruct (decide (name = name')) as [<-|Hname].
    + rewrite dict_get_set_eq. by rewrite decide_True.
    + rewrite dict_get_set_ne by done. rewrite decide_False by tauto. done.
  - rewrite dict_get_set_ne by done. rewrite decide_False by tauto. done.
Qed.

Lemma levels_at_new_group (ob : OrderBook) (line line' name' : string) :
  dict_mem line (line_groups ob) = false ->
  levels_at (with_line_groups (dict_set line [] (line_groups ob)) ob)
            line' name'
  = levels_at ob line' name'.
Proof.
  unfold levels_at, dict_mem. simpl. intros Hnew.
  destruct (decide (line = line')) as [<-|Hline].
  - rewrite dict_get_set_eq. by destruct (dict_get line (line_groups ob)).
  - by rewrite dict_get_set_ne.
Qed.

Lemma indexed_same (ob ob' : OrderBook) :
  selections ob' = selections ob ->
  (forall line name, levels_at ob' line name = levels_at ob line name) ->
  indexed ob -> indexed ob'.
Proof.
  intros Hsel Hlev Hob line name level Hin. rewrite Hlev in Hin.
  destruct (Hob line name level Hin) as (stored & Hget & Hid & l & n & Hst).
  exists stored. rewrite Hsel. repeat split; try done.
  exists l, n. by rewrite Hlev.
Qed.

Lemma append_level_indexed (line name : string) (level : SelectionLevel)
    (ob : OrderBook) :
  indexed ob -> indexed (append_level line name level ob).
Proof.
  intros Hob.
  set (ob' := append_level line name level ob).
  assert (forall line' name',
            levels_at ob' line' name'
            = if decide (line = line' /\ name = name')
              then levels_at ob line name ++ [level]
              else levels_at ob line' name') as Hlev.
  { intros line' name'. unfold ob', append_level.
    change (levels_at (with_selections ?s ?o) line' name')
      with (levels_at o line' name').
    apply levels_at_put. }
  assert (forall l n x, x ∈ levels_at ob l n -> x ∈ levels_at ob' l n) as Hmono.
  { intros l n x Hx. rewrite Hlev.
    destruct (decide (line = l /\ name = n)) as [[<- <-]|_]; [|done].
    apply elem_of_app. by left. }
  assert (level ∈ levels_at ob' line name) as Hnew.
  { rewrite Hlev, decide_True by done.
    apply elem_of_app. right. apply list_elem_of_here. }
  intros line' name' level0 Hin. unfold has_entry.
  change (selections ob')
    with (dict_set (selection_id level) level (selections ob)).
  destruct (decide (selection_id level = selection_id level0)) as [Heq|Hne].
  - exists level. rewrite <- Heq, dict_get_set_eq.
    repeat split; try done. by exists line, name.
  - assert (level0 ∈ levels_at ob line' name') as Hold.
    { rewrite Hlev in Hin.
      destruct (decide (line = line' /\ name = name')) as [[<- <-]|_];
        [|done].
      apply elem_of_app in Hin as [Hin|Hin]; [done|].
      apply list_elem_of_singleton in Hin. by subst. }
    destruct (Hob line' name' level0 Hold)
      as (stored & Hget & Hid & l & n & Hst).
    exists stored. rewrite dict_get_set_ne by done.
    repeat split; try done. exists l, n. by apply Hmono.
Qed.

Lemma store_name_indexed (line : string) (now : Q) (ob : OrderBook)
    (entry : string * list LevelData) :
  indexed ob -> indexed (store_name line now ob entry).
Proof.
  intros Hob. unfold store_name.
  apply fold_left_preserves.
  - intros ob' ld. apply append_level_indexed.
  - destruct (dict_mem (fst entry) _) eqn:Hmem; [done|].
    apply (indexed_same ob); [done| |done].
    intros line' name'. rewrite levels_at_put.
    destruct (decide (line = line' /\ fst entry = name')) as [[<- <-]|_];
      [|done].
    unfold levels_at, dict_mem in *.
    by destruct (dict_get (fst entry) _).
Qed.

Section line_grouped.
Variable py_hash : string -> Z.
Variable str_of_value : Q -> string.
Variable float_of_str : string -> option Q.

Lemma process_line_indexed (now : Q) (ob : OrderBook) (line : MarketLine) :
  indexed ob -> indexed (process_line py_hash str_of_value now ob line).
Proof.
  intros Hob. unfold process_line.
  apply fold_left_preserves.
  - intros ob' entry. apply store_name_indexed.
  - destruct (dict_mem (line_value line) (line_groups ob)) eqn:Hmem; [done|].
    apply (indexed_same ob); [done| |done].
    intros line' name'.
    change (levels_at (with_available_lines ?a ?o) line' name')
      with (levels_at o line' name').
    by apply levels_at_new_group.
Qed.

Lemma process_market_lines_indexed (ob : OrderBook) (l : MarketLine)
    (ls : list MarketLine) (now : Q) :
  indexed (_process_market_lines py_hash str_of_value float_of_str ob
             (l :: ls) now).
Proof.
  unfold _process_market_lines.
  set (ob1 := fold_left _ _ _).
  assert (indexed ob1) as H1.
  { apply fold_left_preserves.
    - intros ob' line. apply process_line_indexed.
    - intros line name level Hin. by apply elem_of_nil in Hin. }
  by apply (indexed_same ob1).
Qed.
End line_grouped.




(** *** The order of [available_lines] *)

Lemma add_lines_elem (xs acc : list string) (x : string) :
  x ∈ fold_left add_line xs acc <-> x ∈ acc \/ x ∈ xs.
Proof.
  revert acc. induction xs as [|y xs IH]; intros acc; simpl.
  - rewrite elem_of_nil. tauto.
  - rewrite IH, elem_of_cons. unfold add_line. case_bool_decide as Hy.
    + split; [tauto|]. intros [?|[->|?]]; auto.
    + rewrite elem_of_app, list_elem_of_singleton. tauto.
Qed.

Lemma add_lines_NoDup (xs acc : list string) :
  NoDup acc -> NoDup (fold_left add_line xs acc).
Proof.
  revert acc. induction xs as [|y xs IH]; intros acc Hnd; simpl; [done|].
  apply IH. unfold add_line. case_bool_decide as Hy; [done|].
  apply NoDup_app. split; [done|]. split; [|apply NoDup_singleton].
  intros x Hx Hx'. apply list_elem_of_singleton in Hx'. by subst.
Qed.

Lemma append_level_lines (line name : string) (level : SelectionLevel)
    (ob : OrderBook) :
  line ∈ dict_keys (line_groups ob) ->
  dict_keys (line_groups (append_level line name level ob))
    = dict_keys (line_groups ob) /\
  available_lines (append_level line name level ob) = available_lines ob.
Proof.
  intros Hin. unfold append_level. simpl. split; [|done].
  by apply dict_keys_set_mem.
Qed.

Lemma store_name_lines (line : string) (now : Q) (ob : OrderBook)
    (entry : string * list LevelData) :
  line ∈ dict_keys (line_groups ob) ->
  dict_keys (line_groups (store_name line now ob entry))
    = dict_keys (line_groups ob) /\
  available_lines (store_name line now ob entry) = available_lines ob.
Proof.
  intros Hin. unfold store_name.
  apply (fold_left_preserves
           (fun o => dict_keys (line_groups o) = dict_keys (line_groups ob) /\
                     available_lines o = available_lines ob)).
  - intros o ld [Hk Ha].
    destruct (append_level_lines line (fst entry)
                (level_of_data now (fst entry) ld) o) as [Hk' Ha'];
      [by rewrite Hk|]. split; congruence.
  - destruct (dict_mem (fst entry) _); [done|]. simpl. split; [|done].
    by apply dict_keys_set_mem.
Qed.

Section line_order.
Variable py_hash : string -> Z.
Variable str_of_value : Q -> string.
Variable float_of_str : string -> option Q.
Local Abbreviation numeric_or_na := (MarketData.numeric_or_na float_of_str).
Local Abbreviation by_line_key := (MarketData.by_line_key float_of_str).

Lemma process_line_lines (now : Q) (ob : OrderBook) (line : MarketLine) :
  lines_in_step ob ->
  lines_in_step (process_line py_hash str_of_value now ob line) /\
  available_lines (process_line py_hash str_of_value now ob line)
    = add_line (available_lines ob) (line_value line).
Proof.
  unfold lines_in_step. intros Hstep. unfold process_line.
  set (lv := line_value line).
  set (ob1 := if dict_mem lv (line_groups ob) then ob else _).
  assert (dict_keys (line_groups ob1) = available_lines ob1 /\
          available_lines ob1 = add_line (available_lines ob) lv /\
          lv ∈ dict_keys (line_groups ob1)) as (Hk1 & Ha1 & Hin1).
  { unfold ob1, add_line. destruct (dict_mem lv (line_groups ob)) eqn:Hmem.
    - apply dict_mem_keys in Hmem. rewrite bool_decide_true by congruence.
      done.
    - assert (lv ∉ dict_keys (line_groups ob)) as Hnot.
      { intros Hin. apply dict_mem_keys in Hin. congruence. }
      rewrite bool_decide_false by congruence. simpl.
      rewrite dict_keys_set, Hmem, Hstep. split; [done|]. split; [done|].
      apply elem_of_app. right. apply list_elem_of_here. }
  match goal with |- context [fold_left ?f ?l ob1] =>
    assert (dict_keys (line_groups (fold_left f l ob1))
              = dict_keys (line_groups ob1) /\
            available_lines (fold_left f l ob1) = available_lines ob1)
      as [Hk Ha]
  end.
  { apply (fold_left_preserves
             (fun o => dict_keys (line_groups o) = dict_keys (line_groups ob1) /\
                       available_lines o = available_lines ob1)); [|done].
    intros o entry [Hk Ha].
    destruct (store_name_lines lv now o entry) as [Hk' Ha'];
      [by rewrite Hk|]. split; congruence. }
  split; congruence.
Qed.

Lemma fold_lines_available (now : Q) (lines : list MarketLine)
    (ob : OrderBook) :
  lines_in_step ob ->
  available_lines (fold_left (process_line py_hash str_of_value now) lines ob)
    = fold_left add_line (map line_value lines) (available_lines ob).
Proof.
  revert ob. induction lines as [|line lines IH]; intros ob Hstep; [done|].
  simpl. destruct (process_line_lines now ob line Hstep) as [Hstep' Ha].
  rewrite IH by done. by rewrite Ha.
Qed.

Lemma available_lines_computed (ob : OrderBook) (l : MarketLine)
    (ls : list MarketLine) (now : Q) :
  available_lines
    (_process_market_lines py_hash str_of_value float_of_str ob (l :: ls) now)
  = sort_available_lines float_of_str
      (first_occurrences (map line_value (l :: ls))).
Proof.
  unfold _process_market_lines.
  change (available_lines (with_available_lines ?a ?o)) with a.
  by rewrite fold_lines_available.
Qed.

Lemma line_key_defined (x : string) :
  is_Some (line_key float_of_str x) <-> numeric_or_na x.
Proof.
  unfold line_key, numeric_or_na.
  destruct (String.eqb_spec x "N/A") as [->|Hne].
  - split; [by left | by eexists].
  - rewrite fmap_is_Some. split; [by right | by intros [?|?]].
Qed.

Lemma keys_all_defined (r : list string) :
  forallb (fun x => bool_decide (is_Some (line_key float_of_str x))) r = true
  <-> Forall numeric_or_na r.
Proof.
  rewrite forallb_forall, Forall_forall. split; intros H x Hx.
  - apply line_key_defined. eapply bool_decide_unpack, Is_true_true, H.
    by apply list_elem_of_In.
  - apply bool_decide_eq_true, line_key_defined, H. by apply list_elem_of_In.
Qed.

Lemma numeric_sort_sorted (r : list string) :
  float_of_str "N/A" = None ->
  Forall numeric_or_na r ->
  StronglySorted
    (fun a b => numeric_then_alphabetical float_of_str a b = true)
    (py_sorted by_line_key r).
Proof.
  intros Hna Hr.
  apply (strongly_sorted_weaken (fun a b => by_line_key a b = true)).
  - intros x y Hx Hy. rewrite py_sorted_elem in Hx, Hy.
    rewrite Forall_forall in Hr.
    pose proof (Hr x Hx) as Hkx. pose proof (Hr y Hy) as Hky.
    unfold by_line_key, line_key, numeric_then_alphabetical.
    destruct (String.eqb_spec x "N/A") as [->|Hx'];
      destruct (String.eqb_spec y "N/A") as [->|Hy']; rewrite ?Hna.
    + done.
    + destruct Hky as [?|[q ->]]; done.
    + destruct Hkx as [?|[q ->]]; done.
    + destruct Hkx as [?|[qx ->]]; [done|].
      destruct Hky as [?|[qy ->]]; done.
  - apply (py_sorted_sorted by_line_key numeric_or_na); [| |done].
    + intros x y Hx Hy. apply line_key_defined in Hx as [kx Hx].
      apply line_key_defined in Hy as [ky Hy].
      unfold by_line_key. rewrite Hx, Hy. apply key_le_total.
    + intros x y z Hx Hy Hz. apply line_key_defined in Hx as [kx Hx].
      apply line_key_defined in Hy as [ky Hy].
      apply line_key_defined in Hz as [kz Hz].
      unfold by_line_key. rewrite Hx, Hy, Hz. apply key_le_trans.
Qed.

Lemma alphabetical_sort_sorted (r : list string) :
  StronglySorted (fun a b => String.leb a b = true) (py_sorted String.leb r).
Proof.
  apply (py_sorted_sorted String.leb (fun _ => True)).
  - intros x y _ _. apply String.leb_total.
  - intros x y z _ _ _ Hxy Hyz. apply Is_true_true.
    apply (transitivity (R := String.le) (y := y)); by apply Is_true_true.
  - by apply Forall_forall.
Qed.

Lemma sort_available_lines_cases (r : list string) :
  (Forall numeric_or_na r /\
   sort_available_lines float_of_str r = py_sorted by_line_key r) \/
  (~ Forall numeric_or_na r /\
   sort_available_lines float_of_str r = py_sorted String.leb r).
Proof.
  unfold sort_available_lines, py_sort_by_key.
  destruct (forallb _ r) eqn:Hall.
  - left. split; [by apply keys_all_defined | done].
  - right. split; [|done]. intros Hr. apply keys_all_defined in Hr.
    congruence.
Qed.
End line_order.




End MarketFacts.

(** * Notification fan-out *)

Module HubFacts.
Import Hub.

Section fanout_facts.
Context {Id Env Args : Type}.
Variable call : Id -> Args -> HubState Id Env -> Signal * HubState Id Env.

Lemma guarded_call_normal (message : string) (callback : Id) (args : Args)
    (s : HubState Id Env) :
  fst (guarded_call call message callback args s) = Normal.
Proof.
  unfold guarded_call. destruct (call callback args s) as [[|e] s']; done.
Qed.

Lemma guarded_call_registry (message : string) (callback : Id) (args : Args)
    (s : HubState Id Env) :
  subscribers (snd (guarded_call call message callback args s))
    = subscribers (snd (call callback args s)).
Proof.
  unfold guarded_call. destruct (call callback args s) as [[|e] s']; done.
Qed.

Lemma for_each_callback_all (message : string) (args : Args) :
  keeps_registry call ->
  forall (fuel i : nat) (s : HubState Id Env) (invoked : list Id),
    (length (subscribers s) - i < fuel)%nat ->
    exists s',
      for_each_callback call fuel message i args s invoked
        = Some (Normal, s', invoked ++ drop i (subscribers s)) /\
      subscribers s' = subscribers s.
Proof.
  intros Hkeep. induction fuel as [|fuel IH]; intros i s invoked Hfuel;
    [lia|].
  simpl. destruct (subscribers s !! i) as [callback|] eqn:Hi.
  - pose proof (guarded_call_normal message callback args s) as Hn.
    pose proof (guarded_call_registry message callback args s) as Hr.
    rewrite Hkeep in Hr.
    destruct (guarded_call call message callback args s) as [signal s1].
    simpl in Hn, Hr. subst signal.
    apply lookup_lt_Some in Hi as Hlt.
    destruct (IH (S i) s1 (invoked ++ [callback])) as (s' & Hrun & Hsub).
    { rewrite Hr. lia. }
    exists s'. rewrite Hrun, Hr, Hsub. split; [|done].
    rewrite (drop_S _ _ _ Hi). by rewrite <- app_assoc.
  - exists s. split; [|done]. apply lookup_ge_None in Hi.
    rewrite drop_ge by done. by rewrite app_nil_r.
Qed.

End fanout_facts.



End HubFacts.

Lemma Qltb_ge (a b : Q) : Qltb a b = false <-> (b <= a)%Q.
Proof.
  unfold Qltb. rewrite negb_false_iff. apply Qle_bool_iff.
Qed.

(** * Sorting keeps the elements *)

Lemma insert_by_Permutation {A : Type} (le : A -> A -> bool) (x : A)
    (l : list A) :
  insert_by le x l ≡ₚ x :: l.
Proof.
  induction l as [|y l IH]; simpl; [done|].
  destruct (le x y); [done|]. rewrite IH. apply Permutation_swap.
Qed.

Lemma py_sorted_Permutation {A : Type} (le : A -> A -> bool) (l : list A) :
  py_sorted le l ≡ₚ l.
Proof.
  induction l as [|x l IH]; simpl; [done|].
  by rewrite insert_by_Permutation, IH.
Qed.

Lemma strongly_sorted_map {A B : Type} (f : A -> B) (R : B -> B -> Prop)
    (l : list A) :
  StronglySorted (fun x y => R (f x) (f y)) l -> StronglySorted R (map f l).
Proof.
  induction 1 as [|x l Hs IH Hx]; simpl; constructor; [done|].
  apply Forall_map. exact Hx.
Qed.

(** * Filtering up to order *)

Lemma bfilter_Permutation {A : Type} (f : A -> bool) (l l' : list A) :
  l ≡ₚ l' -> List.filter f l ≡ₚ List.filter f l'.
Proof.
  induction 1 as [|x l l' _ IH|x y l|l l' l'' _ IH1 _ IH2]; simpl.
  - done.
  - destruct (f x); by rewrite IH.
  - destruct (f x), (f y); try done. apply Permutation_swap.
  - by rewrite IH1.
Qed.

Lemma bfilter_sublist {A : Type} (f : A -> bool) (l : list A) :
  List.filter f l `sublist_of` l.
Proof.
  induction l as [|x l IH]; simpl; [done|].
  destruct (f x); [by apply sublist_skip | by apply sublist_cons].
Qed.

Lemma bfilter_all {A : Type} (f : A -> bool) (l : list A) :
  Forall (fun x => f x = true) l -> List.filter f l = l.
Proof.
  induction 1 as [|x l Hx _ IH]; simpl; [done|]. by rewrite Hx, IH.
Qed.

Lemma bfilter_none {A : Type} (f : A -> bool) (l : list A) :
  Forall (fun x => f x = false) l -> List.filter f l = [].
Proof.
  induction 1 as [|x l Hx _ IH]; simpl; [done|]. by rewrite Hx, IH.
Qed.

(** * Sums of amounts *)

Lemma py_sum_snoc (l : list Q) (x : Q) : py_sum (l ++ [x]) = (py_sum l + x)%Q.
Proof. unfold py_sum. by rewrite fold_left_app. Qed.

Lemma fold_left_Qplus_start (l : list Q) (a : Q) :
  (fold_left Qplus l a == a + py_sum l)%Q.
Proof.
  unfold py_sum. revert a. induction l as [|x l IH]; intros a; simpl.
  - lra.
  - rewrite (IH (a + x)%Q), (IH (0 + x)%Q). lra.
Qed.

Lemma py_sum_cons (x : Q) (l : list Q) : (py_sum (x :: l) == x + py_sum l)%Q.
Proof.
  unfold py_sum at 1. simpl. rewrite fold_left_Qplus_start. lra.
Qed.

Lemma py_sum_nonneg (l : list Q) :
  Forall (fun x => (0 <= x)%Q) l -> (0 <= py_sum l)%Q.
Proof.
  induction 1 as [|x l Hx Hl IH]; [unfold py_sum; simpl; lra|].
  rewrite py_sum_cons. lra.
Qed.

Lemma py_sum_filter_le {A : Type} (f : A -> bool) (g : A -> Q) (l : list A) :
  Forall (fun a => (0 <= g a)%Q) l ->
  (py_sum (map g (List.filter f l)) <= py_sum (map g l))%Q.
Proof.
  induction 1 as [|a l Ha Hl IH]; simpl; [lra|].
  destruct (f a); simpl; rewrite ?py_sum_cons; lra.
Qed.

Section dict_more_facts.
Context {K V : Type} `{EqDecision K}.
Implicit Types (d : list (K * V)) (k : K) (v : V).

Lemma dict_get_pop_ne k k' d :
  k <> k' -> dict_get k' (dict_pop k d) = dict_get k' d.
Proof.
  intros Hne. induction d as [|[k0 v0] d IH]; simpl; [done|].
  destruct (decide (k = k0)) as [->|Hk]; simpl.
  - by rewrite decide_False by congruence.
  - by rewrite IH.
Qed.

Lemma dict_pop_set_fresh k v d :
  dict_get k d = None -> dict_pop k (dict_set k v d) = d.
Proof.
  induction d as [|[k0 v0] d IH]; simpl; intros Hnone.
  - by rewrite decide_True.
  - destruct (decide (k = k0)); [done|]. simpl.
    rewrite decide_False by done. by rewrite IH.
Qed.

Lemma dict_set_fresh k v d :
  dict_get k d = None -> dict_set k v d = d ++ [(k, v)].
Proof.
  induction d as [|[k0 v0] d IH]; simpl; intros Hnone; [done|].
  destruct (decide (k = k0)); [done|]. by rewrite IH.
Qed.

Lemma dict_set_length k v d :
  length (dict_set k v d)
  = if dict_mem k d then length d else S (length d).
Proof.
  unfold dict_mem. induction d as [|[k0 v0] d IH]; simpl; [done|].
  destruct (decide (k = k0)); simpl; [done|].
  rewrite IH. by destruct (dict_get k d).
Qed.

Lemma dict_pop_length k d :
  length (dict_pop k d)
  = if dict_mem k d then pred (length d) else length d.
Proof.
  unfold dict_mem. induction d as [|[k0 v0] d IH]; simpl; [done|].
  destruct (decide (k = k0)); simpl; [done|].
  rewrite IH. destruct (dict_get k d) eqn:E; [|done].
  destruct d; [done|]. done.
Qed.

Lemma dict_values_set_elem k v d x :
  x ∈ dict_values (dict_set k v d) -> x = v \/ x ∈ dict_values d.
Proof.
  induction d as [|[k0 v0] d IH]; simpl.
  - rewrite list_elem_of_singleton. tauto.
  - destruct (decide (k = k0)); simpl; rewrite !elem_of_cons; [tauto|].
    intros [?|?]; [tauto|]. destruct IH; tauto.
Qed.

Lemma dict_values_pop_elem k d x :
  x ∈ dict_values (dict_pop k d) -> x ∈ dict_values d.
Proof.
  induction d as [|[k0 v0] d IH]; simpl; [done|].
  destruct (decide (k = k0)); simpl; rewrite !elem_of_cons; tauto.
Qed.

Lemma dict_get_values k v d : dict_get k d = Some v -> v ∈ dict_values d.
Proof.
  induction d as [|[k0 v0] d IH]; simpl; [done|].
  destruct (decide (k = k0)); rewrite elem_of_cons.
  - intros [= ->]. by left.
  - intros Hget. right. by apply IH.
Qed.
Lemma dict_set_sum_le (g : V -> Q) k v d :
  Forall (fun x => (0 <= g x)%Q) (dict_values d) ->
  (py_sum (map g (dict_values (dict_set k v d)))
   <= py_sum (map g (dict_values d)) + g v)%Q.
Proof.
  induction d as [|[k0 v0] d IH]; simpl; intros Hpos.
  - rewrite py_sum_cons. unfold py_sum. simpl. lra.
  - apply Forall_cons in Hpos as [H0 Hpos].
    destruct (decide (k = k0)); simpl; rewrite !py_sum_cons.
    + simpl in H0. lra.
    + specialize (IH Hpos). lra.
Qed.

Lemma dict_pop_sum_le (g : V -> Q) k d :
  Forall (fun x => (0 <= g x)%Q) (dict_values d) ->
  (py_sum (map g (dict_values (dict_pop k d)))
   <= py_sum (map g (dict_values d)))%Q.
Proof.
  induction d as [|[k0 v0] d IH]; simpl; intros Hpos; [lra|].
  apply Forall_cons in Hpos as [H0 Hpos].
  destruct (decide (k = k0)); simpl; rewrite !py_sum_cons.
  - simpl in H0. lra.
  - specialize (IH Hpos). lra.
Qed.

Lemma dict_mem_set k k' v d :
  dict_mem k' d = true -> dict_mem k' (dict_set k v d) = true.
Proof.
  unfold dict_mem. destruct (decide (k = k')) as [->|Hne].
  - by rewrite dict_get_set_eq.
  - by rewrite dict_get_set_ne.
Qed.

Lemma dict_get_of_item k v d :
  NoDup (dict_keys d) -> (k, v) ∈ d -> dict_get k d = Some v.
Proof.
  induction d as [|[k0 v0] d IH]; simpl; intros Hnd Hin.
  - by apply elem_of_nil in Hin.
  - apply NoDup_cons in Hnd as [Hk0 Hnd].
    apply elem_of_cons in Hin as [[= -> ->]|Hin].
    + by rewrite decide_True.
    + rewrite decide_False; [by apply IH|]. intros ->. apply Hk0.
      unfold dict_keys. apply list_elem_of_fmap. by exists (k0, v).
Qed.

Lemma fold_set_values {A : Type} (f : A -> K) (g : A -> V) (l : list A) d x :
  x ∈ dict_values (fold_left (fun acc a => dict_set (f a) (g a) acc) l d) ->
  x ∈ dict_values d \/ exists a, a ∈ l /\ x = g a.
Proof.
  revert d. induction l as [|a l IH]; simpl; intros d Hx; [by left|].
  apply IH in Hx as [Hx|(a' & Ha' & ->)].
  - apply dict_values_set_elem in Hx as [->|Hx]; [|by left].
    right. exists a. split; [apply list_elem_of_here | done].
  - right. exists a'. split; [by apply list_elem_of_further | done].
Qed.

Lemma fold_set_NoDup {A : Type} (f : A -> K) (g : A -> V) (l : list A) d :
  NoDup (dict_keys d) ->
  NoDup (dict_keys (fold_left (fun acc a => dict_set (f a) (g a) acc) l d)).
Proof.
  revert d. induction l as [|a l IH]; simpl; intros d Hnd; [done|].
  by apply IH, dict_keys_set_NoDup.
Qed.

Lemma dict_mem_set_iff k k' v d :
  dict_mem k' (dict_set k v d) = true <-> k' = k \/ dict_mem k' d = true.
Proof.
  unfold dict_mem. destruct (decide (k = k')) as [->|Hne].
  - rewrite dict_get_set_eq. split; [by left | done].
  - rewrite dict_get_set_ne by done. split; [by right|].
    intros [->|H]; done.
Qed.

Lemma dict_mem_pop k k' d :
  NoDup (dict_keys d) ->
  dict_mem k' (dict_pop k d) = true -> k' <> k /\ dict_mem k' d = true.
Proof.
  intros Hnd. unfold dict_mem. destruct (decide (k = k')) as [->|Hne].
  - by rewrite dict_get_pop_eq.
  - rewrite dict_get_pop_ne by done. intros H. split; [congruence | done].
Qed.

Lemma dict_values_pop_Permutation k v d :
  dict_get k d = Some v -> dict_values d ≡ₚ v :: dict_values (dict_pop k d).
Proof.
  induction d as [|[k0 v0] d IH]; simpl; [done|].
  destruct (decide (k = k0)); simpl.
  - by intros [= ->].
  - intros Hget. rewrite (IH Hget). apply Permutation_swap.
Qed.

Lemma dict_pop_Forall (P : K * V -> Prop) k d :
  Forall P d -> Forall P (dict_pop k d).
Proof.
  induction 1 as [|[k0 v0] d H0 Hd IH]; simpl; [done|].
  destruct (decide (k = k0)); [done|]. by constructor.
Qed.

Lemma dict_values_item v d : v ∈ dict_values d -> exists k, (k, v) ∈ d.
Proof.
  unfold dict_values. intros Hin.
  apply list_elem_of_fmap in Hin as ([k v'] & -> & Hin). by exists k.
Qed.

End dict_more_facts.

(** * The wager manager: cancellations, placements, counters, bounds *)

Module WagerExtras.
Import WagerMgr WagerFacts.

(** Cancelling an id that is not in the active set returns [False] without
    a transport call and leaves the manager as it was. *)
Theorem cancel_unknown_wager (id reason : string) (now : Q)
    (reply : ApiReply bool) (p : Platform) :
  get_wager_by_id (wager_manager p) id = None ->
  result_of (cancel_wager id reason now reply) p = (false, []) /\
  wager_manager (state_after (cancel_wager id reason now reply) p)
    = wager_manager p.
Proof.
  unfold get_wager_by_id, cancel_wager, cancel_wager_begin, dict_mem.
  intros Hnone. run_methods. rewrite Hnone. simpl. split; [done|].
  by destruct (wager_manager p).
Qed.

Lemma cancel_unknown_wager_witness :
  result_of (cancel_wager "nonexistent" "strategy_request" 1 (Reply true))
            (new_platform default_trading_config default_risk_config 0)
  = (false, []).
Proof.
  apply (cancel_unknown_wager "nonexistent" "strategy_request" 1 (Reply true)).
  reflexivity.
Defined.

Lemma cancel_wager_found (id reason : string) (now : Q)
    (reply : ApiReply bool) (p : Platform) (record : WagerRecord) :
  dict_get id (active_wagers (wager_manager p)) = Some record ->
  let m := wager_manager p in
  let pending := delete id (<[id := reason]> (pending_cancellations m)) in
  result_of (cancel_wager id reason now reply) p
    = (match reply with Reply true => true | _ => false end,
       [ApiCancelWager id]) /\
  wager_manager (state_after (cancel_wager id reason now reply) p)
    = match reply with
      | Reply true =>
          mkWagerManager (trading_config m) (dict_pop id (active_wagers m))
            (wager_history m ++ [cancelled_at now record])
            (pending_placements m) pending (total_placed m)
            (total_cancelled m + 1) (total_matched m) (total_settled m)
      | _ => with_pending_cancellations pending m
      end.
Proof.
  unfold cancel_wager, cancel_wager_begin, cancel_wager_resume, dict_mem.
  intros Hget. run_methods. rewrite Hget. simpl.
  destruct reply as [[]|]; simpl; rewrite ?Hget; simpl; done.
Qed.

(** A cancellation the transport confirms moves the record from the active
    set to the end of the history, marked [CANCELLED] and stamped with the
    time of the cancellation; the id can no longer be looked up, every other
    active wager stays, and the id is no longer pending cancellation. *)
Theorem cancel_confirmed (id reason : string) (now : Q) (p : Platform)
    (record : WagerRecord) :
  NoDup (dict_keys (active_wagers (wager_manager p))) ->
  get_wager_by_id (wager_manager p) id = Some record ->
  let m := wager_manager p in
  let m' := wager_manager
              (state_after (cancel_wager id reason now (Reply true)) p) in
  result_of (cancel_wager id reason now (Reply true)) p
    = (true, [ApiCancelWager id]) /\
  get_wager_by_id m' id = None /\
  (forall id', id' <> id -> get_wager_by_id m' id' = get_wager_by_id m id') /\
  wager_history m' = wager_history m ++ [cancelled_at now record] /\
  status (wager (cancelled_at now record)) = CANCELLED /\
  updated_at (cancelled_at now record) = now /\
  total_cancelled m' = total_cancelled m + 1 /\
  total_placed m' = total_placed m /\
  pending_cancellations m' !! id = None.
Proof.
  intros Hnd Hget. unfold get_wager_by_id in *. cbv zeta.
  destruct (cancel_wager_found id reason now (Reply true) p record Hget)
    as [Hres Hm].
  split; [exact Hres|]. rewrite Hm. simpl.
  split; [by apply dict_get_pop_eq|].
  split; [intros id' Hne; by apply dict_get_pop_ne|].
  repeat (split; [reflexivity|]). apply lookup_delete_eq.
Qed.

Lemma cancel_confirmed_witness :
  let w := mkWager "w-1" 7 (-110) 5 0 "" PENDING None 0 None in
  let p0 := new_platform default_trading_config default_risk_config 0 in
  let p := state_after (place_wager w "mm" None 1 1 (Reply (Some 42))) p0 in
  get_wager_by_id
    (wager_manager (state_after (cancel_wager "w-1" "r" 2 (Reply true)) p))
    "w-1" = None.
Proof.
  intros w p0 p.
  assert (NoDup (dict_keys (active_wagers (wager_manager p)))) as Hnd.
  { vm_compute. apply NoDup_singleton. }
  assert (get_wager_by_id (wager_manager p) "w-1"
          = Some (mkWagerRecord w 1 1 "mm" [])) as Hget by reflexivity.
  exact (proj1 (proj2 (cancel_confirmed "w-1" "r" 2 p _ Hnd Hget))).
Defined.

(** A cancellation the transport refuses, or that fails with an exception,
    returns [False] and leaves the active set, the history and the counters
    as they were; the id is not left pending cancellation. *)
Theorem cancel_refused (id reason : string) (now : Q)
    (reply : ApiReply bool) (p : Platform) (record : WagerRecord) :
  get_wager_by_id (wager_manager p) id = Some record ->
  reply = Reply false \/ reply = Raises ->
  let m := wager_manager p in
  let m' := wager_manager (state_after (cancel_wager id reason now reply) p) in
  result_of (cancel_wager id reason now reply) p
    = (false, [ApiCancelWager id]) /\
  active_wagers m' = active_wagers m /\
  wager_history m' = wager_history m /\
  total_cancelled m' = total_cancelled m /\
  pending_cancellations m' !! id = None.
Proof.
  intros Hget Hreply. unfold get_wager_by_id in *. cbv zeta.
  destruct (cancel_wager_found id reason now reply p record Hget)
    as [Hres Hm].
  rewrite Hres, Hm.
  destruct Hreply as [-> | ->]; simpl;
    repeat (split; [reflexivity|]); apply lookup_delete_eq.
Qed.

Lemma cancel_refused_witness :
  let w := mkWager "w-1" 7 (-110) 5 0 "" PENDING None 0 None in
  let p0 := new_platform default_trading_config default_risk_config 0 in
  let p := state_after (place_wager w "mm" None 1 1 (Reply (Some 42))) p0 in
  result_of (cancel_wager "w-1" "r" 2 Raises) p
  = (false, [ApiCancelWager "w-1"]).
Proof.
  intros w p0 p.
  assert (get_wager_by_id (wager_manager p) "w-1"
          = Some (mkWagerRecord w 1 1 "mm" [])) as Hget by reflexivity.
  exact (proj1 (cancel_refused "w-1" "r" 2 Raises p _ Hget
                  (or_intror eq_refl))).
Defined.

Lemma cancel_all_outcome (reason : string) (now : Q) (reply : ApiReply bool)
    (p : Platform) :
  let m := wager_manager p in
  result_of (cancel_all_wagers reason now reply) p
    = (match reply with Reply true => true | _ => false end,
       [ApiCancelAllWagers]) /\
  wager_manager (state_after (cancel_all_wagers reason now reply) p)
    = match reply with
      | Reply true =>
          mkWagerManager (trading_config m) []
            (wager_history m ++
               map (cancelled_at now) (dict_values (active_wagers m)))
            (pending_placements m) (pending_cancellations m) (total_placed m)
            (total_cancelled m + Z.of_nat (length (active_wagers m)))
            (total_matched m) (total_settled m)
      | _ => m
      end.
Proof.
  unfold cancel_all_wagers, cancel_all_wagers_begin, cancel_all_wagers_resume.
  destruct reply as [[]|]; run_methods; (split; [done|]);
    by destruct (wager_manager p).
Qed.

(** A bulk cancellation the transport confirms empties the active set, so
    the exposure is zero; every record that was active is appended to the
    history, in enumeration order, marked [CANCELLED] and stamped with the
    same time, and [total_cancelled] grows by their number.  One the
    transport refuses, or that raises, returns [False] and changes nothing. *)
Theorem cancel_all_outcomes (reason : string) (now : Q) (p : Platform) :
  let m := wager_manager p in
  (let m' := wager_manager
               (state_after (cancel_all_wagers reason now (Reply true)) p) in
   result_of (cancel_all_wagers reason now (Reply true)) p
     = (true, [ApiCancelAllWagers]) /\
   get_active_wagers m' = [] /\
   get_total_exposure m' = 0%Q /\
   wager_history m'
     = wager_history m ++ map (cancelled_at now) (get_active_wagers m) /\
   Forall (fun r => status (wager r) = CANCELLED /\ updated_at r = now)
          (map (cancelled_at now) (get_active_wagers m)) /\
   total_cancelled m'
     = total_cancelled m + Z.of_nat (length (get_active_wagers m))) /\
  Forall (fun reply =>
            result_of (cancel_all_wagers reason now reply) p
              = (false, [ApiCancelAllWagers]) /\
            wager_manager (state_after (cancel_all_wagers reason now reply) p)
              = m)
         [Reply false; Raises].
Proof.
  cbv zeta. split.
  - destruct (cancel_all_outcome reason now (Reply true) p) as [Hres Hm].
    cbv zeta in Hm. rewrite Hres, Hm. unfold get_active_wagers. simpl.
    repeat (split; [reflexivity|]). split.
    + apply Forall_forall. intros r Hr.
      apply list_elem_of_fmap in Hr as (r0 & -> & _). done.
    + unfold dict_values. by rewrite length_map.
  - destruct (cancel_all_outcome reason now (Reply false) p) as [Hr1 Hm1].
    destruct (cancel_all_outcome reason now Raises p) as [Hr2 Hm2].
    apply Forall_cons. split; [by split|].
    apply Forall_cons. split; [by split|]. constructor.
Qed.

Lemma place_wager_reached (w : Wager) (strategy : string)
    (context : option (pydict string PyVal)) (t1 t2 : Q)
    (reply : ApiReply (option Z)) (p : Platform) :
  valid_ok w p = true -> within_limits w p = true ->
  let m := wager_manager p in
  let pending :=
    delete (external_id w) (<[external_id w := w]> (pending_placements m)) in
  result_of (place_wager w strategy context t1 t2 reply) p
    = (match reply with Reply wager_id => wager_id | Raises => None end,
       [ApiPlaceWager w]) /\
  wager_manager (state_after (place_wager w strategy context t1 t2 reply) p)
    = match reply with
      | Reply wager_id =>
          if id_truthy wager_id then
            mkWagerManager (trading_config m)
              (dict_set (external_id w)
                 (mkWagerRecord w t1 t2 strategy (default [] context))
                 (active_wagers m))
              (wager_history m) pending (pending_cancellations m)
              (total_placed m + 1) (total_cancelled m) (total_matched m)
              (total_settled m)
          else with_pending_placements pending m
      | Raises => with_pending_placements pending m
      end.
Proof.
  intros Hv Hw. cbv zeta.
  pose proof (place_begin_result w p) as Hres.
  pose proof (place_begin_manager w p) as Hmgr.
  rewrite Hv, Hw in Hres, Hmgr. simpl in Hres, Hmgr.
  unfold place_wager, result_of, state_after, bind in *.
  destruct (place_wager_begin w p) as [s p1]. simpl in Hres, Hmgr. subst s.
  unfold place_wager_resume.
  destruct reply as [wager_id|]; [destruct (id_truthy wager_id)|];
    run_methods; by rewrite Hmgr.
Qed.



(** The id [0] is an edge: [if wager_id:] takes it for a failure, so no
    record is created and [total_placed] stays, yet the call returns [0] to
    its caller, not [None]. *)
Theorem placement_with_id_zero (w : Wager) (strategy : string)
    (context : option (pydict string PyVal)) (t1 t2 : Q) (p : Platform) :
  valid_ok w p = true -> within_limits w p = true ->
  let call := place_wager w strategy context t1 t2 (Reply (Some 0)) in
  let m := wager_manager p in
  let m' := wager_manager (state_after call p) in
  result_of call p = (Some 0, [ApiPlaceWager w]) /\
  active_wagers m' = active_wagers m /\
  total_placed m' = total_placed m /\
  pending_placements m' !! external_id w = None.
Proof.
  intros Hv Hw. cbv zeta.
  destruct (place_wager_reached w strategy context t1 t2 (Reply (Some 0)) p
              Hv Hw) as [Hres Hm].
  cbv zeta in Hm. rewrite Hres, Hm. simpl.
  repeat (split; [reflexivity|]). apply lookup_delete_eq.
Qed.

Lemma placement_with_id_zero_witness :
  let w := mkWager "w-1" 7 (-110) 5 0 "" PENDING None 0 None in
  let p := new_platform default_trading_config default_risk_config 0 in
  result_of (place_wager w "mm" None 1 1 (Reply (Some 0))) p
  = (Some 0, [ApiPlaceWager w]).
Proof.
  intros w p.
  assert (valid_ok w p = true) as Hv by (vm_compute; reflexivity).
  assert (within_limits w p = true) as Hw by (vm_compute; reflexivity).
  exact (proj1 (placement_with_id_zero w "mm" None 1 1 p Hv Hw)).
Defined.

(** A placement of an id that is not active, acknowledged by the transport
    and then cancelled with the transport's confirmation, leaves the active
    set and the exposure exactly as they were before the placement; the
    history has the cancelled record as its last entry and both counters have
    grown by one. *)
Theorem place_then_cancel_round_trip (w : Wager) (strategy reason : string)
    (context : option (pydict string PyVal)) (t1 t2 now : Q) (wager_id : Z)
    (p : Platform) :
  valid_ok w p = true -> within_limits w p = true -> wager_id <> 0 ->
  get_wager_by_id (wager_manager p) (external_id w) = None ->
  let p1 := state_after
              (place_wager w strategy context t1 t2 (Reply (Some wager_id)))
              p in
  let p2 := state_after
              (cancel_wager (external_id w) reason now (Reply true)) p1 in
  let record := mkWagerRecord w t1 t2 strategy (default [] context) in
  active_wagers (wager_manager p2) = active_wagers (wager_manager p) /\
  get_total_exposure (wager_manager p2) = get_total_exposure (wager_manager p) /\
  wager_history (wager_manager p2)
    = wager_history (wager_manager p) ++ [cancelled_at now record] /\
  total_placed (wager_manager p2) = total_placed (wager_manager p) + 1 /\
  total_cancelled (wager_manager p2) = total_cancelled (wager_manager p) + 1.
Proof.
  intros Hv Hw Hid Hfresh. cbv zeta. unfold get_wager_by_id in Hfresh.
  destruct (place_wager_reached w strategy context t1 t2
              (Reply (Some wager_id)) p Hv Hw) as [_ Hm1].
  cbv zeta in Hm1. unfold id_truthy in Hm1.
  rewrite (proj2 (Z.eqb_neq wager_id 0) Hid) in Hm1. simpl in Hm1.
  set (p1 := state_after _ p) in *.
  assert (dict_get (external_id w) (active_wagers (wager_manager p1))
          = Some (mkWagerRecord w t1 t2 strategy (default [] context)))
    as Hget by (rewrite Hm1; simpl; apply dict_get_set_eq).
  destruct (cancel_wager_found (external_id w) reason now (Reply true) p1 _
              Hget) as [_ Hm2].
  cbv zeta in Hm2. rewrite Hm2, Hm1. simpl.
  unfold get_total_exposure. simpl.
  rewrite (dict_pop_set_fresh _ _ _ Hfresh). done.
Qed.

Lemma place_then_cancel_witness :
  let w := mkWager "w-1" 7 (-110) 5 0 "" PENDING None 0 None in
  let p := new_platform default_trading_config default_risk_config 0 in
  let p1 := state_after (place_wager w "mm" None 1 1 (Reply (Some 42))) p in
  let p2 := state_after (cancel_wager "w-1" "r" 2 (Reply true)) p1 in
  active_wagers (wager_manager p2) = [].
Proof.
  intros w p p1 p2.
  assert (valid_ok w p = true) as Hv by (vm_compute; reflexivity).
  assert (within_limits w p = true) as Hw by (vm_compute; reflexivity).
  assert (42 <> 0) as Hid by lia.
  assert (get_wager_by_id (wager_manager p) (external_id w) = None)
    as Hfresh by reflexivity.
  exact (proj1 (place_then_cancel_round_trip w "mm" "r" None 1 1 2 42 p
                  Hv Hw Hid Hfresh)).
Defined.

(** *** What each part of a call does to the manager *)

Lemma place_resume_manager (w : Wager) (strategy : string)
    (context : option (pydict string PyVal)) (t1 t2 : Q)
    (reply : ApiReply (option Z)) (p : Platform) :
  let m := wager_manager p in
  let pending := delete (external_id w) (pending_placements m) in
  wager_manager (snd (place_wager_resume w strategy context t1 t2 reply p))
  = match reply with
    | Reply wager_id =>
        if id_truthy wager_id then
          mkWagerManager (trading_config m)
            (dict_set (external_id w)
               (mkWagerRecord w t1 t2 strategy (default [] context))
               (active_wagers m))
            (wager_history m) pending (pending_cancellations m)
            (total_placed m + 1) (total_cancelled m) (total_matched m)
            (total_settled m)
        else with_pending_placements pending m
    | Raises => with_pending_placements pending m
    end.
Proof.
  unfold place_wager_resume.
  destruct reply as [wager_id|]; [destruct (id_truthy wager_id)|]; done.
Qed.

Lemma cancel_begin_manager (id reason : string) (p : Platform) :
  let m := wager_manager p in
  wager_manager (snd (cancel_wager_begin id reason p))
  = if dict_mem id (active_wagers m)
    then with_pending_cancellations
           (<[id := reason]> (pending_cancellations m)) m
    else m.
Proof.
  unfold cancel_wager_begin. run_methods.
  destruct (dict_mem id _); simpl; [done|]. by destruct (wager_manager p).
Qed.

Lemma cancel_resume_manager (id reason : string) (now : Q)
    (reply : ApiReply bool) (p : Platform) :
  let m := wager_manager p in
  let pending := delete id (pending_cancellations m) in
  wager_manager (snd (cancel_wager_resume id reason now reply p))
  = match reply, dict_get id (active_wagers m) with
    | Reply true, Some record =>
        mkWagerManager (trading_config m) (dict_pop id (active_wagers m))
          (wager_history m ++ [cancelled_at now record])
          (pending_placements m) pending (total_placed m)
          (total_cancelled m + 1) (total_matched m) (total_settled m)
    | _, _ => with_pending_cancellations pending m
    end.
Proof.
  unfold cancel_wager_resume.
  destruct reply as [[]|]; run_methods;
    destruct (dict_get id (active_wagers (wager_manager p))); done.
Qed.

Lemma cancel_all_resume_manager (reason : string) (now : Q)
    (reply : ApiReply bool) (p : Platform) :
  let m := wager_manager p in
  wager_manager (snd (cancel_all_wagers_resume reason now reply p))
  = match reply with
    | Reply true =>
        mkWagerManager (trading_config m) []
          (wager_history m ++
             map (cancelled_at now) (dict_values (active_wagers m)))
          (pending_placements m) (pending_cancellations m) (total_placed m)
          (total_cancelled m + Z.of_nat (length (active_wagers m)))
          (total_matched m) (total_settled m)
    | _ => m
    end.
Proof.
  unfold cancel_all_wagers_resume.
  destruct reply as [[]|]; run_methods; by destruct (wager_manager p).
Qed.

Lemma dict_get_Some_mem {V : Type} (id : string) (d : pydict string V)
    (v : V) :
  dict_get id d = Some v -> dict_mem id d = true /\ (0 < length d)%nat.
Proof.
  unfold dict_mem. intros Hget. rewrite Hget. split; [done|].
  destruct d; [done | simpl; lia].
Qed.

Lemma step_counters (W : World) (a : Action) :
  counters_consistent (wager_manager (platform W)) ->
  counters_consistent (wager_manager (platform (step W a))).
Proof.
  unfold counters_consistent. intros (Hh & Hst & Hcount).
  destruct a as [t|i reply t1 t2|i reply now]; simpl.
  - assert (forall q,
              wager_history (wager_manager q) = wager_history (wager_manager (platform W)) ->
              total_cancelled (wager_manager q) = total_cancelled (wager_manager (platform W)) ->
              total_placed (wager_manager q) = total_placed (wager_manager (platform W)) ->
              active_wagers (wager_manager q) = active_wagers (wager_manager (platform W)) ->
              Z.of_nat (length (wager_history (wager_manager q)))
                = total_cancelled (wager_manager q) /\
              Forall (fun r => status (wager r) = CANCELLED)
                     (wager_history (wager_manager q)) /\
              Z.of_nat (length (active_wagers (wager_manager q)))
                + total_cancelled (wager_manager q)
                <= total_placed (wager_manager q)) as Hsame.
    { intros q -> -> -> ->. done. }
    destruct t as [w strategy context|id reason|reason]; simpl; unfold bind.
    + pose proof (place_begin_manager w (platform W)) as Hm.
      unfold state_after in Hm.
      destruct (place_wager_begin w (platform W)) as [s p']. simpl in Hm.
      assert (wager_history (wager_manager p') = wager_history (wager_manager (platform W))
              /\ total_cancelled (wager_manager p') = total_cancelled (wager_manager (platform W))
              /\ total_placed (wager_manager p') = total_placed (wager_manager (platform W))
              /\ active_wagers (wager_manager p') = active_wagers (wager_manager (platform W)))
        as (H1 & H2 & H3 & H4).
      { rewrite Hm. by destruct (valid_ok _ _ && within_limits _ _). }
      destruct (awaited s); simpl; by apply Hsame.
    + pose proof (cancel_begin_manager id reason (platform W)) as Hm.
      destruct (cancel_wager_begin id reason (platform W)) as [s p'].
      simpl in Hm.
      assert (wager_history (wager_manager p') = wager_history (wager_manager (platform W))
              /\ total_cancelled (wager_manager p') = total_cancelled (wager_manager (platform W))
              /\ total_placed (wager_manager p') = total_placed (wager_manager (platform W))
              /\ active_wagers (wager_manager p') = active_wagers (wager_manager (platform W)))
        as (H1 & H2 & H3 & H4).
      { rewrite Hm. by destruct (dict_mem _ _). }
      destruct (awaited s); simpl; by apply Hsame.
    + simpl. done.
  - destruct (in_flight W !! i) as [[w strategy context| |]|]; simpl;
      try done.
    unfold state_after. rewrite place_resume_manager.
    destruct reply as [wager_id|]; [destruct (id_truthy wager_id)|]; simpl;
      try done.
    split; [done|]. split; [done|]. rewrite dict_set_length.
    destruct (dict_mem _ _); lia.
  - destruct (in_flight W !! i) as [[|id reason|reason]|]; simpl; try done.
    + unfold state_after. rewrite cancel_resume_manager.
      destruct reply as [[]|]; simpl; try done.
      destruct (dict_get id _) as [record|] eqn:Hget; simpl; [|done].
      apply dict_get_Some_mem in Hget as [Hmem Hlen].
      rewrite length_app, dict_pop_length, Hmem. simpl.
      split; [lia|]. split; [|lia].
      apply Forall_app. split; [done|]. by constructor.
    + unfold state_after. rewrite cancel_all_resume_manager.
      destruct reply as [[]|]; simpl; try done.
      rewrite length_app, length_map. unfold dict_values. rewrite length_map.
      split; [lia|]. split; [|lia].
      apply Forall_app. split; [done|].
      apply Forall_forall. intros r Hr.
      apply list_elem_of_fmap in Hr as (r0 & -> & _). done.
Qed.

(** In every state the event loop can reach from a fresh manager, whatever
    the interleaving and the transport's answers: the history holds exactly
    [total_cancelled] records, every one of them marked [CANCELLED], and the
    number of active wagers plus [total_cancelled] never exceeds
    [total_placed]. *)
Theorem counters_stay_consistent (cfg : TradingConfig) (rcfg : RiskConfig)
    (t0 : Q) (actions : list Action) :
  let m := wager_manager (platform (run actions (new_world cfg rcfg t0))) in
  stat_history_count (get_statistics m) = stat_total_cancelled (get_statistics m) /\
  Forall (fun record => status (wager record) = CANCELLED) (wager_history m) /\
  stat_active_wagers (get_statistics m) + stat_total_cancelled (get_statistics m)
    <= stat_total_placed (get_statistics m).
Proof.
  cbv zeta. simpl.
  apply (fold_left_preserves
           (fun W => counters_consistent (wager_manager (platform W)))).
  - intros W a. apply step_counters.
  - unfold counters_consistent. simpl. split; [done|]. split; [done|lia].
Qed.


(** ** Calls made one at a time stay within the configured limits *)

Lemma valid_ok_true (w : Wager) (p : Platform) :
  valid_ok w p = true ->
  validated_for (trading_config (wager_manager p)) w.
Proof.
  unfold valid_ok, _validate_wager, validated_for. run_methods.
  destruct (Qle_bool (stake w) 0) eqn:E1; [done|].
  destruct (Qltb _ (stake w)) eqn:E2; [done|].
  destruct (_ <=? odds w) eqn:E3; simpl; [|done].
  destruct (odds w <=? _) eqn:E4; simpl; [|done].
  intros _. split; [|split].
  - apply Qnot_le_lt. intros Hle. apply Qle_bool_iff in Hle. congruence.
  - unfold Qltb in E2. apply negb_false_iff in E2. by apply Qle_bool_iff.
  - lia.
Qed.

Lemma within_limits_true (w : Wager) (p : Platform) :
  within_limits w p = true ->
  let m := wager_manager p in
  (get_total_exposure m + stake w <= max_total_exposure (trading_config m))%Q /\
  Z.of_nat (length (active_wagers m)) < max_concurrent_wagers (trading_config m).
Proof.
  unfold within_limits, _check_position_limits. run_methods.
  destruct (Qltb _ _) eqn:E1; [done|].
  destruct (_ <=? _) eqn:E2; [done|].
  intros _. split; [|lia].
  unfold Qltb in E1. apply negb_false_iff in E1. by apply Qle_bool_iff.
Qed.

Lemma place_wager_rejected (w : Wager) (strategy : string)
    (context : option (pydict string PyVal)) (t1 t2 : Q)
    (reply : ApiReply (option Z)) (p : Platform) :
  valid_ok w p && within_limits w p = false ->
  result_of (place_wager w strategy context t1 t2 reply) p = (None, []) /\
  wager_manager (state_after (place_wager w strategy context t1 t2 reply) p)
    = wager_manager p.
Proof.
  intros Hno.
  pose proof (place_begin_result w p) as Hres.
  pose proof (place_begin_manager w p) as Hmgr.
  rewrite Hno in Hres, Hmgr.
  unfold place_wager, result_of, state_after, bind in *.
  destruct (place_wager_begin w p) as [s p1]. simpl in Hres, Hmgr. subst s.
  done.
Qed.

Lemma validated_stakes_nonneg (cfg : TradingConfig) (m : WagerManager) :
  Forall (fun record => validated_for cfg (wager record)) (get_active_wagers m) ->
  Forall (fun record => (0 <= stake (wager record))%Q)
         (dict_values (active_wagers m)).
Proof.
  unfold get_active_wagers. intros Hall.
  eapply Forall_impl; [exact Hall|]. intros r (H & _). simpl. lra.
Qed.

Lemma do_call_within_limits (cfg : TradingConfig) (c : Call) (p : Platform) :
  within_configured_limits cfg (wager_manager p) ->
  within_configured_limits cfg (wager_manager (state_after (do_call c) p)).
Proof.
  intros Hinv.
  pose proof Hinv as (Hcfg & Hvalid & Hexp & Hcount & Hpp & Hpc).
  pose proof (validated_stakes_nonneg _ _ Hvalid) as Hpos.
  destruct c as [w strategy context t1 t2 reply|id reason now reply
                |reason now reply]; unfold do_call, state_after, bind; simpl.
  - destruct (valid_ok w p && within_limits w p) eqn:Hok.
    + apply andb_true_iff in Hok as [Hv Hw].
      destruct (place_wager_reached w strategy context t1 t2 reply p Hv Hw)
        as [_ Hm].
      unfold state_after in Hm.
      destruct (place_wager w strategy context t1 t2 reply p) as [r p'].
      simpl in *. rewrite Hm, Hpp, delete_insert_eq, delete_empty.
      apply valid_ok_true in Hv. apply within_limits_true in Hw as [He Hn].
      rewrite Hcfg in Hv, He, Hn.
      assert (within_configured_limits cfg
                (with_pending_placements ∅ (wager_manager p))) as Hsame.
      { by unfold within_configured_limits. }
      destruct reply as [wager_id|]; [destruct (id_truthy wager_id)|];
        try done.
      unfold within_configured_limits, get_active_wagers, get_total_exposure.
      simpl. split; [done|]. split; [|split; [|split; [|done]]].
      * apply Forall_forall. intros x Hx.
        apply dict_values_set_elem in Hx as [->|Hx]; [done|].
        unfold get_active_wagers in Hvalid.
        rewrite Forall_forall in Hvalid. by apply Hvalid.
      * pose proof (dict_set_sum_le (fun record => stake (wager record))
                      (external_id w)
                      (mkWagerRecord w t1 t2 strategy (default [] context))
                      (active_wagers (wager_manager p)) Hpos) as Hle.
        simpl in Hle. unfold get_total_exposure in He. lra.
      * rewrite dict_set_length. destruct (dict_mem _ _); lia.
    + destruct (place_wager_rejected w strategy context t1 t2 reply p Hok)
        as [_ Hm].
      unfold state_after in Hm.
      destruct (place_wager w strategy context t1 t2 reply p) as [r p'].
      simpl in *. by rewrite Hm.
  - destruct (dict_get id (active_wagers (wager_manager p)))
      as [record|] eqn:Hget.
    + destruct (cancel_wager_found id reason now reply p record Hget)
        as [_ Hm].
      unfold state_after in Hm.
      destruct (cancel_wager id reason now reply p) as [r p'].
      simpl in *. rewrite Hm, Hpc, delete_insert_eq, delete_empty.
      assert (within_configured_limits cfg
                (with_pending_cancellations ∅ (wager_manager p))) as Hsame.
      { by unfold within_configured_limits. }
      destruct reply as [[]|]; try done.
      unfold within_configured_limits, get_active_wagers, get_total_exposure.
      simpl. split; [done|]. split; [|split; [|split; [|done]]].
      * apply Forall_forall. intros x Hx.
        apply dict_values_pop_elem in Hx.
        unfold get_active_wagers in Hvalid.
        rewrite Forall_forall in Hvalid. by apply Hvalid.
      * pose proof (dict_pop_sum_le (fun record => stake (wager record)) id
                      (active_wagers (wager_manager p)) Hpos) as Hle.
        unfold get_total_exposure in Hexp. lra.
      * rewrite dict_pop_length. destruct (dict_mem _ _); lia.
    + assert (wager_manager (snd (cancel_wager id reason now reply p))
              = wager_manager p) as Hm.
      { unfold cancel_wager, cancel_wager_begin, dict_mem. run_methods.
        rewrite Hget. simpl. by destruct (wager_manager p). }
      destruct (cancel_wager id reason now reply p) as [r p'].
      simpl in *. by rewrite Hm.
  - destruct (cancel_all_outcome reason now reply p) as [_ Hm].
    unfold state_after in Hm.
    destruct (cancel_all_wagers reason now reply p) as [r p'].
    simpl in *. rewrite Hm.
    destruct reply as [[]|]; try done.
    unfold within_configured_limits, get_active_wagers, get_total_exposure.
    simpl. split; [done|]. split; [done|].
    split; [|split; [lia|done]].
    assert (0 <= get_total_exposure (wager_manager p))%Q as Hnonneg.
    { apply py_sum_nonneg, Forall_map. exact Hpos. }
    unfold py_sum. simpl. lra.
Qed.





(** ** The limits are checked before the await, not when the wager lands *)

Lemma valid_ok_same_config (w : Wager) (p q : Platform) :
  trading_config (wager_manager q) = trading_config (wager_manager p) ->
  valid_ok w q = valid_ok w p.
Proof.
  unfold valid_ok, _validate_wager. run_methods. intros ->.
  repeat (match goal with |- context [if ?c then _ else _] => destruct c end;
          simpl); auto.
Qed.

Lemma within_limits_same_active (w : Wager) (p q : Platform) :
  trading_config (wager_manager q) = trading_config (wager_manager p) ->
  active_wagers (wager_manager q) = active_wagers (wager_manager p) ->
  within_limits w q = within_limits w p.
Proof.
  unfold within_limits, _check_position_limits, get_total_exposure.
  run_methods. intros Hc Ha. rewrite Hc, Ha.
  destruct (Qltb _ _); simpl; [done|]. rewrite Ha.
  by destruct (_ <=? _).
Qed.

Lemma start_place (W : World) (w : Wager) (strategy : string)
    (context : option (pydict string PyVal)) :
  valid_ok w (platform W) = true -> within_limits w (platform W) = true ->
  step W (Start (TPlace w strategy context))
  = mkWorld (state_after (place_wager_begin w) (platform W))
            (in_flight W ++ [TPlace w strategy context])
            (transport_log W ++ [ApiPlaceWager w]).
Proof.
  intros Hv Hw. pose proof (place_begin_result w (platform W)) as Hres.
  rewrite Hv, Hw in Hres. simpl in *. unfold bind, result_of, state_after in *.
  destruct (place_wager_begin w (platform W)) as [s p']. simpl in *.
  by subst s.
Qed.





(** ** Every active wager passed the validation, in every interleaving *)

Lemma step_validated (cfg : TradingConfig) (W : World) (a : Action) :
  validated_world cfg W -> validated_world cfg (step W a).
Proof.
  unfold validated_world, get_active_wagers.
  intros (Hcfg & Hact & Hfl).
  destruct a as [t|i reply t1 t2|i reply now]; simpl.
  - destruct t as [w strategy context|id reason|reason]; simpl; unfold bind.
    + pose proof (place_begin_result w (platform W)) as Hres.
      pose proof (place_begin_manager w (platform W)) as Hm.
      unfold state_after, result_of in *.
      destruct (place_wager_begin w (platform W)) as [s p']. simpl in *.
      destruct (valid_ok w (platform W)) eqn:Hv; simpl in *;
        [destruct (within_limits w (platform W)) eqn:Hw; simpl in *|];
        subst s; simpl; rewrite Hm; simpl; try done.
      split; [done|]. split; [done|].
      apply Forall_app. split; [done|].
      apply Forall_cons. split; [|constructor]. simpl.
      rewrite <- Hcfg. by apply valid_ok_true.
    + pose proof (cancel_begin_manager id reason (platform W)) as Hm.
      destruct (cancel_wager_begin id reason (platform W)) as [s p'].
      simpl in Hm.
      assert (trading_config (wager_manager p') = cfg /\
              Forall (fun record => validated_for cfg (wager record))
                     (dict_values (active_wagers (wager_manager p'))))
        as [H1 H2].
      { rewrite Hm. by destruct (dict_mem _ _). }
      destruct (awaited s); simpl; (split; [done|]); (split; [done|]);
        [|done].
      apply Forall_app. split; [done|]. by repeat constructor.
    + split; [done|]. split; [done|].
      apply Forall_app. split; [done|]. by repeat constructor.
  - destruct (in_flight W !! i) as [[w strategy context| |]|] eqn:Hi; simpl;
      try done.
    unfold state_after. rewrite place_resume_manager.
    pose proof (Forall_lookup_1 _ _ _ _ Hfl Hi) as Hw. simpl in Hw.
    assert (Forall (validated_task cfg) (delete i (in_flight W))) as Hdel.
    { by apply Forall_delete. }
    destruct reply as [wager_id|]; [destruct (id_truthy wager_id)|]; simpl;
      try done.
    split; [done|]. split; [|done].
    apply Forall_forall. intros x Hx.
    apply dict_values_set_elem in Hx as [->|Hx]; [done|].
    rewrite Forall_forall in Hact. by apply Hact.
  - assert (Forall (validated_task cfg) (delete i (in_flight W))) as Hdel.
    { by apply Forall_delete. }
    destruct (in_flight W !! i) as [[|id reason|reason]|]; simpl; try done.
    + unfold state_after. rewrite cancel_resume_manager.
      destruct reply as [[]|]; simpl; try done.
      destruct (dict_get id (active_wagers (wager_manager (platform W))));
        simpl; [|done].
      split; [done|]. split; [|done].
      apply Forall_forall. intros x Hx. apply dict_values_pop_elem in Hx.
      rewrite Forall_forall in Hact. by apply Hact.
    + unfold state_after. rewrite cancel_all_resume_manager.
      destruct reply as [[]|]; simpl; try done.
Qed.



(** ** Maintenance: [cleanup_old_records] and [health_check] *)

Lemma cleanup_manager (days : Z) (now : Q) (p : Platform) :
  wager_manager (state_after (cleanup_old_records days now) p)
  = with_history
      (List.filter
         (fun record =>
            Qltb (now - inject_Z (days * 24 * 3600))%Q (updated_at record))
         (wager_history (wager_manager p)))
      (wager_manager p).
Proof.
  unfold cleanup_old_records. run_methods.
  by destruct (0 <? _).
Qed.

Lemma filter_filter_weaker {A : Type} (f g : A -> bool) (l : list A) :
  (forall x, g x = true -> f x = true) ->
  List.filter g (List.filter f l) = List.filter g l.
Proof.
  intros Himp. induction l as [|x l IH]; simpl; [done|].
  destruct (f x) eqn:Hf; simpl.
  - by rewrite IH.
  - destruct (g x) eqn:Hg; [|done].
    apply Himp in Hg. congruence.
Qed.

(** A clean-up keeps exactly the history records updated less than
    [max_age_days] days before it, in their order, and touches neither the
    active wagers nor the counters.  A clean-up run after an earlier one with
    the same age leaves what it alone would have left. *)
Theorem cleanup_old_records_composes (days : Z) (now1 now2 : Q)
    (p : Platform) :
  (now1 <= now2)%Q ->
  let cutoff := (now2 - inject_Z (days * 24 * 3600))%Q in
  let m := wager_manager p in
  let m1 := wager_manager (state_after (cleanup_old_records days now1) p) in
  let m2 := wager_manager
              (state_after (cleanup_old_records days now2)
                 (state_after (cleanup_old_records days now1) p)) in
  m2 = wager_manager (state_after (cleanup_old_records days now2) p) /\
  Forall (fun record => (cutoff < updated_at record)%Q) (wager_history m2) /\
  (forall record,
     record ∈ wager_history m -> (cutoff < updated_at record)%Q ->
     record ∈ wager_history m2) /\
  wager_history m2 `sublist_of` wager_history m /\
  active_wagers m2 = active_wagers m /\
  total_cancelled m2 = total_cancelled m /\
  total_placed m2 = total_placed m.
Proof.
  intros Hle. cbv zeta. rewrite !cleanup_manager. simpl.
  rewrite filter_filter_weaker.
  2:{ intros x. rewrite !Qltb_lt. lra. }
  split; [done|]. split; [|split; [|split; [|done]]].
  - apply Forall_forall. intros x Hx.
    apply list_elem_of_In, filter_In in Hx as [_ Hx]. by apply Qltb_lt.
  - intros record Hin Hlt. apply list_elem_of_In, filter_In.
    split; [by apply list_elem_of_In | by apply Qltb_lt].
  - induction (wager_history (wager_manager p)) as [|x l IH]; simpl; [done|].
    destruct (Qltb _ _); [by apply sublist_skip | by apply sublist_cons].
Qed.

Lemma cleanup_old_records_witness :
  let p := new_platform default_trading_config default_risk_config 0 in
  let p1 := state_after (place_wager
                           (mkWager "w-1" 7 (-110) 5 0 "" PENDING None 0 None)
                           "mm" None 1 1 (Reply (Some 42))) p in
  let p2 := state_after (cancel_wager "w-1" "r" 2 (Reply true)) p1 in
  wager_manager
    (state_after (cleanup_old_records 7 700000)
       (state_after (cleanup_old_records 7 600000) p2))
  = wager_manager (state_after (cleanup_old_records 7 700000) p2).
Proof.
  intros p p1 p2.
  assert (600000 <= 700000)%Q as Hle by (vm_compute; discriminate).
  exact (proj1 (cleanup_old_records_composes 7 600000 700000 p2 Hle)).
Defined.

(** A health check changes nothing, never reports an error, and reports
    [healthy] exactly when it lists no issue, which is when no pending
    placement is more than 30 seconds old, the exposure is at most nine
    tenths of [max_total_exposure], and the number of active wagers is at
    most nine tenths of [max_concurrent_wagers]. *)
Theorem health_check_report (now : Q) (p : Platform) :
  let m := wager_manager p in
  let h := result_of (health_check now) p in
  state_after (health_check now) p = p /\
  health_statistics h = get_statistics m /\
  health_status h <> HealthError /\
  (health_status h = Healthy <-> health_issues h = []) /\
  (health_status h = Healthy <->
     map_Forall (fun _ w => (now - timestamp_or_0 w <= 30)%Q)
                (pending_placements m) /\
     (get_total_exposure m
        <= max_total_exposure (trading_config m) * (9 # 10))%Q /\
     (inject_Z (Z.of_nat (length (active_wagers m)))
        <= inject_Z (max_concurrent_wagers (trading_config m)) * (9 # 10))%Q).
Proof.
  cbv zeta. unfold health_check. run_methods.
  split; [done|]. split; [done|].
  set (old := List.filter _ (map_to_list (pending_placements (wager_manager p)))).
  assert (old = [] <->
          map_Forall (fun _ w => (now - timestamp_or_0 w <= 30)%Q)
                     (pending_placements (wager_manager p))) as Hold.
  { rewrite map_Forall_to_list. subst old. split.
    - intros Hnil. apply Forall_forall. intros [k w] Hkw. simpl.
      destruct (Qltb 30 (now - timestamp_or_0 w)) eqn:E.
      + assert ((k, w) ∈ @nil (string * Wager)) as Hin.
        { rewrite <- Hnil. apply list_elem_of_In, filter_In.
          split; [by apply list_elem_of_In | done]. }
        by apply elem_of_nil in Hin.
      + unfold Qltb in E. apply negb_false_iff in E.
        by apply Qle_bool_iff.
    - intros Hall.
      destruct (List.filter _ _) as [|[k w] rest] eqn:E; [done|].
      assert (In (k, w) ((k, w) :: rest)) as Hin by (by left).
      rewrite <- E in Hin. apply filter_In in Hin as [Hin Hlt].
      rewrite Forall_forall in Hall. apply list_elem_of_In in Hin.
      specialize (Hall _ Hin). simpl in *. apply Qltb_lt in Hlt. lra. }
  pose proof (Qltb_ge
                (max_total_exposure (trading_config (wager_manager p))
                 * (9 # 10))
                (get_total_exposure (wager_manager p))) as H2.
  pose proof (Qltb_ge
                (inject_Z (max_concurrent_wagers
                             (trading_config (wager_manager p))) * (9 # 10))
                (inject_Z (Z.of_nat
                             (length (active_wagers (wager_manager p))))))
    as H3.
  destruct (Qltb (max_total_exposure _ * _) _);
    destruct (Qltb (inject_Z (max_concurrent_wagers _) * _) _);
    destruct old as [|o rest]; simpl;
    (split; [done|]); (split; [done|]);
    (split;
     [intros Hh;
      first [done
            |split; [by apply Hold|]; split; [by apply H2 | by apply H3]]
     |intros (HA & HB & HC);
      apply Hold in HA; apply H2 in HB; apply H3 in HC; done]).
Qed.


(** ** The risk manager's profit and loss *)

Lemma update_pnl_state (change now : Q) (p : Platform) :
  let r := risk_manager p in
  let total := (daily_pnl r + change)%Q in
  wager_manager (state_after (update_pnl change now) p) = wager_manager p /\
  risk_manager (state_after (update_pnl change now) p)
  = mkRiskManager (config r) total (session_start_time r)
      (risk_breaches r ++ breaching (max_daily_loss (config r)) [total]).
Proof.
  unfold update_pnl, update_risk, breaching. run_methods.
  destruct (Qltb _ _); simpl; [done|]. by rewrite app_nil_r.
Qed.

Lemma apply_pnl_state (changes : list (Q * Q)) (p : Platform) :
  let r := risk_manager p in
  wager_manager (apply_pnl changes p) = wager_manager p /\
  risk_manager (apply_pnl changes p)
  = mkRiskManager (config r)
      (fold_left Qplus (map fst changes) (daily_pnl r))
      (session_start_time r)
      (risk_breaches r ++
         breaching (max_daily_loss (config r))
                   (running_totals (daily_pnl r) (map fst changes))).
Proof.
  revert p. induction changes as [|[change now] changes IH]; intros p; simpl.
  - unfold breaching. simpl. rewrite app_nil_r. by destruct (risk_manager p).
  - destruct (update_pnl_state change now p) as [Hw Hr]. cbv zeta in Hr.
    destruct (IH (state_after (update_pnl change now) p)) as [Hw' Hr'].
    cbv zeta in Hr'. unfold apply_pnl in *. simpl. rewrite Hw', Hr', Hw, Hr.
    simpl. split; [done|]. f_equal. rewrite <- app_assoc. f_equal.
    unfold breaching. simpl. destruct (Qltb _ _); done.
Qed.

(** After a sequence of profit-and-loss updates on a fresh risk manager,
    [daily_pnl] is the sum of the changes; one breach is recorded for each
    update after which the absolute value of the running total exceeded
    [max_daily_loss], with that total, in order, so gains are recorded as
    breaches just as losses are; the wager manager is not touched. *)
Theorem pnl_updates_accumulate (cfg : TradingConfig) (rcfg : RiskConfig)
    (t0 : Q) (changes : list (Q * Q)) :
  let p := apply_pnl changes (new_platform cfg rcfg t0) in
  daily_pnl (risk_manager p) = py_sum (map fst changes) /\
  risk_breaches (risk_manager p)
    = map (fun total => (total, max_daily_loss rcfg))
          (List.filter (fun total => Qltb (max_daily_loss rcfg) (Qabs total))
                       (running_totals 0 (map fst changes))) /\
  Forall (fun breach =>
            (max_daily_loss rcfg < fst breach \/
             fst breach < - max_daily_loss rcfg)%Q)
         (risk_breaches (risk_manager p)) /\
  wager_manager p = new_wager_manager cfg.
Proof.
  cbv zeta.
  destruct (apply_pnl_state changes (new_platform cfg rcfg t0)) as [Hw Hr].
  cbv zeta in Hr. rewrite Hw, Hr. simpl. unfold breaching.
  split; [done|]. split; [done|]. split; [|done].
  apply Forall_forall. intros [total limit] Hin. simpl.
  apply list_elem_of_fmap in Hin as (v & [= -> ->] & Hv).
  apply list_elem_of_In, filter_In in Hv as [_ Hv].
  apply Qltb_lt in Hv. revert Hv. apply Qabs_case; intros; lra.
Qed.


Lemma risk_check_depends_on (w : Wager)
    (context : option (pydict string PyVal)) (p q : Platform) :
  wager_manager q = wager_manager p ->
  config (risk_manager q) = config (risk_manager p) ->
  Qltb (daily_pnl (risk_manager q)) (- max_daily_loss (config (risk_manager p)))
  = Qltb (daily_pnl (risk_manager p)) (- max_daily_loss (config (risk_manager p))) ->
  result_of (check_wager_risk w context) q
  = result_of (check_wager_risk w context) p.
Proof.
  unfold check_wager_risk. run_methods. intros Hw Hc Hpnl.
  rewrite Hc. destruct (Qltb _ (stake w)); simpl; [done|].
  rewrite ?Hw. destruct (Qltb (_ * 10) _); simpl; [done|].
  destruct (Qltb (daily_pnl (risk_manager q)) _); rewrite <- Hpnl; simpl;
    [done|].
  destruct (context_truthy context); simpl; [|done].
  destruct (truthy _); simpl; [|done].
  rewrite ?Hw.
  destruct (Qltb (default _ _) _); reflexivity.
Qed.

(** Once the updates have brought [daily_pnl] below [-max_daily_loss], the
    risk check refuses every wager, so the strategy's guarded placement
    returns [None] without reaching the wager manager or the transport;
    [reset_daily_stats] then clears the total and the recorded breaches and
    leaves the limits and the wager manager as they are. *)
Theorem loss_limit_blocks_until_reset (changes : list (Q * Q)) (w : Wager)
    (context : option (pydict string PyVal)) (p : Platform) :
  (fold_left Qplus (map fst changes) (daily_pnl (risk_manager p))
     < - max_daily_loss (config (risk_manager p)))%Q ->
  let p' := apply_pnl changes p in
  let q := state_after reset_daily_stats p' in
  result_of (check_wager_risk w context) p' = false /\
  result_of (risk_checked_place_begin w context) p' = Returned None /\
  wager_manager (state_after (risk_checked_place_begin w context) p')
    = wager_manager p /\
  daily_pnl (risk_manager q) = 0%Q /\
  risk_breaches (risk_manager q) = [] /\
  config (risk_manager q) = config (risk_manager p) /\
  wager_manager q = wager_manager p.
Proof.
  intros Hloss. cbv zeta.
  destruct (apply_pnl_state changes p) as [Hw Hr]. cbv zeta in Hr.
  apply Qltb_lt in Hloss.
  assert (result_of (check_wager_risk w context) (apply_pnl changes p)
          = false) as Hrej.
  { unfold check_wager_risk. run_methods. rewrite Hr. simpl.
    destruct (Qltb _ (stake w)); simpl; [done|].
    destruct (Qltb (_ * 10) _); simpl; [done|].
    rewrite Hr. simpl. by rewrite Hloss. }
  split; [exact Hrej|].
  pose proof (risk_state w context (apply_pnl changes p)) as [Hkw _].
  unfold risk_checked_place_begin, result_of, state_after, bind in *.
  destruct (check_wager_risk w context (apply_pnl changes p)) as [b p1].
  simpl in *. subst b. simpl.
  split; [done|]. split; [congruence|].
  unfold reset_daily_stats, update_risk. run_methods. rewrite Hr. done.
Qed.

Lemma loss_limit_witness :
  let w := mkWager "w-1" 7 (-110) 5 0 "" PENDING None 0 None in
  let p := new_platform default_trading_config default_risk_config 0 in
  result_of (check_wager_risk w None)
            (apply_pnl [((-300)%Q, 1%Q); ((-300)%Q, 2%Q)] p) = false.
Proof.
  intros w p.
  assert (fold_left Qplus (map fst [((-300)%Q, 1%Q); ((-300)%Q, 2%Q)])
                    (daily_pnl (risk_manager p))
          < - max_daily_loss (config (risk_manager p)))%Q as Hloss
    by (vm_compute; reflexivity).
  exact (proj1 (loss_limit_blocks_until_reset
                  [((-300)%Q, 1%Q); ((-300)%Q, 2%Q)] w None p Hloss)).
Defined.

(** The risk check looks at the lower side of the total only: whatever
    updates are applied, as long as [daily_pnl] is not below
    [-max_daily_loss] before and after them, the verdict on any wager is the
    one given before the updates, also when a gain above [max_daily_loss]
    was recorded as a breach. *)
Theorem gains_do_not_block (changes : list (Q * Q)) (w : Wager)
    (context : option (pydict string PyVal)) (p : Platform) :
  (- max_daily_loss (config (risk_manager p))
     <= daily_pnl (risk_manager p))%Q ->
  (- max_daily_loss (config (risk_manager p))
     <= fold_left Qplus (map fst changes) (daily_pnl (risk_manager p)))%Q ->
  result_of (check_wager_risk w context) (apply_pnl changes p)
  = result_of (check_wager_risk w context) p.
Proof.
  intros Hbefore Hafter.
  destruct (apply_pnl_state changes p) as [Hw Hr]. cbv zeta in Hr.
  apply risk_check_depends_on; [done | by rewrite Hr |].
  rewrite Hr. simpl.
  apply Qltb_ge in Hbefore, Hafter. by rewrite Hbefore, Hafter.
Qed.

Lemma gains_do_not_block_witness :
  let w := mkWager "w-1" 7 (-110) 5 0 "" PENDING None 0 None in
  let p := new_platform default_trading_config default_risk_config 0 in
  result_of (check_wager_risk w None) (apply_pnl [(9000%Q, 1%Q)] p)
  = result_of (check_wager_risk w None) p.
Proof.
  intros w p.
  assert (- max_daily_loss (config (risk_manager p))
            <= daily_pnl (risk_manager p))%Q as Hbefore
    by (vm_compute; discriminate).
  assert (- max_daily_loss (config (risk_manager p))
            <= fold_left Qplus (map fst [(9000%Q, 1%Q)])
                         (daily_pnl (risk_manager p)))%Q as Hafter
    by (vm_compute; discriminate).
  exact (gains_do_not_block [(9000%Q, 1%Q)] w None p Hbefore Hafter).
Defined.


(** ** The dry-run flag is not consulted *)

Ltac split_conditions :=
  repeat (match goal with
          | |- context [if ?c then _ else _] => destruct c
          | |- context [match ?c with Some _ => _ | None => _ end] =>
              destruct c
          end; simpl).

Lemma do_call_dry_run (c : Call) (b : bool) (p : Platform) :
  do_call c (set_dry_run b p)
  = (fst (do_call c p), set_dry_run b (snd (do_call c p))).
Proof.
  destruct c as [w strategy context t1 t2 reply|id reason now reply
                |reason now reply]; unfold do_call.
  - unfold place_wager, place_wager_begin, place_wager_resume,
      _validate_wager, _check_position_limits, get_total_exposure,
      set_dry_run.
    run_methods. destruct reply as [wager_id|]; split_conditions; reflexivity.
  - unfold cancel_wager, cancel_wager_begin, cancel_wager_resume, dict_mem,
      set_dry_run.
    run_methods. destruct reply as [[]|]; split_conditions; reflexivity.
  - unfold cancel_all_wagers, cancel_all_wagers_begin,
      cancel_all_wagers_resume, set_dry_run.
    run_methods. destruct reply as [[]|]; reflexivity.
Qed.


(** No call on the wager manager reads [dry_run]: with the flag set either
    way, any sequence of placements and cancellations makes the same
    transport calls and leaves the same manager, the flag apart.  With the
    default configuration, in which [dry_run] is on, a valid wager is sent
    to the transport. *)
Theorem dry_run_is_not_consulted (calls : list Call) (b : bool)
    (p : Platform) :
  transport_calls calls (set_dry_run b p) = transport_calls calls p /\
  run_calls calls (set_dry_run b p) = set_dry_run b (run_calls calls p) /\
  dry_run default_trading_config = true /\
  (let w := mkWager "w-1" 7 (-110) 5 0 "" PENDING None 0 None in
   transport_calls [CallPlace w "mm" None 1 1 (Reply (Some 42))]
     (new_platform default_trading_config default_risk_config 0)
   = [ApiPlaceWager w]).
Proof.
  split; [|split; [|split; reflexivity]].
  - revert p. induction calls as [|c calls IH]; intros p; simpl; [done|].
    rewrite do_call_dry_run. destruct (do_call c p) as [made p']. simpl.
    by rewrite IH.
  - revert p. unfold run_calls.
    induction calls as [|c calls IH]; intros p; simpl; [done|].
    unfold state_after at 2 4. rewrite do_call_dry_run. simpl.
    apply IH.
Qed.


Lemma cancel_wager_absent (id reason : string) (now : Q)
    (reply : ApiReply bool) (p : Platform) :
  dict_get id (active_wagers (wager_manager p)) = None ->
  result_of (cancel_wager id reason now reply) p = (false, []) /\
  wager_manager (state_after (cancel_wager id reason now reply) p)
    = wager_manager p.
Proof.
  intros Hget. unfold cancel_wager, cancel_wager_begin, dict_mem.
  run_methods. rewrite Hget. simpl. split; [done|].
  by destruct (wager_manager p).
Qed.


(** ** Rebalancing *)

Lemma keyed_lookup (m : WagerManager) (record : WagerRecord) :
  keyed_by_id m -> record ∈ dict_values (active_wagers m) ->
  dict_get (external_id (wager record)) (active_wagers m) = Some record.
Proof.
  intros [Hnd Hkeys] Hin. apply dict_values_item in Hin as [k Hin].
  rewrite Forall_forall in Hkeys. specialize (Hkeys _ Hin). simpl in Hkeys.
  rewrite Hkeys. by apply dict_get_of_item.
Qed.

Lemma cancel_each_confirmed (answer : nat -> ApiReply bool * Q)
    (to_cancel : list WagerRecord) (i : nat) (p : Platform) :
  (forall j, fst (answer j) = Reply true) ->
  keyed_by_id (wager_manager p) ->
  to_cancel ⊆+ dict_values (active_wagers (wager_manager p)) ->
  let m := wager_manager p in
  let m' := wager_manager (state_after (cancel_each to_cancel answer i) p) in
  keyed_by_id m' /\
  to_cancel ++ dict_values (active_wagers m')
    ≡ₚ dict_values (active_wagers m) /\
  total_cancelled m' = total_cancelled m + Z.of_nat (length to_cancel) /\
  total_placed m' = total_placed m.
Proof.
  intros Hyes. revert i p.
  induction to_cancel as [|record rest IH]; intros i p Hkeyed Hsub; cbv zeta.
  - change (state_after (cancel_each [] answer i) p) with p. simpl.
    split; [done|]. split; [done|]. split; [lia | done].
  - assert (record ∈ dict_values (active_wagers (wager_manager p))) as Hin.
    { eapply elem_of_submseteq; [apply list_elem_of_here | exact Hsub]. }
    pose proof (keyed_lookup _ _ Hkeyed Hin) as Hget.
    destruct (cancel_wager_found (external_id (wager record))
                "position_rebalance" (snd (answer i)) (fst (answer i)) p
                record Hget) as [_ Hm].
    cbv zeta in Hm.
    set (p1 := state_after
                 (cancel_wager (external_id (wager record))
                    "position_rebalance" (snd (answer i)) (fst (answer i)))
                 p) in *.
    rewrite Hyes in Hm.
    pose proof (dict_values_pop_Permutation _ _ _ Hget) as Hperm.
    assert (keyed_by_id (wager_manager p1)) as Hkeyed1.
    { destruct Hkeyed as [Hnd Hkeys]. rewrite Hm. split; simpl.
      - by apply dict_keys_pop_NoDup.
      - by apply dict_pop_Forall. }
    assert (rest ⊆+ dict_values (active_wagers (wager_manager p1))) as Hsub1.
    { rewrite Hm. simpl. rewrite Hperm in Hsub.
      by apply (submseteq_app_inv_l _ _ [record]). }
    destruct (IH (S i) p1 Hkeyed1 Hsub1) as (Hk' & Hp' & Hc' & Hpl').
    assert (state_after (cancel_each (record :: rest) answer i) p
            = state_after (cancel_each rest answer (S i)) p1) as ->.
    { unfold p1, state_after. cbn [cancel_each]. unfold bind.
      by destruct (cancel_wager (external_id (wager record))
                     "position_rebalance" (snd (answer i)) (fst (answer i))
                     p). }
    split; [done|]. split; [|split].
    + simpl. rewrite Hp', Hm. simpl. by rewrite Hperm.
    + rewrite Hc', Hm. simpl. lia.
    + rewrite Hpl', Hm. done.
Qed.

(** When the strategy is active and holds more than [max_position] wagers,
    and the transport confirms every cancellation, rebalancing leaves the
    strategy with exactly [max_position] wagers, all of them among those it
    held; the wagers of every other strategy stay; one cancellation is
    counted per wager dropped.  An inactive strategy changes nothing. *)
Theorem rebalance_reaches_max_position
    (pick : list WagerRecord -> nat -> list WagerRecord)
    (max_position : Z) (answer : nat -> ApiReply bool * Q) (p : Platform) :
  let m := wager_manager p in
  let held := get_wagers_by_strategy m "simple_market_maker" in
  let excess := Z.to_nat (Z.of_nat (length held) - max_position) in
  keyed_by_id m ->
  0 <= max_position < Z.of_nat (length held) ->
  pick held excess ⊆+ held -> length (pick held excess) = excess ->
  (forall j, fst (answer j) = Reply true) ->
  let m' := wager_manager
              (state_after (rebalance_positions pick true max_position answer)
                           p) in
  Z.of_nat (length (get_wagers_by_strategy m' "simple_market_maker"))
    = max_position /\
  get_wagers_by_strategy m' "simple_market_maker" ⊆+ held /\
  (forall name, name <> "simple_market_maker" ->
     get_wagers_by_strategy m' name ≡ₚ get_wagers_by_strategy m name) /\
  total_cancelled m' = total_cancelled m + Z.of_nat excess /\
  state_after (rebalance_positions pick false max_position answer) p = p.
Proof.
  cbv zeta. intros Hkeyed Hmax Hpick Hlen Hyes.
  set (held := get_wagers_by_strategy (wager_manager p) "simple_market_maker")
    in *.
  set (excess := Z.to_nat (Z.of_nat (length held) - max_position)) in *.
  assert (wager_manager
            (state_after (rebalance_positions pick true max_position answer) p)
          = wager_manager
              (state_after (cancel_each (pick held excess) answer 0) p))
    as ->.
  { unfold rebalance_positions. run_methods. fold held.
    destruct (Z.ltb_spec max_position (Z.of_nat (length held))); [|lia].
    destruct (Z.ltb_spec max_position 0); [lia|]. simpl. fold excess.
    by destruct (cancel_each (pick held excess) answer 0 p) as [[] p']. }
  assert (pick held excess ⊆+ dict_values (active_wagers (wager_manager p)))
    as Hsub.
  { etrans; [exact Hpick|]. apply sublist_submseteq, bfilter_sublist. }
  destruct (cancel_each_confirmed answer (pick held excess) 0 p Hyes Hkeyed
              Hsub) as (_ & Hperm & Hcount & _).
  cbv zeta in Hperm, Hcount.
  set (m' := wager_manager
               (state_after (cancel_each (pick held excess) answer 0) p)) in *.
  assert (forall name,
            List.filter
              (fun record => bool_decide (strategy_name record = name))
              (pick held excess)
            ++ get_wagers_by_strategy m' name
            ≡ₚ get_wagers_by_strategy (wager_manager p) name) as Hsplit.
  { intros name. unfold get_wagers_by_strategy.
    rewrite <- (bfilter_Permutation _ _ _ Hperm).
    by rewrite List.filter_app. }
  assert (Forall (fun record => strategy_name record = "simple_market_maker")
                 (pick held excess)) as Hmine.
  { apply Forall_forall. intros record Hin.
    assert (record ∈ held) as Hheld
      by (eapply elem_of_submseteq; [exact Hin | exact Hpick]).
    apply list_elem_of_In, filter_In in Hheld as [_ Hname].
    by apply bool_decide_eq_true in Hname. }
  split; [|split; [|split; [|split]]].
  - pose proof (Hsplit "simple_market_maker") as Hs.
    rewrite bfilter_all in Hs.
    2:{ eapply Forall_impl; [exact Hmine|]. intros record Hname. simpl.
        by apply bool_decide_eq_true. }
    apply Permutation_length in Hs. rewrite length_app, Hlen in Hs.
    fold held in Hs. unfold excess in *. lia.
  - pose proof (Hsplit "simple_market_maker") as Hs. fold held in Hs.
    rewrite <- Hs. apply submseteq_inserts_l. done.
  - intros name Hname. pose proof (Hsplit name) as Hs.
    rewrite bfilter_none in Hs; [done|].
    eapply Forall_impl; [exact Hmine|]. intros record Hrec. simpl.
    apply bool_decide_eq_false. congruence.
  - rewrite Hcount, Hlen. done.
  - unfold rebalance_positions. by run_methods.
Qed.


Lemma rebalance_witness :
  let w1 := mkWager "w-1" 7 (-110) 5 0 "" PENDING None 0 None in
  let w2 := mkWager "w-2" 7 150 5 0 "" PENDING None 0 None in
  let p := run_calls
             [CallPlace w1 "simple_market_maker" None 1 1 (Reply (Some 41));
              CallPlace w2 "simple_market_maker" None 2 2 (Reply (Some 42))]
             (new_platform default_trading_config default_risk_config 0) in
  let m' := wager_manager
              (state_after
                 (rebalance_positions (fun l k => take k l) true 1
                                      (fun _ => (Reply true, 5%Q))) p) in
  Z.of_nat (length (get_wagers_by_strategy m' "simple_market_maker")) = 1.
Proof.
  intros w1 w2 p m'.
  assert (keyed_by_id (wager_manager p)) as Hkeyed.
  { split.
    - vm_compute. apply NoDup_cons. split; [|apply NoDup_singleton].
      intros Hin. apply list_elem_of_singleton in Hin. discriminate.
    - repeat constructor. }
  assert (0 <= 1 < Z.of_nat (length (get_wagers_by_strategy (wager_manager p)
                                       "simple_market_maker"))) as Hmax
    by (vm_compute; split; [discriminate | reflexivity]).
  assert (take (Z.to_nat
                  (Z.of_nat (length (get_wagers_by_strategy (wager_manager p)
                                       "simple_market_maker")) - 1))
               (get_wagers_by_strategy (wager_manager p) "simple_market_maker")
          ⊆+ get_wagers_by_strategy (wager_manager p) "simple_market_maker")
    as Hpick by apply sublist_submseteq, sublist_take.
  assert (length
            (take (Z.to_nat
                     (Z.of_nat (length (get_wagers_by_strategy
                                          (wager_manager p)
                                          "simple_market_maker")) - 1))
                  (get_wagers_by_strategy (wager_manager p)
                                          "simple_market_maker"))
          = Z.to_nat
              (Z.of_nat (length (get_wagers_by_strategy (wager_manager p)
                                   "simple_market_maker")) - 1)) as Hlen
    by reflexivity.
  assert (forall j : nat, fst ((fun _ : nat => (Reply true, 5%Q)) j)
                          = Reply true) as Hyes by reflexivity.
  exact (proj1 (rebalance_reaches_max_position (fun l k => take k l) 1
                  (fun _ => (Reply true, 5%Q)) p
                  Hkeyed Hmax Hpick Hlen Hyes)).
Defined.

End WagerExtras.

(** * Market data: prices kept, metrics, depth *)

Module MarketExtras.
Import MarketData MarketFacts.
Local Open Scope Z_scope.

(** ** The comparator as an order *)

Lemma better_numeric (n c : Z) :
  n <> 0 -> c <> 0 -> _is_better_odds (Some n) (Some c) = (c <? n).
Proof.
  intros Hn Hc. unfold _is_better_odds.
  destruct (Z.ltb_spec 0 n), (Z.ltb_spec 0 c), (Z.ltb_spec n 0),
    (Z.ltb_spec c 0), (Z.ltb_spec c n); simpl; try lia; try reflexivity;
    destruct (Z.ltb_spec (Z.abs n) (Z.abs c)); lia.
Qed.

Lemma better_zero (c : Z) :
  _is_better_odds (Some 0) (Some c) = false /\
  _is_better_odds (Some c) (Some 0) = false.
Proof.
  unfold _is_better_odds. simpl.
  destruct (Z.ltb_spec 0 c), (Z.ltb_spec c 0); simpl; try lia; done.
Qed.

Lemma better_priced (a b : option Z) :
  _is_better_odds a b = true -> exists n, a = Some n.
Proof. destruct a as [n|]; [by exists n | by destruct b]. Qed.

Lemma better_irrefl (a : option Z) : _is_better_odds a a = false.
Proof.
  destruct a as [n|]; [|done]. destruct (decide (n = 0)) as [->|Hn].
  - apply better_zero.
  - rewrite better_numeric by done. apply Z.ltb_irrefl.
Qed.

Lemma better_trans (a b c : option Z) :
  _is_better_odds a b = true -> _is_better_odds b c = true ->
  _is_better_odds a c = true.
Proof.
  destruct a as [x|]; [|by destruct b]. destruct c as [z|]; [|done].
  destruct b as [y|]; [|done].
  destruct (decide (y = 0)) as [->|Hy].
  { intros H. by rewrite (proj2 (better_zero x)) in H. }
  destruct (decide (x = 0)) as [->|Hx].
  { intros H. by rewrite (proj1 (better_zero y)) in H. }
  destruct (decide (z = 0)) as [->|Hz].
  { intros _ H. by rewrite (proj2 (better_zero y)) in H. }
  rewrite !better_numeric by done. rewrite !Z.ltb_lt. lia.
Qed.

(** On odds other than zero the comparator is the numeric [>]: of two
    prices the numerically larger is the better one, whatever their signs.
    With unpriced entries below every price it is a strict order: no value
    is better than itself, and it is transitive, hence never holds both
    ways.  Odds of zero are neither better nor worse than any price. *)
Theorem comparator_is_numeric_order :
  (forall n c, n <> 0 -> c <> 0 ->
     _is_better_odds (Some n) (Some c) = (c <? n)) /\
  (forall a b c,
     _is_better_odds a b = true -> _is_better_odds b c = true ->
     _is_better_odds a c = true) /\
  (forall a b, _is_better_odds a b = true -> _is_better_odds b a = false) /\
  (forall c, _is_better_odds (Some 0) (Some c) = false /\
             _is_better_odds (Some c) (Some 0) = false).
Proof.
  split; [exact better_numeric|]. split; [exact better_trans|].
  split; [|exact better_zero].
  intros a b Hab. destruct (_is_better_odds b a) eqn:Hba; [|done].
  pose proof (better_trans a b a Hab Hba) as Haa.
  by rewrite better_irrefl in Haa.
Qed.

Lemma comparator_is_numeric_order_witness :
  _is_better_odds (Some (-110)) (Some 150) = (150 <? -110) /\
  _is_better_odds (Some 150) (Some (-110)) = true.
Proof.
  destruct comparator_is_numeric_order as (Hnum & Htrans & _ & _).
  split; [apply Hnum; lia|].
  apply (Htrans (Some 150) (Some 100) (Some (-110))); reflexivity.
Defined.


(** ** The flat-selection algorithm keeps the best price of each name *)

Lemma best_of_more (seen : list Selection) (e : Selection) (n : string)
    (b : BestSelection) :
  best_of seen n b ->
  (name e = n -> _is_better_odds (sel_odds e) (best_odds b) = false) ->
  best_of (seen ++ [e]) n b.
Proof.
  intros (Hn & (e0 & He0 & Hname & Hodds) & Hbest & Hz & Hp) He.
  split; [done|]. split; [|split; [|done]].
  - exists e0. split; [|done]. apply elem_of_app. by left.
  - intros e' Hin Hn'. apply elem_of_app in Hin as [Hin|Hin].
    + by apply Hbest.
    + apply list_elem_of_singleton in Hin. subst e'. by apply He.
Qed.

Lemma display_value_positive (o : Z) (v : Q) :
  (0 < display_value (Some o) v)%Q.
Proof.
  unfold display_value. destruct (Qltb 0 v) eqn:E; [|lra].
  by apply Qltb_lt.
Qed.

Lemma py_max_ge_l (a b : Q) : (a <= py_max a b)%Q.
Proof.
  unfold py_max. destruct (Qltb a b) eqn:E; [|lra].
  apply Qltb_lt in E. lra.
Qed.

Lemma best_step_kept (py_hash : string -> Z) (seen : list Selection)
    (best : pydict string BestSelection) (e : Selection) :
  best_kept seen best -> best_kept (seen ++ [e]) (best_step py_hash best e).
Proof.
  intros (Hnd & Hbest & Hmem). unfold best_step.
  destruct (String.eqb_spec (name e) "") as [Hemp|Hne]; simpl.
  { split; [done|]. split.
    - intros n b Hget. apply best_of_more; [by apply Hbest|].
      intros Hn. destruct (Hbest n b Hget) as [Hnn _]. congruence.
    - intros e' Hin Hn'. apply elem_of_app in Hin as [Hin|Hin].
      + by apply Hmem.
      + apply list_elem_of_singleton in Hin. by subst e'. }
  destruct (dict_get (name e) best) as [current|] eqn:Hget.
  - destruct (_is_better_odds (sel_odds e) (best_odds current)) eqn:Hb.
    + split; [by apply dict_keys_set_NoDup|]. split.
      * intros n b Hgetn. destruct (decide (name e = n)) as [<-|Hn].
        -- rewrite dict_get_set_eq in Hgetn. injection Hgetn as <-.
           destruct (Hbest _ _ Hget) as (_ & _ & Hcur & _ & _).
           destruct (better_priced _ _ Hb) as [x Hx].
           split; [done|]. simpl. split; [|split; [|split]].
           ++ exists e. split; [|done]. apply elem_of_app. right.
              apply list_elem_of_here.
           ++ intros e' Hin Hn'. apply elem_of_app in Hin as [Hin|Hin].
              ** destruct (_is_better_odds (sel_odds e') (sel_odds e))
                   eqn:Hb'; [|done].
                 pose proof (better_trans _ _ _ Hb' Hb) as Hbad.
                 by rewrite (Hcur e' Hin Hn') in Hbad.
              ** apply list_elem_of_singleton in Hin. subst e'.
                 apply better_irrefl.
           ++ rewrite Hx. done.
           ++ intros o _. rewrite Hx.
              pose proof (display_value_positive x (value e)).
              pose proof (py_max_ge_l (display_value (Some x) (value e))
                            (best_value current)).
              lra.
        -- rewrite dict_get_set_ne in Hgetn by done.
           apply best_of_more; [by apply Hbest | done].
      * intros e' Hin Hn'. apply dict_mem_set.
        apply elem_of_app in Hin as [Hin|Hin]; [by apply Hmem|].
        apply list_elem_of_singleton in Hin. subst e'.
        unfold dict_mem. by rewrite Hget.
    + split; [done|]. split.
      * intros n b Hgetn. apply best_of_more; [by apply Hbest|].
        intros Hn. rewrite <- Hn, Hget in Hgetn. by injection Hgetn as <-.
      * intros e' Hin Hn'.
        apply elem_of_app in Hin as [Hin|Hin]; [by apply Hmem|].
        apply list_elem_of_singleton in Hin. subst e'.
        unfold dict_mem. by rewrite Hget.
  - split; [by apply dict_keys_set_NoDup|]. split.
    + intros n b Hgetn. destruct (decide (name e = n)) as [<-|Hn].
      * rewrite dict_get_set_eq in Hgetn. injection Hgetn as <-.
        split; [done|]. simpl. split; [|split; [|split]].
        -- exists e. split; [|done]. apply elem_of_app. right.
           apply list_elem_of_here.
        -- intros e' Hin Hn'. apply elem_of_app in Hin as [Hin|Hin].
           ++ pose proof (Hmem e' Hin) as Hm. rewrite Hn' in Hm.
              unfold dict_mem in Hm. rewrite Hget in Hm.
              by specialize (Hm Hne).
           ++ apply list_elem_of_singleton in Hin. subst e'.
              apply better_irrefl.
        -- by intros ->.
        -- intros o ->. apply display_value_positive.
      * rewrite dict_get_set_ne in Hgetn by done.
        apply best_of_more; [by apply Hbest | done].
    + intros e' Hin Hn'. apply elem_of_app in Hin as [Hin|Hin].
      * by apply dict_mem_set, Hmem.
      * apply list_elem_of_singleton in Hin. subst e'.
        unfold dict_mem. by rewrite dict_get_set_eq.
Qed.

Lemma best_selections_kept (py_hash : string -> Z) (l seen : list Selection)
    (best : pydict string BestSelection) :
  best_kept seen best ->
  best_kept (seen ++ l) (fold_left (best_step py_hash) l best).
Proof.
  revert seen best. induction l as [|e l IH]; intros seen best Hk; simpl.
  - by rewrite app_nil_r.
  - replace (seen ++ e :: l) with ((seen ++ [e]) ++ l)
      by (by rewrite <- app_assoc).
    by apply IH, best_step_kept.
Qed.

Lemma direct_selections_fields (py_hash : string -> Z) (ob : OrderBook)
    (groups : list SelectionGroup) (now : Q) :
  let ob' := _process_direct_selections py_hash ob groups now in
  selections ob'
  = fold_left
      (fun acc entry =>
         dict_set (best_outcome_id (snd entry)) (level_of_best now entry) acc)
      (fold_left (best_step py_hash) (flatten_groups groups) [])
      (selections ob) /\
  line_groups ob' = line_groups ob /\
  available_lines ob' = available_lines ob /\
  last_update ob' = last_update ob.
Proof.
  unfold _process_direct_selections. cbv zeta.
  generalize (fold_left (best_step py_hash) (flatten_groups groups) []).
  intros best. revert ob.
  induction best as [|entry best IH]; intros ob; simpl; [done|].
  exact (IH (with_selections
               (dict_set (best_outcome_id (snd entry))
                         (level_of_best now entry) (selections ob)) ob)).
Qed.

(** After an update with direct selections, every level of the book carries
    a non-empty name, the time of the update, and the odds of one entry of
    that name that no entry of that name beats; its size is [0] when it is
    unpriced and positive when it is priced; ids are not repeated.  The line
    groups and the available lines of the book are left as they were. *)
Theorem flat_levels_carry_best_price (py_hash : string -> Z)
    (str_of_value : Q -> string) (float_of_str : string -> option Q)
    (ob : OrderBook) (g : SelectionGroup) (gs : list SelectionGroup)
    (lines : option (list MarketLine)) (now : Q) :
  let entries := flatten_groups (g :: gs) in
  let ob' := _process_market_selections py_hash str_of_value float_of_str ob
               (mkMarket (Some (g :: gs)) lines) now in
  Forall (fun level =>
            selection_name level <> "" /\
            timestamp level = now /\
            (exists e, e ∈ entries /\ name e = selection_name level /\
                       sel_odds e = odds level) /\
            Forall (fun e =>
                      name e = selection_name level ->
                      _is_better_odds (sel_odds e) (odds level) = false)
                   entries /\
            (odds level = None -> size level = 0%Q) /\
            (odds level <> None -> (0 < size level)%Q))
         (dict_values (selections ob')) /\
  NoDup (dict_keys (selections ob')) /\
  last_update ob' = now /\
  line_groups ob' = line_groups ob /\
  available_lines ob' = available_lines ob.
Proof.
  cbv zeta. unfold _process_market_selections. cbn [market_selections].
  destruct (direct_selections_fields py_hash (with_selections [] ob)
              (g :: gs) now) as (Hsel & Hlg & Hal & _).
  cbv zeta in Hsel. simpl last_update. simpl line_groups.
  simpl available_lines. simpl selections. rewrite Hsel, Hlg, Hal. simpl.
  assert (best_kept (flatten_groups (g :: gs))
            (fold_left (best_step py_hash) (flatten_groups (g :: gs)) []))
    as (Hnd & Hbest & _).
  { apply (best_selections_kept py_hash _ [] []).
    split; [constructor|]. split; [done|]. intros e He.
    by apply elem_of_nil in He. }
  split; [|split; [|done]].
  - apply Forall_forall. intros level Hlevel.
    apply fold_set_values in Hlevel as [Hlevel|([n b] & Hin & ->)].
    { by apply elem_of_nil in Hlevel. }
    pose proof (dict_get_of_item n b _ Hnd Hin) as Hget.
    destruct (Hbest n b Hget) as (Hn & Hex & Hall & Hz & Hp). simpl.
    split; [done|]. split; [done|]. split; [done|].
    split; [by apply Forall_forall|]. split; [done|].
    intros Hsome. destruct (best_odds b) as [o|] eqn:Ho; [|done].
    by apply (Hp o).
  - apply fold_set_NoDup. constructor.
Qed.

Lemma flat_levels_witness :
  let first := mkSelection "Team A" (Some (-120)) 100 "L1" 7 in
  let second := mkSelection "Team A" (Some (-110)) 5 "L2" 7 in
  let book := new_order_book 777 "777_moneyline_3" "moneyline" "A v B" 0 in
  let ob' := _process_market_selections (fun _ => 0) (fun _ => "")
               (fun _ => None) book
               (mkMarket (Some [Several [first; second]]) None) 1 in
  NoDup (dict_keys (selections ob')) /\ last_update ob' = 1%Q.
Proof.
  intros first second book ob'.
  destruct (flat_levels_carry_best_price (fun _ => 0) (fun _ => "")
              (fun _ => None) book (Several [first; second]) [] None 1)
    as (_ & Hnd & Hlast & _).
  split; [exact Hnd | exact Hlast].
Defined.


(** ** Metrics of a book *)

Lemma py_max_list_spec (x : Z) (xs : list Z) :
  py_max_list x xs ∈ x :: xs /\
  Forall (fun y => y <= py_max_list x xs) (x :: xs).
Proof.
  unfold py_max_list. revert x. induction xs as [|y xs IH]; intros x; simpl.
  - split; [apply list_elem_of_here|]. repeat constructor. lia.
  - destruct (IH (Z.max x y)) as [Hin Hall].
    apply Forall_cons in Hall as [Hm Hall]. split.
    + apply elem_of_cons in Hin as [Hin|Hin].
      * rewrite Hin. destruct (Z.max_spec x y) as [[_ ->]|[_ ->]].
        -- apply list_elem_of_further, list_elem_of_here.
        -- apply list_elem_of_here.
      * by do 2 apply list_elem_of_further.
    + repeat (apply Forall_cons; split); [lia | lia | done].
Qed.

Lemma py_min_list_spec (x : Z) (xs : list Z) :
  py_min_list x xs ∈ x :: xs /\
  Forall (fun y => py_min_list x xs <= y) (x :: xs).
Proof.
  unfold py_min_list. revert x. induction xs as [|y xs IH]; intros x; simpl.
  - split; [apply list_elem_of_here|]. repeat constructor. lia.
  - destruct (IH (Z.min x y)) as [Hin Hall].
    apply Forall_cons in Hall as [Hm Hall]. split.
    + apply elem_of_cons in Hin as [Hin|Hin].
      * rewrite Hin. destruct (Z.min_spec x y) as [[_ ->]|[_ ->]].
        -- apply list_elem_of_here.
        -- apply list_elem_of_further, list_elem_of_here.
      * by do 2 apply list_elem_of_further.
    + repeat (apply Forall_cons; split); [lia | lia | done].
Qed.

Lemma priced_odds (levels : list SelectionLevel) (a : Z) :
  a ∈ omap odds levels <->
  exists level, level ∈ levels /\ odds level = Some a.
Proof. apply list_elem_of_omap. Qed.

(** The metrics leave the levels of the book alone.  The spread they store
    is never negative, is at least the difference between the odds of any
    two priced levels, and is the difference between the odds of two priced
    levels when there is one; the first level in enumeration order is
    reported as the best selection; computing the metrics twice gives what
    computing them once gives. *)
Theorem metrics_spread_bounds (ob : OrderBook) :
  let levels := dict_values (selections ob) in
  let ob' := _calculate_order_book_metrics ob in
  selections ob' = selections ob /\
  line_groups ob' = line_groups ob /\
  best_selection ob' = head levels /\
  total_volume ob' = py_sum (map size levels) /\
  (0 <= spread ob')%Q /\
  Forall (fun l1 =>
            Forall (fun l2 =>
                      match odds l1, odds l2 with
                      | Some a, Some b => (inject_Z (a - b) <= spread ob')%Q
                      | _, _ => True
                      end) levels) levels /\
  match omap odds levels with
  | [] => spread ob' = 0%Q
  | _ :: _ =>
      exists l1 l2 a b,
        l1 ∈ levels /\ l2 ∈ levels /\ odds l1 = Some a /\ odds l2 = Some b /\
        spread ob' = inject_Z (a - b)
  end /\
  _calculate_order_book_metrics ob' = ob'.
Proof.
  cbv zeta. unfold _calculate_order_book_metrics.
  destruct (dict_values (selections ob)) as [|first rest] eqn:Hlevels.
  { simpl. rewrite Hlevels. simpl. split_and!; try done. }
  set (levels := first :: rest) in *.
  pose proof (priced_odds levels) as Hpriced.
  destruct (omap odds levels) as [|o1 [|o2 more]] eqn:Hodds.
  - simpl. rewrite Hlevels. fold levels. rewrite Hodds. simpl.
    assert (Forall (fun l1 =>
              Forall (fun l2 =>
                        match odds l1, odds l2 with
                        | Some a, Some b => (inject_Z (a - b) <= 0)%Q
                        | _, _ => True
                        end) levels) levels) as Hbound.
    { apply Forall_forall. intros l1 H1. apply Forall_forall. intros l2 H2.
      destruct (odds l1) as [a|] eqn:Ha; [|done].
      assert (a ∈ @nil Z) as Hbad by (apply Hpriced; by exists l1).
      by apply elem_of_nil in Hbad. }
    split_and!; try done.
  - simpl. rewrite Hlevels. fold levels. rewrite Hodds. simpl.
    assert (forall l a, l ∈ levels -> odds l = Some a -> a = o1) as Hone.
    { intros l a Hl Ha.
      assert (a ∈ [o1]) as Hin by (apply Hpriced; by exists l).
      by apply list_elem_of_singleton in Hin. }
    assert (Forall (fun l1 =>
              Forall (fun l2 =>
                        match odds l1, odds l2 with
                        | Some a, Some b => (inject_Z (a - b) <= 0)%Q
                        | _, _ => True
                        end) levels) levels) as Hbound.
    { apply Forall_forall. intros l1 H1. apply Forall_forall. intros l2 H2.
      destruct (odds l1) as [a|] eqn:Ha; [|done].
      destruct (odds l2) as [b|] eqn:Hb; [|done].
      by rewrite (Hone _ _ H1 Ha), (Hone _ _ H2 Hb), Z.sub_diag. }
    assert (exists l1 l2 a b,
              l1 ∈ levels /\ l2 ∈ levels /\ odds l1 = Some a /\
              odds l2 = Some b /\ 0%Q = inject_Z (a - b)) as Hattained.
    { destruct (proj1 (Hpriced o1)) as (l & Hl & Ho);
        [apply list_elem_of_here|].
      exists l, l, o1, o1. by rewrite Z.sub_diag. }
    split_and!; try done.
  - destruct (py_max_list_spec o1 (o2 :: more)) as [Hmax_in Hmax].
    destruct (py_min_list_spec o1 (o2 :: more)) as [Hmin_in Hmin].
    rewrite Forall_forall in Hmax, Hmin.
    simpl. rewrite Hlevels. fold levels. rewrite Hodds.
    set (hi := py_max_list o1 (o2 :: more)) in *.
    set (lo := py_min_list o1 (o2 :: more)) in *.
    assert (0 <= inject_Z (hi - lo))%Q as Hnonneg.
    { pose proof (Hmax _ Hmin_in) as Hle.
      change 0%Q with (inject_Z 0). rewrite <- Zle_Qle. lia. }
    assert (Forall (fun l1 =>
              Forall (fun l2 =>
                        match odds l1, odds l2 with
                        | Some a, Some b =>
                            (inject_Z (a - b) <= inject_Z (hi - lo))%Q
                        | _, _ => True
                        end) levels) levels) as Hbound.
    { apply Forall_forall. intros l1 H1. apply Forall_forall. intros l2 H2.
      destruct (odds l1) as [a|] eqn:Ha; [|done].
      destruct (odds l2) as [b|] eqn:Hb; [|done].
      assert (a ∈ o1 :: o2 :: more) as Hina by (apply Hpriced; by exists l1).
      assert (b ∈ o1 :: o2 :: more) as Hinb by (apply Hpriced; by exists l2).
      rewrite <- Zle_Qle. pose proof (Hmax _ Hina). pose proof (Hmin _ Hinb).
      lia. }
    assert (exists l1 l2 a b,
              l1 ∈ levels /\ l2 ∈ levels /\ odds l1 = Some a /\
              odds l2 = Some b /\
              inject_Z (hi - lo) = inject_Z (a - b)) as Hattained.
    { apply Hpriced in Hmax_in as (l1 & Hl1 & Ho1).
      apply Hpriced in Hmin_in as (l2 & Hl2 & Ho2).
      by exists l1, l2, hi, lo. }
    simpl. split_and!; try done.
Qed.


(** ** The line-grouped algorithm keeps every entry *)

Section depth.
Variable py_hash : string -> Z.
Variable str_of_value : Q -> string.

Lemma group_fold_get (lv n : string) (l : list Selection)
    (by_name : pydict string (list LevelData)) :
  n <> "" ->
  default [] (dict_get n (fold_left (group_step py_hash str_of_value lv) l
                            by_name))
  = default [] (dict_get n by_name)
      ++ map (level_data_of py_hash str_of_value lv) (named n l).
Proof.
  intros Hn. revert by_name.
  induction l as [|e l IH]; intros by_name; simpl.
  - by rewrite app_nil_r.
  - rewrite IH. unfold group_step.
    destruct (String.eqb_spec (name e) "") as [Hemp|Hne]; simpl.
    + rewrite bool_decide_eq_false_2; [done | congruence].
    + destruct (decide (name e = n)) as [<-|Hdiff].
      * rewrite dict_get_set_eq, bool_decide_eq_true_2 by done. simpl.
        by rewrite <- app_assoc.
      * rewrite dict_get_set_ne, bool_decide_eq_false_2 by done. done.
Qed.

Lemma group_fold_NoDup (lv : string) (l : list Selection)
    (by_name : pydict string (list LevelData)) :
  NoDup (dict_keys by_name) ->
  NoDup (dict_keys (fold_left (group_step py_hash str_of_value lv) l by_name)).
Proof.
  revert by_name. induction l as [|e l IH]; intros by_name Hnd; simpl;
    [done|].
  apply IH. unfold group_step.
  destruct (negb _); [by apply dict_keys_set_NoDup | done].
Qed.

Lemma group_fold_names (lv : string) (l : list Selection)
    (by_name : pydict string (list LevelData)) :
  dict_get "" by_name = None ->
  dict_get "" (fold_left (group_step py_hash str_of_value lv) l by_name)
  = None.
Proof.
  revert by_name. induction l as [|e l IH]; intros by_name Hnone; simpl;
    [done|].
  apply IH. unfold group_step.
  destruct (String.eqb_spec (name e) "") as [Hemp|Hne]; simpl; [done|].
  by rewrite dict_get_set_ne.
Qed.

Lemma append_fold_levels (lv n0 : string) (now : Q) (lds : list LevelData)
    (ob : OrderBook) (lv' n' : string) :
  levels_at
    (fold_left
       (fun ob' ld => append_level lv n0 (level_of_data now n0 ld) ob')
       lds ob) lv' n'
  = if decide (lv = lv' /\ n0 = n')
    then levels_at ob lv n0 ++ map (level_of_data now n0) lds
    else levels_at ob lv' n'.
Proof.
  revert ob. induction lds as [|ld lds IH]; intros ob; simpl.
  - destruct (decide _) as [[<- <-]|_]; [by rewrite app_nil_r | done].
  - rewrite IH.
    assert (forall a b,
              levels_at (append_level lv n0 (level_of_data now n0 ld) ob) a b
              = if decide (lv = a /\ n0 = b)
                then levels_at ob lv n0 ++ [level_of_data now n0 ld]
                else levels_at ob a b) as Hput.
    { intros a b. unfold append_level.
      change (levels_at (with_selections ?s ?o) a b) with (levels_at o a b).
      apply levels_at_put. }
    rewrite !Hput.
    destruct (decide (lv = lv' /\ n0 = n')) as [[<- <-]|Hno]; [|done].
    rewrite decide_True by done. by rewrite <- app_assoc.
Qed.

Lemma store_name_levels (lv : string) (now : Q) (ob : OrderBook)
    (n0 : string) (lds : list LevelData) (lv' n' : string) :
  levels_at (store_name lv now ob (n0, lds)) lv' n'
  = if decide (lv = lv' /\ n0 = n')
    then levels_at ob lv n0 ++ map (level_of_data now n0) (sort_levels lds)
    else levels_at ob lv' n'.
Proof.
  unfold store_name. cbn [fst snd]. rewrite append_fold_levels.
  destruct (dict_mem n0 (default [] (dict_get lv (line_groups ob))))
    eqn:Hmem; [done|].
  rewrite !levels_at_put.
  assert (levels_at ob lv n0 = []) as Hempty.
  { unfold levels_at, dict_mem in *.
    by destruct (dict_get n0 (default [] (dict_get lv (line_groups ob)))). }
  destruct (decide (lv = lv' /\ n0 = n')) as [[<- <-]|Hno]; [|done].
  rewrite decide_True by done. by rewrite Hempty.
Qed.

Lemma store_fold_levels (lv : string) (now : Q)
    (items : pydict string (list LevelData)) (ob : OrderBook)
    (lv' n' : string) :
  NoDup (dict_keys items) ->
  levels_at (fold_left (store_name lv now) items ob) lv' n'
  = if decide (lv = lv')
    then levels_at ob lv n'
           ++ map (level_of_data now n')
                  (sort_levels (default [] (dict_get n' items)))
    else levels_at ob lv' n'.
Proof.
  revert ob. induction items as [|[n0 lds] items IH]; intros ob Hnd; simpl.
  - destruct (decide (lv = lv')) as [<-|_]; [by rewrite app_nil_r | done].
  - apply NoDup_cons in Hnd as [Hn0 Hnd]. rewrite IH by done.
    rewrite !store_name_levels.
    destruct (decide (lv = lv')) as [<-|Hlv].
    + destruct (decide (n' = n0)) as [->|Hn'].
      * rewrite !decide_True by done.
        assert (dict_get n0 items = None) as ->
          by (by apply dict_get_None_keys).
        simpl. by rewrite app_nil_r.
      * rewrite decide_False by (intros [_ ?]; congruence). done.
    + rewrite decide_False by tauto. done.
Qed.

Lemma process_line_levels (now : Q) (ob : OrderBook) (line : MarketLine)
    (lv' n : string) :
  n <> "" ->
  levels_at (process_line py_hash str_of_value now ob line) lv' n
  = if decide (line_value line = lv')
    then levels_at ob lv' n
           ++ map (level_of_data now n)
                  (sort_levels
                     (map (level_data_of py_hash str_of_value
                                         (line_value line))
                          (named n (flatten_groups (line_selections line)))))
    else levels_at ob lv' n.
Proof.
  intros Hn. unfold process_line. cbv zeta.
  rewrite store_fold_levels by (apply group_fold_NoDup; constructor).
  rewrite group_fold_get by done. simpl.
  assert (forall a b,
            levels_at
              (if dict_mem (line_value line) (line_groups ob) then ob
               else with_available_lines
                      (available_lines ob ++ [line_value line])
                      (with_line_groups
                         (dict_set (line_value line) [] (line_groups ob)) ob))
              a b
            = levels_at ob a b) as Hinit.
  { intros a b.
    destruct (dict_mem (line_value line) (line_groups ob)) eqn:Hmem; [done|].
    change (levels_at (with_available_lines ?x ?o) a b)
      with (levels_at o a b).
    by apply levels_at_new_group. }
  rewrite !Hinit. by destruct (decide (line_value line = lv')) as [<-|_].
Qed.


Lemma sort_levels_Permutation (lds : list LevelData) :
  sort_levels lds ≡ₚ lds.
Proof.
  unfold sort_levels. destruct lds as [|first rest]; [done|].
  destruct (level_odds first); [|done].
  apply py_sorted_Permutation.
Qed.

Lemma new_levels_odds (now : Q) (lv n : string) (entries : list Selection) :
  map odds
      (map (level_of_data now n)
           (sort_levels
              (map (level_data_of py_hash str_of_value lv) entries)))
  ≡ₚ map sel_odds entries.
Proof.
  rewrite map_map. simpl.
  change (map (fun x => level_odds x) ?l) with (map level_odds l).
  rewrite sort_levels_Permutation, map_map. done.
Qed.

Lemma new_levels_shape (now : Q) (lv n : string) (entries : list Selection) :
  Forall (fun level =>
            selection_name level = n /\ timestamp level = now /\
            (odds level = None -> size level = 0%Q) /\
            (odds level <> None -> (0 < size level)%Q))
         (map (level_of_data now n)
              (sort_levels
                 (map (level_data_of py_hash str_of_value lv) entries))).
Proof.
  apply Forall_map. apply Forall_forall. intros ld Hld.
  rewrite sort_levels_Permutation in Hld.
  apply list_elem_of_fmap in Hld as (e & -> & _). simpl.
  split; [done|]. split; [done|]. split.
  - by intros ->.
  - destruct (sel_odds e) as [o|]; [|done]. intros _.
    apply display_value_positive.
Qed.

Lemma key_order_not_below (a b : LevelData) :
  key_le (odds_key b) (odds_key a) = true ->
  not_below (level_odds a) (level_odds b).
Proof.
  unfold odds_key, not_below.
  destruct (level_odds a) as [x|], (level_odds b) as [y|]; simpl; try done.
  rewrite Qle_bool_iff, <- Zle_Qle. done.
Qed.

Lemma sort_levels_sorted (first : LevelData) (rest : list LevelData)
    (o : Z) :
  level_odds first = Some o ->
  StronglySorted
    (fun a b =>
       not_below (odds (level_of_data 0 "" a)) (odds (level_of_data 0 "" b)))
    (sort_levels (first :: rest)).
Proof.
  intros Ho. unfold sort_levels. rewrite Ho. unfold py_sort_by_key_reverse.
  eapply strongly_sorted_weaken;
    [|apply (py_sorted_sorted _ (fun _ => True))].
  - intros x y _ _ Hxy. by apply key_order_not_below.
  - intros x y _ _. apply key_le_total.
  - intros x y z _ _ _ Hxy Hyz. by apply (key_le_trans _ _ _ Hyz Hxy).
  - by apply Forall_forall.
Qed.

(** One line of an update adds, under its value and each name, one level
    per entry of that name, after the levels that were there: none is
    dropped or merged, each carries the name, the time of the update and the
    odds of its entry, with size [0] when unpriced and a positive size when
    priced.  When the first entry of the name is priced the new levels stand
    in descending order of odds, unpriced ones first; when it is unpriced
    they stand in payload order.  Levels under other line values stay. *)
Theorem line_levels_appended (now : Q) (ob : OrderBook) (line : MarketLine)
    (n : string) :
  n <> "" ->
  let lv := line_value line in
  let entries := named n (flatten_groups (line_selections line)) in
  let ob' := process_line py_hash str_of_value now ob line in
  (exists new,
     levels_at ob' lv n = levels_at ob lv n ++ new /\
     map odds new ≡ₚ map sel_odds entries /\
     Forall (fun level =>
               selection_name level = n /\ timestamp level = now /\
               (odds level = None -> size level = 0%Q) /\
               (odds level <> None -> (0 < size level)%Q)) new /\
     match entries with
     | [] => new = []
     | first :: _ =>
         match sel_odds first with
         | Some _ =>
             StronglySorted (fun a b => not_below (odds a) (odds b)) new
         | None => map odds new = map sel_odds entries
         end
     end) /\
  (forall lv', lv' <> lv -> levels_at ob' lv' n = levels_at ob lv' n).
Proof.
  intros Hn. cbv zeta. split.
  - rewrite process_line_levels, decide_True by done.
    eexists. split; [reflexivity|].
    split; [apply new_levels_odds|]. split; [apply new_levels_shape|].
    destruct (named n (flatten_groups (line_selections line)))
      as [|first rest]; [done|].
    destruct (sel_odds first) as [o|] eqn:Ho.
    + apply strongly_sorted_map. by apply (sort_levels_sorted _ _ o).
    + assert (sort_levels
                (map (level_data_of py_hash str_of_value (line_value line))
                     (first :: rest))
              = map (level_data_of py_hash str_of_value (line_value line))
                    (first :: rest)) as ->.
      { cbn [map]. unfold sort_levels. cbn [level_data_of level_odds].
        by rewrite Ho. }
      by rewrite !map_map.
  - intros lv' Hlv. rewrite process_line_levels by done.
    by rewrite decide_False.
Qed.

Lemma fold_lines_depth (now : Q) (lines : list MarketLine) (ob : OrderBook)
    (lv n : string) :
  n <> "" ->
  let ob' := fold_left (process_line py_hash str_of_value now) lines ob in
  map odds (levels_at ob' lv n)
    ≡ₚ map odds (levels_at ob lv n) ++ map sel_odds (line_entries lines lv n)
  /\
  (Forall (fun level =>
             selection_name level = n /\
             (odds level = None -> size level = 0%Q) /\
             (odds level <> None -> (0 < size level)%Q))
          (levels_at ob lv n) ->
   Forall (fun level =>
             selection_name level = n /\
             (odds level = None -> size level = 0%Q) /\
             (odds level <> None -> (0 < size level)%Q))
          (levels_at ob' lv n)).
Proof.
  intros Hn. cbv zeta. revert ob.
  induction lines as [|line lines IH]; intros ob; simpl.
  - by rewrite app_nil_r.
  - destruct (IH (process_line py_hash str_of_value now ob line))
      as [Hperm Hshape].
    rewrite process_line_levels in Hperm, Hshape by done. split.
    + rewrite Hperm.
      destruct (decide (line_value line = lv)) as [Heq|Hne].
      * rewrite bool_decide_eq_true_2 by done.
        rewrite map_app, new_levels_odds, map_app, app_assoc. done.
      * by rewrite bool_decide_eq_false_2.
    + intros Hold. apply Hshape.
      destruct (decide (line_value line = lv)) as [Heq|Hne]; [|done].
      apply Forall_app. split; [done|].
      eapply Forall_impl; [apply new_levels_shape|].
      intros level (H1 & _ & H3 & H4). done.
Qed.

(** After an update with market lines, the levels stored under a line value
    and a name are, up to order, one per entry of that name in the lines of
    that value: the whole depth of the payload is kept, none of it from
    before the update.  Each level carries the name, with size [0] when
    unpriced and a positive size when priced. *)
Theorem market_depth_complete (float_of_str : string -> option Q)
    (ob : OrderBook) (l : MarketLine) (ls : list MarketLine) (now : Q)
    (lv n : string) :
  n <> "" ->
  let ob' := _process_market_lines py_hash str_of_value float_of_str ob
               (l :: ls) now in
  map odds (levels_at ob' lv n)
    ≡ₚ map sel_odds (line_entries (l :: ls) lv n) /\
  length (levels_at ob' lv n) = length (line_entries (l :: ls) lv n) /\
  Forall (fun level =>
            selection_name level = n /\
            (odds level = None -> size level = 0%Q) /\
            (odds level <> None -> (0 < size level)%Q))
         (levels_at ob' lv n).
Proof.
  intros Hn. cbv zeta. unfold _process_market_lines. cbv zeta.
  change (levels_at (with_available_lines ?x ?o) lv n)
    with (levels_at o lv n).
  destruct (fold_lines_depth now (l :: ls)
              (with_available_lines [] (with_line_groups [] ob)) lv n Hn)
    as [Hperm Hshape].
  cbv zeta in Hperm, Hshape.
  change (levels_at (with_available_lines [] (with_line_groups [] ob)) lv n)
    with (@nil SelectionLevel) in Hperm, Hshape.
  simpl map in Hperm at 2. simpl app in Hperm.
  split; [exact Hperm|]. split; [|by apply Hshape].
  apply Permutation_length in Hperm. by rewrite !length_map in Hperm.
Qed.

End depth.


Lemma line_levels_appended_witness :
  let over1 := mkSelection "Over" (Some (-110)) 50 "L1" 7 in
  let over2 := mkSelection "Over" (Some 120) 20 "L2" 7 in
  let line := mkMarketLine "8.5" [Several [over1; over2]] in
  let book := new_order_book 777 "777_total_3" "total" "A v B" 0 in
  levels_at (process_line (fun _ => 0) (fun _ => "") 1 book line) "7.5" "Over"
  = levels_at book "7.5" "Over".
Proof.
  intros over1 over2 line book.
  assert ("Over" <> "") as Hn by discriminate.
  assert ("7.5" <> line_value line) as Hlv by discriminate.
  exact (proj2 (line_levels_appended (fun _ => 0) (fun _ => "") 1 book line
                  "Over" Hn) "7.5" Hlv).
Defined.

Lemma market_depth_complete_witness :
  let over1 := mkSelection "Over" (Some (-110)) 50 "L1" 7 in
  let over2 := mkSelection "Over" (Some 120) 20 "L2" 7 in
  let line := mkMarketLine "8.5" [Several [over1; over2]] in
  let book := new_order_book 777 "777_total_3" "total" "A v B" 0 in
  length (levels_at
            (_process_market_lines (fun _ => 0) (fun _ => "") decimal_float
               book [line] 1) "8.5" "Over")
  = length (line_entries [line] "8.5" "Over").
Proof.
  intros over1 over2 line book.
  assert ("Over" <> "") as Hn by discriminate.
  exact (proj1 (proj2 (market_depth_complete (fun _ => 0) (fun _ => "")
                         decimal_float book line [] 1 "8.5" "Over" Hn))).
Defined.


(** ** Trades *)

Section trade_facts.
Context {Info : Type}.

Lemma last_50_short (l : list (Trade Info)) :
  (length l <= 50)%nat -> last_50 l = l.
Proof.
  intros Hlen. unfold last_50.
  replace (length l - 50)%nat with 0%nat by lia. done.
Qed.

Lemma last_50_length (l : list (Trade Info)) :
  (length (last_50 l) <= 50)%nat.
Proof. unfold last_50. rewrite length_drop. lia. Qed.

Lemma last_50_snoc (l : list (Trade Info)) (t : Trade Info) :
  last_50 (last_50 l ++ [t]) = last_50 (l ++ [t]).
Proof.
  destruct (decide (length l <= 50)%nat) as [Hle|Hgt].
  - by rewrite (last_50_short l).
  - unfold last_50. rewrite !length_app, !length_drop. simpl.
    replace (length l - (length l - 50) + 1 - 50)%nat with 1%nat by lia.
    rewrite !drop_app_le by (rewrite ?length_drop; lia).
    rewrite drop_drop. f_equal. f_equal. lia.
Qed.

Lemma process_trade_get (trades : pydict Z (list (Trade Info)))
    (u : TradeUpdate Info) (event : Z) :
  default [] (dict_get event (_process_trade_update trades u))
  = last_50 (default [] (dict_get event trades) ++ trades_for event [u])
    \/ (trades_for event [u] = [] /\
        dict_get event (_process_trade_update trades u)
        = dict_get event trades).
Proof.
  unfold _process_trade_update, trades_for. simpl.
  destruct (update_event_id u) as [e|]; [|by right].
  destruct (update_market_id u) as [market|]; [|by right].
  destruct (negb (e =? 0) && negb (market =? 0)); simpl; [|by right].
  destruct (Z.eqb_spec e event) as [->|Hne]; simpl.
  - left. rewrite dict_get_set_eq. simpl.
    destruct (Nat.ltb_spec 50 (length
                (default [] (dict_get event trades)
                 ++ [mkTrade (update_time u) market (update_info u)])));
      [done|].
    by rewrite last_50_short.
  - right. by rewrite dict_get_set_ne.
Qed.

Lemma trades_for_cons (event : Z) (u : TradeUpdate Info)
    (updates : list (TradeUpdate Info)) :
  trades_for event (u :: updates)
  = trades_for event [u] ++ trades_for event updates.
Proof.
  unfold trades_for. change (u :: updates) with ([u] ++ updates).
  by rewrite omap_app.
Qed.

(** After any sequence of trade updates, the trades kept for an event are
    the last fifty of that event's trades, in arrival order; updates without
    an event id or a market id are ignored, and the trades of other events
    do not count. *)
Theorem trades_keep_last_50 (updates : list (TradeUpdate Info)) (event : Z) :
  let kept := default []
                (dict_get event (fold_left _process_trade_update updates [])) in
  kept = last_50 (trades_for event updates) /\
  (length kept <= 50)%nat /\
  kept = drop (length (trades_for event updates) - 50)
              (trades_for event updates).
Proof.
  cbv zeta.
  assert (forall trades,
            (length (default [] (dict_get event trades)) <= 50)%nat ->
            default []
              (dict_get event (fold_left _process_trade_update updates trades))
            = last_50 (default [] (dict_get event trades)
                       ++ trades_for event updates)) as Hfold.
  { induction updates as [|u updates IH]; intros trades Hlen;
      cbn [fold_left].
    - unfold trades_for. simpl. rewrite app_nil_r. by rewrite last_50_short.
    - rewrite trades_for_cons.
      destruct (process_trade_get trades u event) as [Hget|[Hnone Hget]].
      + rewrite IH by (rewrite Hget; apply last_50_length).
        rewrite Hget.
        assert (forall l l' : list (Trade Info),
                  last_50 (last_50 l ++ l') = last_50 (l ++ l')) as Happ.
        { intros l l'. revert l.
          induction l' as [|t l' IHl]; intros l.
          - rewrite !app_nil_r. apply last_50_short, last_50_length.
          - replace (last_50 l ++ t :: l')
              with ((last_50 l ++ [t]) ++ l') by (by rewrite <- app_assoc).
            rewrite <- IHl, last_50_snoc, IHl. by rewrite <- app_assoc. }
        by rewrite Happ, app_assoc.
      + rewrite IH by (by rewrite Hget). by rewrite Hget, Hnone. }
  rewrite (Hfold []) by (simpl; lia). simpl.
  split; [done|]. split; [apply last_50_length | done].
Qed.
End trade_facts.

End MarketExtras.

(** * The manager and the transport together *)

Module ExchangeExtras.
Import WagerMgr WagerFacts Exchange.
Local Open Scope Z_scope.

(** ** The composed calls in terms of the manager's methods *)

Lemma cancel_begin_result (id reason : string) (p : Platform) :
  result_of (cancel_wager_begin id reason) p
  = if dict_mem id (active_wagers (wager_manager p))
    then Awaiting (ApiCancelWager id) else Returned false.
Proof.
  unfold cancel_wager_begin. run_methods. by destruct (dict_mem id _).
Qed.

Lemma managed_place_spec (w : Wager) (strategy : string)
    (context : option (pydict string PyVal)) (t1 t2 : Q) (http : Http)
    (sys : System) :
  let p := managers sys in
  let answer := api_place_wager w http (api sys) in
  let call := place_wager w strategy context t1 t2 (Reply (fst answer)) in
  managed_place w strategy context t1 t2 http sys
  = (fst (result_of call p),
     mkSystem (state_after call p)
       (if valid_ok w p && within_limits w p then snd answer else api sys)
       (total_wagers_placed sys) (total_wagers_cancelled sys)).
Proof.
  cbv zeta. pose proof (place_begin_result w (managers sys)) as Hres.
  unfold managed_place, place_wager, result_of, state_after, bind in *.
  generalize (place_wager_resume w strategy context t1 t2). intros resume.
  destruct (place_wager_begin w (managers sys)) as [s p1]. simpl in Hres.
  subst s.
  destruct (valid_ok w (managers sys) && within_limits w (managers sys));
    simpl; [|done].
  destruct (api_place_wager w http (api sys)) as [wager_id api']. simpl.
  by destruct (resume (Reply wager_id) p1) as [r p2].
Qed.

Lemma managed_cancel_spec (id reason : string) (now : Q) (http : Http)
    (sys : System) :
  let p := managers sys in
  let answer := api_cancel_wager id http (api sys) in
  let call := cancel_wager id reason now (Reply (fst answer)) in
  managed_cancel id reason now http sys
  = (fst (result_of call p),
     mkSystem (state_after call p)
       (if dict_mem id (active_wagers (wager_manager p))
        then snd answer else api sys)
       (total_wagers_placed sys) (total_wagers_cancelled sys)).
Proof.
  cbv zeta. pose proof (cancel_begin_result id reason (managers sys)) as Hres.
  unfold managed_cancel, cancel_wager, result_of, state_after, bind in *.
  generalize (cancel_wager_resume id reason now). intros resume.
  destruct (cancel_wager_begin id reason (managers sys)) as [s p1].
  simpl in Hres. subst s.
  destruct (dict_mem id (active_wagers (wager_manager (managers sys))));
    simpl; [|done].
  destruct (api_cancel_wager id http (api sys)) as [success api']. simpl.
  by destruct (resume (Reply success) p1) as [r p2].
Qed.

Lemma managed_cancel_all_spec (reason : string) (now : Q) (http : Http)
    (sys : System) :
  let p := managers sys in
  let answer := api_cancel_all_wagers http (api sys) in
  let call := cancel_all_wagers reason now (Reply (fst answer)) in
  managed_cancel_all reason now http sys
  = (fst (result_of call p),
     mkSystem (state_after call p) (snd answer)
       (total_wagers_placed sys) (total_wagers_cancelled sys)).
Proof.
  cbv zeta.
  unfold managed_cancel_all, cancel_all_wagers, cancel_all_wagers_begin,
    result_of, state_after, bind, log, ret.
  generalize (cancel_all_wagers_resume reason now). intros resume.
  simpl.
  destruct (api_cancel_all_wagers http (api sys)) as [success api']. simpl.
  by destruct (resume (Reply success) _) as [r p2].
Qed.


(** ** Active wagers are known to the transport *)

Lemma registry_after_request (r : Request) (a : Api) :
  wagers (requested r a) = wagers a.
Proof. done. Qed.

Lemma step_in_step (sys : System) (c : SysCall) :
  is_manual_cancel c = false -> in_step sys -> in_step (sys_step sys c).
Proof.
  intros Hc [Hnd Hreg]. unfold in_step, active_registered in *.
  destruct c as [w strategy context t1 t2 http|id reason now http
                |reason now http|uuid now line_id odds stake http|];
    [| | | |done]; simpl.
  - rewrite managed_place_spec. cbv zeta. simpl.
    destruct (valid_ok w (managers sys) && within_limits w (managers sys))
      eqn:Hok.
    + apply andb_true_iff in Hok as [Hv Hw].
      destruct (WagerExtras.place_wager_reached w strategy context t1 t2
                  (Reply (fst (api_place_wager w http (api sys))))
                  (managers sys) Hv Hw) as [_ Hm].
      cbv zeta in Hm. rewrite Hm. clear Hm.
      unfold api_place_wager.
      destruct http as [|status body]; simpl; [done|].
      destruct (status =? 200); simpl; [|done].
      destruct body as [wager_id|]; simpl; [|done].
      destruct (id_truthy wager_id); simpl.
      * split; [by apply dict_keys_set_NoDup|].
        intros id Hid. apply dict_mem_set_iff.
        apply dict_mem_set_iff in Hid as [->|Hid]; [by left|].
        right. by apply Hreg.
      * split; [done|]. intros id Hid. apply dict_mem_set_iff.
        right. by apply Hreg.
    + destruct (WagerExtras.place_wager_rejected w strategy context t1 t2
                  (Reply (fst (api_place_wager w http (api sys))))
                  (managers sys) Hok) as [_ Hm].
      by rewrite Hm.
  - rewrite managed_cancel_spec. cbv zeta. simpl.
    destruct (dict_get id (active_wagers (wager_manager (managers sys))))
      as [record|] eqn:Hget.
    + destruct (WagerExtras.cancel_wager_found id reason now
                  (Reply (fst (api_cancel_wager id http (api sys))))
                  (managers sys) record Hget) as [_ Hm].
      cbv zeta in Hm. rewrite Hm. clear Hm.
      assert (dict_mem id (active_wagers (wager_manager (managers sys)))
              = true) as Hmem by (unfold dict_mem; by rewrite Hget).
      rewrite Hmem. pose proof (Hreg id Hmem) as Hknown.
      unfold api_cancel_wager. unfold dict_mem in Hknown.
      destruct (dict_get id (wagers (api sys))) as [wager_id|]; [|done].
      assert (NoDup (dict_keys (dict_pop id
                (active_wagers (wager_manager (managers sys)))))
              /\ (forall id',
                    dict_mem id' (dict_pop id
                      (active_wagers (wager_manager (managers sys)))) = true ->
                    dict_mem id' (dict_pop id (wagers (api sys))) = true))
        as Hpop.
      { split; [by apply dict_keys_pop_NoDup|]. intros id' Hid'.
        apply dict_mem_pop in Hid' as [Hne Hid']; [|done].
        unfold dict_mem. rewrite dict_get_pop_ne by done. by apply Hreg. }
      destruct http as [|status body]; simpl; [done|].
      destruct (status =? 200); simpl; [done|].
      destruct (status =? 404); simpl; done.
    + destruct (WagerExtras.cancel_wager_absent id reason now
                  (Reply (fst (api_cancel_wager id http (api sys))))
                  (managers sys) Hget) as [_ Hm].
      rewrite Hm. unfold dict_mem. by rewrite Hget.
  - rewrite managed_cancel_all_spec. cbv zeta. simpl.
    destruct (WagerExtras.cancel_all_outcome reason now
                (Reply (fst (api_cancel_all_wagers http (api sys))))
                (managers sys)) as [_ Hm].
    cbv zeta in Hm. rewrite Hm. clear Hm. unfold api_cancel_all_wagers.
    destruct http as [|status body]; simpl; [done|].
    destruct (status =? 200); simpl; [by split; [constructor|]|].
    destruct (status =? 404); simpl; [by split; [constructor|]|done].
  - unfold place_manual_wager.
    destruct (dry_run _); simpl; [done|].
    unfold api_place_wager.
    destruct http as [|status body]; simpl; [done|].
    destruct (status =? 200); simpl; [|done].
    destruct body as [wager_id|]; simpl; [|done].
    destruct (id_truthy wager_id); simpl; (split; [done|]);
      intros id Hid; apply dict_mem_set_iff; right; by apply Hreg.
Qed.

(** As long as no wager is cancelled through [cancel_manual_wager], after
    any sequence of placements and cancellations through the manager and of
    manual placements, whatever the exchange answers, every wager the manager
    holds as active is in the transport's table of wager ids, and no external
    id is active twice. *)
Theorem active_wagers_are_registered (cfg : TradingConfig)
    (rcfg : RiskConfig) (t0 : Q) (calls : list SysCall) :
  forallb (fun c => negb (is_manual_cancel c)) calls = true ->
  let sys := sys_run calls (new_system cfg rcfg t0) in
  NoDup (dict_keys (active_wagers (wager_manager (managers sys)))) /\
  Forall (fun id => dict_mem id (wagers (api sys)) = true)
         (dict_keys (active_wagers (wager_manager (managers sys)))).
Proof.
  intros Hcalls. cbv zeta.
  assert (forall sys,
            in_step sys ->
            forallb (fun c => negb (is_manual_cancel c)) calls = true ->
            in_step (sys_run calls sys)) as Hrun.
  { clear Hcalls. unfold sys_run.
    induction calls as [|c calls IH]; intros sys Hinit Hcalls; [done|].
    simpl in Hcalls. apply andb_true_iff in Hcalls as [Hc Hcalls].
    simpl. apply IH; [|done]. apply step_in_step; [|done].
    by apply negb_true_iff. }
  destruct (Hrun (new_system cfg rcfg t0)) as [Hnd Hreg]; [|done|].
  { split; [constructor|]. intros id Hid. done. }
  split; [done|]. apply Forall_forall. intros id Hid.
  apply Hreg. by apply dict_mem_keys.
Qed.


Lemma active_wagers_are_registered_witness :
  let w := mkWager "w-1" 7 (-110) 5 0 "" PENDING None 0 None in
  let sys := sys_run
               [ManagedPlace w "mm" None 1 1 (HttpResponse 200 (Some (Some 42)));
                ManualPlace "u-1" 2 8 120 5 (HttpResponse 200 (Some (Some 43)));
                ManagedCancel "w-1" "r" 3 (HttpResponse 500 None)]
               (new_system default_trading_config default_risk_config 0) in
  Forall (fun id => dict_mem id (wagers (api sys)) = true)
         (dict_keys (active_wagers (wager_manager (managers sys)))).
Proof.
  intros w sys.
  assert (forallb (fun c => negb (is_manual_cancel c))
            [ManagedPlace w "mm" None 1 1 (HttpResponse 200 (Some (Some 42)));
             ManualPlace "u-1" 2 8 120 5 (HttpResponse 200 (Some (Some 43)));
             ManagedCancel "w-1" "r" 3 (HttpResponse 500 None)] = true)
    as Hcalls by reflexivity.
  exact (proj2 (active_wagers_are_registered default_trading_config
                  default_risk_config 0 _ Hcalls)).
Defined.

(** ** A cancellation through the manager *)

(** A cancellation through the manager of an active wager the transport
    knows always sends one cancel request, carrying the wager id the
    exchange gave.  Status [200] and status [404] both count as done: the
    call returns [True], and the wager leaves the active set, with its record
    added to the history, and the transport's table.  Any other status, or an
    exception, returns [False] and leaves both as they were. *)
Theorem managed_cancel_reaches_exchange (id reason : string) (now : Q)
    (http : Http) (sys : System) (record : WagerRecord)
    (wager_id : option Z) :
  NoDup (dict_keys (active_wagers (wager_manager (managers sys)))) ->
  get_wager_by_id (wager_manager (managers sys)) id = Some record ->
  dict_get id (wagers (api sys)) = Some wager_id ->
  let out := managed_cancel id reason now http sys in
  let m := wager_manager (managers sys) in
  let m' := wager_manager (managers (snd out)) in
  fst out = cancel_accepted http /\
  requests (api (snd out)) = requests (api sys) ++ [PostCancel id wager_id] /\
  (cancel_accepted http = true ->
   get_wager_by_id m' id = None /\
   wagers (api (snd out)) = dict_pop id (wagers (api sys)) /\
   wager_history m' = wager_history m ++ [cancelled_at now record]) /\
  (cancel_accepted http = false ->
   active_wagers m' = active_wagers m /\
   wager_history m' = wager_history m /\
   wagers (api (snd out)) = wagers (api sys)).
Proof.
  unfold get_wager_by_id. intros Hnd Hget Hknown. cbv zeta.
  rewrite managed_cancel_spec. cbv zeta. simpl.
  destruct (WagerExtras.cancel_wager_found id reason now
              (Reply (fst (api_cancel_wager id http (api sys))))
              (managers sys) record Hget) as [Hres Hm].
  cbv zeta in Hm. rewrite Hres, Hm. clear Hres Hm.
  assert (dict_mem id (active_wagers (wager_manager (managers sys))) = true)
    as -> by (unfold dict_mem; by rewrite Hget).
  unfold api_cancel_wager. rewrite Hknown.
  destruct http as [|status body]; simpl; [done|].
  destruct (status =? 200); simpl.
  { split; [done|]. split; [done|]. split; [|done]. intros _.
    split; [by apply dict_get_pop_eq | done]. }
  destruct (status =? 404); simpl; [|done].
  split; [done|]. split; [done|]. split; [|done]. intros _.
  split; [by apply dict_get_pop_eq | done].
Qed.

Lemma managed_cancel_witness :
  let w := mkWager "w-1" 7 (-110) 5 0 "" PENDING None 0 None in
  let sys := sys_run
               [ManagedPlace w "mm" None 1 1 (HttpResponse 200 (Some (Some 42)))]
               (new_system default_trading_config default_risk_config 0) in
  fst (managed_cancel "w-1" "r" 2 (HttpResponse 404 None) sys) = true.
Proof.
  intros w sys.
  assert (NoDup (dict_keys (active_wagers (wager_manager (managers sys)))))
    as Hnd by (vm_compute; repeat constructor; set_solver).
  assert (get_wager_by_id (wager_manager (managers sys)) "w-1"
          = Some (mkWagerRecord w 1 1 "mm" [])) as Hget by reflexivity.
  assert (dict_get "w-1" (wagers (api sys)) = Some (Some 42)) as Hknown
    by reflexivity.
  exact (proj1 (managed_cancel_reaches_exchange "w-1" "r" 2
                  (HttpResponse 404 None) sys _ _ Hnd Hget Hknown)).
Defined.

(** ** A cancellation behind the manager's back *)

(** [cancel_manual_wager] on a wager the manager holds removes it from the
    transport's table only: the manager still lists it as active and counts
    its stake.  From then on a cancellation of that wager through the manager
    returns [False] without any request being sent, whatever the exchange
    would answer, and the wager stays active. *)
Theorem manual_cancel_strands_wager (id : string) (http : Http)
    (sys : System) (record : WagerRecord) (wager_id : option Z) :
  dry_run (trading_config (wager_manager (managers sys))) = false ->
  get_wager_by_id (wager_manager (managers sys)) id = Some record ->
  dict_get id (wagers (api sys)) = Some wager_id ->
  NoDup (dict_keys (wagers (api sys))) ->
  cancel_accepted http = true ->
  let sys1 := snd (cancel_manual_wager id http sys) in
  fst (cancel_manual_wager id http sys) = true /\
  total_wagers_cancelled sys1 = total_wagers_cancelled sys + 1 /\
  wager_manager (managers sys1) = wager_manager (managers sys) /\
  (forall http' reason now,
     let out := managed_cancel id reason now http' sys1 in
     fst out = false /\
     requests (api (snd out)) = requests (api sys1) /\
     get_wager_by_id (wager_manager (managers (snd out))) id = Some record /\
     get_total_exposure (wager_manager (managers (snd out)))
       = get_total_exposure (wager_manager (managers sys))).
Proof.
  unfold get_wager_by_id. intros Hdry Hget Hknown Hnd Hacc. cbv zeta.
  assert (cancel_manual_wager id http sys
          = (true,
             log_managers INFO "Manual wager cancelled"
               (mkSystem (managers sys)
                  (mkApi (dict_pop id (wagers (api sys)))
                         (requests (api sys) ++ [PostCancel id wager_id]))
                  (total_wagers_placed sys)
                  (total_wagers_cancelled sys + 1)))) as ->.
  { unfold cancel_manual_wager, api_cancel_wager. rewrite Hdry, Hknown.
    destruct http as [|status body]; simpl in *; [done|].
    destruct (status =? 200); simpl; [done|].
    destruct (status =? 404); simpl; done. }
  simpl. split; [done|]. split; [done|]. split; [done|].
  intros http' reason now. cbv zeta.
  rewrite managed_cancel_spec. cbv zeta. simpl.
  unfold api_cancel_wager. simpl. rewrite dict_get_pop_eq by done. simpl.
  destruct (WagerExtras.cancel_wager_found id reason now (Reply false)
              (snd (log INFO "Manual wager cancelled" (managers sys)))
              record Hget) as [Hres Hm].
  cbv zeta in Hm. simpl in Hres, Hm. rewrite Hres, Hm. simpl.
  unfold dict_mem. rewrite Hget. done.
Qed.


Lemma manual_cancel_witness :
  let cfg := mkTradingConfig false 10 1000 (-200) 200 5 30 50 in
  let w := mkWager "w-1" 7 (-110) 5 0 "" PENDING None 0 None in
  let sys := sys_run
               [ManagedPlace w "mm" None 1 1 (HttpResponse 200 (Some (Some 42)))]
               (new_system cfg default_risk_config 0) in
  let sys1 := snd (cancel_manual_wager "w-1" (HttpResponse 200 None) sys) in
  wager_manager (managers sys1) = wager_manager (managers sys).
Proof.
  intros cfg w sys sys1.
  assert (dry_run (trading_config (wager_manager (managers sys))) = false)
    as Hdry by reflexivity.
  assert (get_wager_by_id (wager_manager (managers sys)) "w-1"
          = Some (mkWagerRecord w 1 1 "mm" [])) as Hget by reflexivity.
  assert (dict_get "w-1" (wagers (api sys)) = Some (Some 42)) as Hknown
    by reflexivity.
  assert (NoDup (dict_keys (wagers (api sys)))) as Hnd
    by (vm_compute; repeat constructor; set_solver).
  assert (cancel_accepted (HttpResponse 200 None) = true) as Hacc
    by reflexivity.
  exact (proj1 (proj2 (proj2 (manual_cancel_strands_wager "w-1"
                                (HttpResponse 200 None) sys _ _
                                Hdry Hget Hknown Hnd Hacc)))).
Defined.

End ExchangeExtras.

(** * Subscriptions *)

Module HubExtras.
Import Hub HubFacts.

Section registry_facts.
Context {Id Env Args : Type} `{EqDecision Id}.
Variable call : Id -> Args -> HubState Id Env -> Signal * HubState Id Env.

Lemma list_remove_app_in (x : Id) (l l' : list Id) :
  x ∈ l -> list_remove x (l ++ l') = list_remove x l ++ l'.
Proof.
  induction l as [|y l IH]; simpl; intros Hin.
  - by apply elem_of_nil in Hin.
  - destruct (decide (x = y)); [done|].
    apply elem_of_cons in Hin as [?|Hin]; [done|]. by rewrite IH.
Qed.

Lemma list_remove_fresh (x : Id) (l : list Id) :
  x ∉ l -> list_remove x (l ++ [x]) = l.
Proof.
  induction l as [|y l IH]; simpl; intros Hnot.
  - by rewrite decide_True.
  - apply not_elem_of_cons in Hnot as [Hne Hnot].
    rewrite decide_False by done. by rewrite IH.
Qed.

Lemma list_remove_Permutation (x : Id) (l : list Id) :
  x ∈ l -> x :: list_remove x l ≡ₚ l.
Proof.
  induction l as [|y l IH]; simpl; intros Hin.
  - by apply elem_of_nil in Hin.
  - destruct (decide (x = y)) as [<-|Hne]; [done|].
    apply elem_of_cons in Hin as [?|Hin]; [done|].
    rewrite Permutation_swap. by rewrite IH.
Qed.

(** Subscribing appends, also when the callback is subscribed already, and
    unsubscribing removes the earliest subscription only.  So, when no
    callback changes the registry while it runs, a notification invokes a
    callback once per subscription it holds: after one more subscription
    the callbacks invoked are the former ones followed by the new one, and
    after an unsubscription that follows, a callback that was subscribed
    before has lost its earlier place and is invoked last.  For a callback
    that was not subscribed the two calls cancel out; in either case the
    registry holds the same callbacks as before the two calls, up to
    order. *)
Theorem subscriptions_are_counted (callback : Id) (args : Args)
    (s : HubState Id Env) (fuel : nat) :
  keeps_registry call ->
  (S (length (subscribers s)) < fuel)%nat ->
  let invoked st := snd <$> _notify_subscribers call fuel args st in
  let s1 := subscribe_to_updates callback s in
  let s2 := unsubscribe_from_updates callback s1 in
  invoked s1 = Some (subscribers s ++ [callback]) /\
  invoked s2
  = Some (if bool_decide (callback ∈ subscribers s)
          then list_remove callback (subscribers s) ++ [callback]
          else subscribers s) /\
  (callback ∉ subscribers s -> s2 = s) /\
  subscribers s2 ≡ₚ subscribers s.
Proof.
  intros Hkeep Hfuel. cbv zeta.
  assert (forall st,
            (length (subscribers st) < fuel)%nat ->
            snd <$> _notify_subscribers call fuel args st
            = Some (subscribers st)) as Hnotify.
  { intros st Hst.
    destruct (for_each_callback_all call "Error notifying subscriber" args
                Hkeep fuel 0%nat st []) as (s' & Hrun & _); [lia|].
    unfold _notify_subscribers. by rewrite Hrun. }
  assert (subscribers (unsubscribe_from_updates callback
                         (subscribe_to_updates callback s))
          = if bool_decide (callback ∈ subscribers s)
            then list_remove callback (subscribers s) ++ [callback]
            else subscribers s) as Hsubs.
  { unfold unsubscribe_from_updates, subscribe_to_updates. simpl.
    rewrite bool_decide_eq_true_2
      by (apply elem_of_app; right; apply list_elem_of_here).
    simpl. destruct (bool_decide_reflect (callback ∈ subscribers s)).
    - by apply list_remove_app_in.
    - by apply list_remove_fresh. }
  split; [|split; [|split]].
  - rewrite Hnotify; [done|]. simpl. rewrite length_app. simpl. lia.
  - rewrite Hnotify; [by rewrite Hsubs|]. rewrite Hsubs.
    destruct (bool_decide_reflect (callback ∈ subscribers s)) as [Hin|Hnot];
      [|lia].
    rewrite <- list_remove_app_in by done.
    assert (callback ∈ subscribers s ++ [callback]) as Hin'
      by (apply elem_of_app; by left).
    clear -Hin' Hfuel.
    assert (forall l : list Id,
              (length (list_remove callback l) <= length l)%nat) as Hlen.
    { induction l as [|y l IH]; simpl; [lia|].
      destruct (decide (callback = y)); simpl; lia. }
    pose proof (Hlen (subscribers s ++ [callback])) as Hle.
    rewrite length_app in Hle. simpl in Hle. lia.
  - intros Hnot. unfold unsubscribe_from_updates, subscribe_to_updates.
    simpl.
    rewrite bool_decide_eq_true_2
      by (apply elem_of_app; right; apply list_elem_of_here).
    rewrite list_remove_fresh by done. by destruct s.
  - unfold unsubscribe_from_updates, subscribe_to_updates. simpl.
    rewrite bool_decide_eq_true_2
      by (apply elem_of_app; right; apply list_elem_of_here).
    simpl. apply (Permutation_cons_inv (a := callback)).
    rewrite list_remove_Permutation
      by (apply elem_of_app; right; apply list_elem_of_here).
    by rewrite Permutation_app_comm.
Qed.
End registry_facts.

Lemma subscriptions_witness :
  snd <$> _notify_subscribers sample_call 6 "order_book_update"
            (subscribe_to_updates 1%nat (mkHubState [0; 1; 2]%nat 0%nat []))
  = Some [0; 1; 2; 1]%nat.
Proof.
  assert (keeps_registry sample_call) as Hkeep by (intros c a s; reflexivity).
  assert (S (length (subscribers (mkHubState [0; 1; 2]%nat 0%nat [])))
          < 6)%nat as Hfuel by (simpl; lia).
  exact (proj1 (subscriptions_are_counted sample_call 1%nat
                  "order_book_update" (mkHubState [0; 1; 2]%nat 0%nat []) 6
                  Hkeep Hfuel)).
Defined.

End HubExtras.
